(** * SmartReachAgent: the reply lifecycle engine

    A shallow embedding of [responder_agent.py] (manual-handling window,
    draft post-processing, the processing pass over the pending queue) and of
    [read_reply_tracker.py]'s [build_or_query], with the properties the
    specification states about them.

    Conventions.
    - Python [str] values are [string]s; [in], [split], [strip], [lower] and
      [title] are written out on them (ASCII case rules).
    - A naive [datetime] is the number of microseconds since
      0001-01-01T00:00:00, a [Z]; [timedelta(hours=h)] is [h * 3600 * 10^6].
    - A text file is [option string] ([None]: the file does not exist), a JSON
      store is [option (list _)] ([None]: missing or undecodable, which
      [load_json_file] turns into the empty list).
    - What lies outside the program (the wall clock, the model behind
      [Runner.run], the SMTP server) is an environment of oracles indexed by a
      call counter kept in the world.
    - A message is built before it is sent: the check the standard library
      makes of a header value when it is assigned is written out, since the
      Subject of a response is the customer's. *)

From Stdlib Require Import ZArith List String Ascii Bool Lia Permutation Arith.
From Equations Require Import Equations.
Import ListNotations.

Local Open Scope string_scope.
Local Open Scope Z_scope.

(** ** Python string operations used by the source *)

Module PyStr.
Definition LF : ascii := "010"%char.
Definition CR : ascii := "013"%char.

(** [needle in hay] *)
Fixpoint str_in (needle hay : string) : bool :=
  if String.prefix needle hay then true
  else match hay with
       | EmptyString => false
       | String _ rest => str_in needle rest
       end.

(** [s.split(sep)] for a non-empty separator: [skip] counts the characters
    of a separator occurrence still to be dropped, [cur] is the field being
    read, reversed. *)
Fixpoint rev_string (acc s : string) : string :=
  match s with
  | EmptyString => acc
  | String c rest => rev_string (String c acc) rest
  end.

Fixpoint split_go (sep : string) (skip : nat) (cur : string) (s : string)
  : list string :=
  match s with
  | EmptyString => [rev_string "" cur]
  | String c rest =>
      match skip with
      | S k => split_go sep k cur rest
      | O =>
          if String.prefix sep s
          then rev_string "" cur :: split_go sep (String.length sep - 1) "" rest
          else split_go sep O (String c cur) rest
      end
  end.

Definition split (sep s : string) : list string := split_go sep O "" s.

(** ASCII white space as [str.strip()] sees it. *)
Definition is_space (c : ascii) : bool :=
  let n := nat_of_ascii c in
  ((9 <=? n) && (n <=? 13) || (28 <=? n) && (n <=? 32))%nat.

Fixpoint lstrip (s : string) : string :=
  match s with
  | EmptyString => EmptyString
  | String c rest => if is_space c then lstrip rest else s
  end.

Definition strip (s : string) : string :=
  rev_string "" (lstrip (rev_string "" (lstrip s))).

Definition is_upper (c : ascii) : bool :=
  let n := nat_of_ascii c in ((65 <=? n) && (n <=? 90))%nat.
Definition is_lower (c : ascii) : bool :=
  let n := nat_of_ascii c in ((97 <=? n) && (n <=? 122))%nat.
Definition to_lower (c : ascii) : ascii :=
  if is_upper c then ascii_of_nat (nat_of_ascii c + 32) else c.
Definition to_upper (c : ascii) : ascii :=
  if is_lower c then ascii_of_nat (nat_of_ascii c - 32) else c.

Fixpoint lower (s : string) : string :=
  match s with
  | EmptyString => EmptyString
  | String c rest => String (to_lower c) (lower rest)
  end.

(** [s.title()]: the first cased character of every run of letters in upper
    case, the others in lower case. *)
Fixpoint title_go (in_word : bool) (s : string) : string :=
  match s with
  | EmptyString => EmptyString
  | String c rest =>
      let cased := is_upper c || is_lower c in
      String (if in_word then to_lower c else to_upper c) (title_go cased rest)
  end.

Definition title (s : string) : string := title_go false s.

(** [f.readlines()] on a file opened in text mode: universal newlines, every
    line but possibly the last ends in a line feed. *)
Fixpoint readlines (s : string) : list string :=
  match s with
  | EmptyString => []
  | String c rest =>
      if Ascii.eqb c LF then String LF "" :: readlines rest
      else if Ascii.eqb c CR then
        match rest with
        | String c' rest' =>
            if Ascii.eqb c' LF then String LF "" :: readlines rest'
            else String LF "" :: readlines rest
        | EmptyString => [String LF ""]
        end
      else match readlines rest with
           | [] => [String c ""]
           | l :: ls => String c l :: ls
           end
  end.

(** The length of the line boundary [s] starts with, as [str.splitlines]
    knows them: CR LF, LF, VT, FF, CR, FS, GS, RS and, in UTF-8 text, NEL
    (U+0085), LS (U+2028) and PS (U+2029); [0] when it starts with none. *)
Definition boundary (s : string) : nat :=
  match s with
  | EmptyString => 0
  | String c rest =>
      let n := nat_of_ascii c in
      if (n =? 13)%nat then
        match rest with
        | String d _ => if Ascii.eqb d LF then 2 else 1
        | EmptyString => 1
        end
      else if ((10 <=? n) && (n <=? 12) || (28 <=? n) && (n <=? 30))%nat then 1
      else if (n =? 194)%nat then
        match rest with
        | String d _ => if (nat_of_ascii d =? 133)%nat then 2 else 0
        | EmptyString => 0
        end
      else if (n =? 226)%nat then
        match rest with
        | String d (String e _) =>
            if ((nat_of_ascii d =? 128)
                && ((nat_of_ascii e =? 168) || (nat_of_ascii e =? 169)))%nat
            then 3 else 0
        | _ => 0
        end
      else 0
  end.

(** [s.splitlines()]: [skip] counts the characters of a boundary still to be
    dropped, [cur] is the line being read, reversed; a text that ends in a
    boundary has no empty last line. *)
Fixpoint splitlines_go (skip : nat) (cur : string) (s : string) : list string :=
  match s with
  | EmptyString =>
      match cur with
      | EmptyString => []
      | String _ _ => [rev_string "" cur]
      end
  | String c rest =>
      match skip with
      | S k => splitlines_go k cur rest
      | O =>
          match boundary s with
          | O => splitlines_go O (String c cur) rest
          | S k => rev_string "" cur :: splitlines_go k "" rest
          end
      end
  end.

Definition splitlines (s : string) : list string := splitlines_go O "" s.

(** No character of [s] ends a line. *)
Fixpoint single_line (s : string) : bool :=
  match s with
  | EmptyString => true
  | String c rest =>
      negb (Ascii.eqb c LF) && negb (Ascii.eqb c CR) && single_line rest
  end.

(** [s] is empty or its last character is a line feed: the next write to the
    file starts a line of its own. *)
Fixpoint line_terminated (s : string) : bool :=
  match s with
  | EmptyString => true
  | String c EmptyString => Ascii.eqb c LF
  | String _ rest => line_terminated rest
  end.

(** [c] does not occur in [s]. *)
Fixpoint free_of (c : ascii) (s : string) : bool :=
  match s with
  | EmptyString => true
  | String d rest => negb (Ascii.eqb d c) && free_of c rest
  end.

End PyStr.

(** ** Naive datetimes

    [datetime] stores year, month, day, hour, minute, second and microsecond;
    comparison and [timedelta] arithmetic are those of the microsecond count
    since 0001-01-01T00:00:00, which is the representation used here.  The
    calendar is only needed to print and read the timestamp text. *)

Module Datetime.
Definition US_PER_SECOND : Z := 1000000.
Definition SECONDS_PER_DAY : Z := 86400.

(** [timedelta(hours=h)] *)
Definition timedelta_hours (h : Z) : Z := h * 3600 * US_PER_SECOND.

(** The datetime with its microsecond field cleared: all that a text without
    a fractional part retains. *)
Definition whole_second (t : Z) : Z := t - t mod US_PER_SECOND.

Definition is_leap (y : Z) : bool :=
  (y mod 4 =? 0) && (negb (y mod 100 =? 0) || (y mod 400 =? 0)).

Definition days_before_year (y : Z) : Z :=
  let p := y - 1 in p * 365 + p / 4 - p / 100 + p / 400.

Definition days_in_month (y m : Z) : Z :=
  if m =? 2 then (if is_leap y then 29 else 28)
  else if (m =? 4) || (m =? 6) || (m =? 9) || (m =? 11) then 30 else 31.

Definition DAYS_BEFORE_MONTH : list Z :=
  [0; 0; 31; 59; 90; 120; 151; 181; 212; 243; 273; 304; 334].

Definition days_before_month (y m : Z) : Z :=
  nth (Z.to_nat m) DAYS_BEFORE_MONTH 0 + (if (2 <? m) && is_leap y then 1 else 0).

(** Proleptic Gregorian ordinal of a date, 0001-01-01 being day 1. *)
Definition ymd2ord (y m d : Z) : Z :=
  days_before_year y + days_before_month y m + d.

(** The date of an ordinal, by whole 400-, 100-, 4- and 1-year cycles and an
    estimate of the month that is corrected downwards when it overshoots. *)
Definition ord2ymd (ord : Z) : Z * Z * Z :=
  let n := ord - 1 in
  let n400 := n / 146097 in let n := n mod 146097 in
  let n100 := n / 36524 in let n := n mod 36524 in
  let n4 := n / 1461 in let n := n mod 1461 in
  let n1 := n / 365 in let n := n mod 365 in
  let year := n400 * 400 + 1 + n100 * 100 + n4 * 4 + n1 in
  if (n1 =? 4) || (n100 =? 4) then (year - 1, 12, 31)
  else
    let leapyear := (n1 =? 3) && (negb (n4 =? 24) || (n100 =? 3)) in
    let month := (n + 50) / 32 in
    let preceding :=
      nth (Z.to_nat month) DAYS_BEFORE_MONTH 0
      + (if (2 <? month) && leapyear then 1 else 0) in
    if n <? preceding then
      let month' := month - 1 in
      let preceding' := preceding - days_in_month year month' in
      (year, month', n - preceding' + 1)
    else (year, month, n - preceding + 1).

Definition digit (n : Z) : ascii := ascii_of_nat (48 + Z.to_nat (n mod 10)).
Definition pad2 (n : Z) : string :=
  String (digit (n / 10)) (String (digit n) "").
Definition pad4 (n : Z) : string :=
  String (digit (n / 1000)) (String (digit (n / 100)) (pad2 n)).

(** [t.strftime('%Y-%m-%d %H:%M:%S')]: the microsecond field is not printed. *)
Definition strftime (t : Z) : string :=
  let secs := t / US_PER_SECOND in
  let '(y, m, d) := ord2ymd (secs / SECONDS_PER_DAY + 1) in
  let sod := secs mod SECONDS_PER_DAY in
  pad4 y ++ "-" ++ pad2 m ++ "-" ++ pad2 d ++ " "
  ++ pad2 (sod / 3600) ++ ":" ++ pad2 (sod mod 3600 / 60) ++ ":" ++ pad2 (sod mod 60).

(** A reader for exactly the texts [strftime] writes: fixed-width decimal
    fields and the separators of the format; [None] is [ValueError].
    (The library's [strptime] also accepts one-digit fields and runs of
    white space, so the engine below takes its reader as a parameter and this
    one is the instance used to run it.) *)
Definition digit_val (c : ascii) : option Z :=
  let n := nat_of_ascii c in
  if ((48 <=? n) && (n <=? 57))%nat then Some (Z.of_nat (n - 48)) else None.

Fixpoint read_digits (k : nat) (acc : Z) (s : string) : option (Z * string) :=
  match k with
  | O => Some (acc, s)
  | S k' =>
      match s with
      | String c rest =>
          match digit_val c with
          | Some v => read_digits k' (acc * 10 + v) rest
          | None => None
          end
      | EmptyString => None
      end
  end.

Definition expect (c : ascii) (s : string) : option string :=
  match s with
  | String d rest => if Ascii.eqb c d then Some rest else None
  | EmptyString => None
  end.

Definition obind {A B} (o : option A) (k : A -> option B) : option B :=
  match o with Some a => k a | None => None end.

Definition strptime_fixed (s : string) : option Z :=
  obind (read_digits 4 0 s) (fun '(y, s) =>
  obind (expect "-" s) (fun s =>
  obind (read_digits 2 0 s) (fun '(m, s) =>
  obind (expect "-" s) (fun s =>
  obind (read_digits 2 0 s) (fun '(d, s) =>
  obind (expect " " s) (fun s =>
  obind (read_digits 2 0 s) (fun '(hh, s) =>
  obind (expect ":" s) (fun s =>
  obind (read_digits 2 0 s) (fun '(mm, s) =>
  obind (expect ":" s) (fun s =>
  obind (read_digits 2 0 s) (fun '(ss, s) =>
  match s with
  | EmptyString =>
      if (1 <=? y) && (1 <=? m) && (m <=? 12) && (1 <=? d)
         && (d <=? days_in_month y m) && (hh <? 24) && (mm <? 60) && (ss <? 60)
      then Some ((((ymd2ord y m d - 1) * SECONDS_PER_DAY
                   + hh * 3600 + mm * 60 + ss)) * US_PER_SECOND)
      else None
  | _ => None
  end))))))))))).

(** 2024-01-15 10:30:00.250000, for the examples. *)
Definition sample_time : Z :=
  (((ymd2ord 2024 1 15 - 1) * SECONDS_PER_DAY + 10 * 3600 + 30 * 60) * US_PER_SECOND)
  + 250000.
End Datetime.

(** ** Exceptions, results and the state monad of the engine *)

Inductive exn : Type :=
| FileNotFoundError
| IndexError
| ValueError
| OverflowError.

Inductive result (A : Type) : Type :=
| Ok (a : A)
| Raise (e : exn).
Arguments Ok {A} a.
Arguments Raise {A} e.

(** A computation over a state [S] that returns or raises; the state reached
    is kept in both cases, as the effects of a Python call are when it
    raises. *)
Definition M (S A : Type) : Type := S -> result A * S.

Definition ret {S A} (a : A) : M S A := fun s => (Ok a, s).

Definition bind {S A B} (m : M S A) (k : A -> M S B) : M S B :=
  fun s => match m s with
           | (Ok a, s') => k a s'
           | (Raise e, s') => (Raise e, s')
           end.

Definition gets {S A} (f : S -> A) : M S A := fun s => (Ok (f s), s).
Definition modify {S} (f : S -> S) : M S unit := fun s => (Ok tt, f s).
Definition raise {S A} (e : exn) : M S A := fun s => (Raise e, s).

(** [try: m  except: h] *)
Definition try_except {S A} (m : M S A) (h : exn -> M S A) : M S A :=
  fun s => match m s with
           | (Ok a, s') => (Ok a, s')
           | (Raise e, s') => h e s'
           end.

Declare Scope monad_scope.
Delimit Scope monad_scope with monad.
Notation "x <- c1 ;; c2" := (bind c1 (fun x => c2))
  (at level 61, c1 at next level, right associativity) : monad_scope.
Notation "' pat <- c1 ;; c2" := (bind c1 (fun x => match x with pat => c2 end))
  (at level 61, pat pattern, c1 at next level, right associativity) : monad_scope.
Notation "c1 ;; c2" := (bind c1 (fun _ => c2))
  (at level 61, right associativity) : monad_scope.

(** ** Data model *)

(** A pending reply as [find_and_save_replies] stores it; a field is [None]
    when the key is absent from the JSON object. *)
Record Reply : Type := mkReply {
  from_email : option string;
  subject : option string;
  body : option string;
  timestamp : option string;
  gmail_link : option string
}.

(** [d.get(key, default)] *)
Definition get (field : option string) (default : string) : string :=
  match field with Some v => v | None => default end.

Record ConvEntry : Type := mkConvEntry {
  ce_timestamp : Z;
  customer_email : string;
  customer_name : string;
  customer_message : string;
  ai_response : option string;
  needs_human : bool;
  escalation_reason : option string
}.

Record Stats : Type := mkStats {
  ai_responded : nat;
  escalated_to_human : nat;
  skipped_manual : nat;
  failed : nat
}.

(** The two kinds of message handed to SMTP, by the arguments of the function
    that builds them. *)
Inductive Mail : Type :=
| ResponseMail (to_email subject html : string)
| NotificationMail (email name subject body gmail_link : string)
                   (reason : option string).

(** What the try block of [generate_ai_response] yields up to the reading of
    the ["response"] and ["needs_human"] fields: an exception (from
    [Runner.run], from [json.loads] on unparseable output, from a parsed value
    that is not an object or whose response is not a string), with its text
    [str(e)], or the two fields with their defaults filled in. *)
Inductive AgentOutput : Type :=
| AgentRaised (error_text : string)
| AgentJson (response : string) (needs_human_flag : bool).

(** The files of the engine and the record of what went through SMTP. *)
Record World : Type := mkWorld {
  tick : nat;
  replies_json : option (list Reply);
  conversation_log : option (list ConvEntry);
  notification_log : option string;
  reply_log : option string;
  smtp_trace : list (Mail * bool)
}.

(** The environment: each oracle is asked with the current call counter. *)
Record Env : Type := mkEnv {
  clock : nat -> Z;
  run_agent : nat -> string -> AgentOutput;
  smtp_send : nat -> Mail -> bool
}.

Definition set_tick (n : nat) (w : World) : World :=
  mkWorld n (replies_json w) (conversation_log w) (notification_log w)
          (reply_log w) (smtp_trace w).
Definition set_replies_json (v : option (list Reply)) (w : World) : World :=
  mkWorld (tick w) v (conversation_log w) (notification_log w)
          (reply_log w) (smtp_trace w).
Definition set_conversation_log (v : option (list ConvEntry)) (w : World) : World :=
  mkWorld (tick w) (replies_json w) v (notification_log w)
          (reply_log w) (smtp_trace w).
Definition set_notification_log (v : option string) (w : World) : World :=
  mkWorld (tick w) (replies_json w) (conversation_log w) v
          (reply_log w) (smtp_trace w).
Definition set_reply_log (v : option string) (w : World) : World :=
  mkWorld (tick w) (replies_json w) (conversation_log w) (notification_log w)
          v (smtp_trace w).
Definition set_smtp_trace (v : list (Mail * bool)) (w : World) : World :=
  mkWorld (tick w) (replies_json w) (conversation_log w) (notification_log w)
          (reply_log w) v.

Definition set_ai_responded (n : nat) (s : Stats) : Stats :=
  mkStats n (escalated_to_human s) (skipped_manual s) (failed s).
Definition set_escalated_to_human (n : nat) (s : Stats) : Stats :=
  mkStats (ai_responded s) n (skipped_manual s) (failed s).
Definition set_skipped_manual (n : nat) (s : Stats) : Stats :=
  mkStats (ai_responded s) (escalated_to_human s) n (failed s).
Definition set_failed (n : nat) (s : Stats) : Stats :=
  mkStats (ai_responded s) (escalated_to_human s) (skipped_manual s) n.

(** How the pass left one reply. *)
Inductive Outcome : Type :=
| SkippedManual
| AiResponded
| SendFailed
| Escalated
| NotificationFailed.

Definition terminal (o : Outcome) : bool :=
  match o with
  | AiResponded | Escalated => true
  | _ => false
  end.

(** The state of one run of [process_customer_replies]: the files, the local
    variables [replies] and [stats], and (not in the source) the list of the
    replies visited so far with what became of each. *)
Record PassState : Type := mkPassState {
  world : World;
  replies : list Reply;
  stats : Stats;
  outcomes : list (Reply * Outcome)
}.

Definition set_world (w : World) (st : PassState) : PassState :=
  mkPassState w (replies st) (stats st) (outcomes st).
Definition set_replies (l : list Reply) (st : PassState) : PassState :=
  mkPassState (world st) l (stats st) (outcomes st).
Definition set_stats (s : Stats) (st : PassState) : PassState :=
  mkPassState (world st) (replies st) s (outcomes st).
Definition set_outcomes (o : list (Reply * Outcome)) (st : PassState) : PassState :=
  mkPassState (world st) (replies st) (stats st) o.

(** Run a computation on the files from inside the pass. *)
Definition lift {A} (m : M World A) : M PassState A :=
  fun st => match m (world st) with (r, w') => (r, set_world w' st) end.

Definition note (reply : Reply) (o : Outcome) : M PassState unit :=
  modify (fun st => set_outcomes (outcomes st ++ [(reply, o)]) st).

(** [==] on two reply objects. *)
Definition Reply_eq_dec (x y : Reply) : {x = y} + {x <> y}.
Proof.
  decide equality; decide equality; apply string_dec.
Defined.

(** [l.remove(x)]: the first element equal to [x] goes; [None] is the
    [ValueError] raised when there is none. *)
Fixpoint remove_first (x : Reply) (l : list Reply) : option (list Reply) :=
  match l with
  | [] => None
  | y :: rest =>
      if Reply_eq_dec y x then Some rest
      else option_map (cons y) (remove_first x rest)
  end.

Definition NL : string := String PyStr.LF "".

(** [f"{x}"] for a value that is a string or [None]. *)
Definition fmt (o : option string) : string := get o "None".

(** [if x:] for a value that is a string or [None]. *)
Definition truthy (o : option string) : bool :=
  match o with
  | Some (String _ _) => true
  | _ => false
  end.

(** The line [mark_as_manually_handled] writes at time [t]. *)
Definition handled_line (t : Z) (customer_email : string) : string :=
  "[" ++ Datetime.strftime t ++ "] MANUAL_HANDLED | Customer: "
  ++ customer_email ++ NL.

(** The test [customer_email in line and "MANUAL_HANDLED" in line]. *)
Definition mentions (customer_email line : string) : bool :=
  PyStr.str_in customer_email line && PyStr.str_in "MANUAL_HANDLED" line.

(** Appending to a text file creates it when it is missing. *)
Definition append_text (file : option string) (text : string) : option string :=
  Some (get file "" ++ text).

Definition load_list {A} (store : option (list A)) : list A :=
  match store with Some l => l | None => [] end.

(** What [email.message] makes of a header value when it is assigned
    (standard library, [EmailPolicy.header_store_parse]): a value of more
    than one line, as [splitlines] counts them, raises [ValueError]. *)
Definition header_accepted (value : string) : bool :=
  (List.length (PyStr.splitlines value) <=? 1)%nat.

(** An address header goes through the address parser as well, which
    refuses a carriage return or a line feed in an address
    ([headerregistry.Address]).  What else the parser refuses (an unfinished
    quoted string, say) is left out: the senders in the queue are contacted
    addresses, of the shape [is_valid_email] accepts. *)
Definition address_accepted (value : string) : bool :=
  header_accepted value && PyStr.free_of PyStr.LF value
  && PyStr.free_of PyStr.CR value.

(** ** The engine *)

Section Engine.
Variable env : Env.
(** [datetime.strptime(_, '%Y-%m-%d %H:%M:%S')]; [None] is [ValueError]. *)
Variable strptime : string -> option Z.

Local Open Scope monad_scope.

(** [datetime.now()] *)
Definition datetime_now : M World Z :=
  fun w => (Ok (clock env (tick w)), set_tick (S (tick w)) w).

Definition log_reply_status (email status detail : string) : M World unit :=
  now <- datetime_now ;;
  modify (fun w =>
    set_reply_log
      (append_text (reply_log w)
         ("[" ++ Datetime.strftime now ++ "] " ++ status ++ " | Customer: "
          ++ email ++ " | " ++ detail ++ NL)) w).

Definition load_json_file {A} (file : World -> option (list A)) : M World (list A) :=
  gets (fun w => load_list (file w)).

Definition save_json_file {A} (write : option (list A) -> World -> World)
  (data : list A) : M World unit :=
  modify (write (Some data)).

(** The loop of [was_manually_handled] over the lines read. *)
Fixpoint scan_lines (customer_email : string) (cutoff : Z) (lines : list string)
  : result bool :=
  match lines with
  | [] => Ok false
  | line :: rest =>
      if mentions customer_email line then
        match nth_error (PyStr.split "[" line) 1 with
        | None => Raise IndexError
        | Some after_bracket =>
            let timestamp_str := hd "" (PyStr.split "]" after_bracket) in
            match strptime timestamp_str with
            | None => Raise ValueError
            | Some log_time =>
                if cutoff <? log_time then Ok true
                else scan_lines customer_email cutoff rest
            end
        end
      else scan_lines customer_email cutoff rest
  end.

(** A line on which the timestamp cannot be read: no opening bracket
    ([IndexError]) or a text that [strptime] refuses ([ValueError]). *)
Definition unreadable (line : string) : bool :=
  match nth_error (PyStr.split "[" line) 1 with
  | None => true
  | Some after_bracket =>
      match strptime (hd "" (PyStr.split "]" after_bracket)) with
      | None => true
      | Some _ => false
      end
  end.

(** The try block of [was_manually_handled], on a given file content and
    clock reading. *)
Definition handled_within (file : option string) (now : Z)
  (customer_email : string) (hours : Z) : result bool :=
  match file with
  | None => Raise FileNotFoundError
  | Some content =>
      let lines := PyStr.readlines content in
      let cutoff := now - Datetime.timedelta_hours hours in
      if cutoff <? 0 then Raise OverflowError
      else scan_lines customer_email cutoff lines
  end.

Definition was_manually_handled (customer_email : string) (hours : Z)
  : M World bool :=
  try_except
    (file <- gets notification_log ;;
     match file with
     | None => raise FileNotFoundError
     | Some _ =>
         now <- datetime_now ;;
         fun w => (handled_within file now customer_email hours, w)
     end)
    (fun _ => ret false).

Definition mark_as_manually_handled (customer_email : string) : M World unit :=
  now <- datetime_now ;;
  modify (fun w =>
    set_notification_log
      (append_text (notification_log w) (handled_line now customer_email)) w).

(** Lines 153 to 158 of [generate_ai_response]: what is returned for each
    yield of the try block. *)
Definition interpret (out : AgentOutput) : option string * option string :=
  match out with
  | AgentRaised error_text => (None, Some error_text)
  | AgentJson resp needs_human_flag =>
      if PyStr.str_in "NEEDS_HUMAN_INTERVENTION" resp then
        match nth_error (PyStr.split "NEEDS_HUMAN_INTERVENTION:" resp) 1 with
        | Some reason => (None, Some (PyStr.strip reason))
        | None => (None, Some "list index out of range")
        end
      else (Some resp, if needs_human_flag then Some "Complex query" else None)
  end.

(** The conversation history is computed by the source but passed to nobody;
    the product information only reaches the agent's instructions, which the
    oracle stands for. *)
Definition generate_ai_response (message name email : string)
  : M World (option string * option string) :=
  fun w =>
    let query := "Customer " ++ name ++ " asked: '" ++ message ++ "'." in
    (Ok (interpret (run_agent env (tick w) query)), set_tick (S (tick w)) w).

Definition smtp (mail : Mail) : M World bool :=
  fun w =>
    let ok := smtp_send env (tick w) mail in
    (Ok ok, set_smtp_trace (smtp_trace w ++ [(mail, ok)]) (set_tick (S (tick w)) w)).

(** The message is built inside the [try]: when the library refuses the
    Subject or the To header the function answers [False] and SMTP is never
    reached. *)
Definition send_email_response (to_email subject body : string) : M World bool :=
  let subject_header :=
    if String.prefix "Re:" subject then subject else "Re: " ++ subject in
  if header_accepted subject_header && address_accepted to_email
  then smtp (ResponseMail to_email subject_header body)
  else ret false.

(** The headers of the notification are the owner's own address and a
    Subject made of a fixed text and the name, the local part of the sender's
    address.  The queue is written by discovery, which stores contacted
    addresses only, and the campaign mails addresses made of letters,
    digits, dots, hyphens and underscores: the name holds no line boundary,
    and the library is taken to accept these headers. *)
Definition send_notification_to_user
  (email name subject body gmail_link : string) (reason : option string)
  : M World bool :=
  sent <- smtp (NotificationMail email name subject body gmail_link reason) ;;
  if sent then
    now <- datetime_now ;;
    modify (fun w =>
      set_notification_log
        (append_text (notification_log w)
           ("[" ++ Datetime.strftime now ++ "] NOTIFICATION_SENT | Customer: "
            ++ email ++ " | Reason: " ++ fmt reason ++ NL)) w) ;;
    ret true
  else ret false.

Definition log_conversation (email name msg : string) (response : option string)
  (needs_human_flag : bool) (reason : option string) : M World unit :=
  conversations <- load_json_file conversation_log ;;
  now <- datetime_now ;;
  save_json_file set_conversation_log
    (conversations
     ++ [mkConvEntry now email name msg response needs_human_flag reason]).

Definition add_stat (read : Stats -> nat) (write : nat -> Stats -> Stats)
  : M PassState unit :=
  modify (fun st => set_stats (write (read (stats st) + 1)%nat (stats st)) st).

Definition list_remove (reply : Reply) : M PassState unit :=
  fun st => match remove_first reply (replies st) with
            | Some l => (Ok tt, set_replies l st)
            | None => (Raise ValueError, st)
            end.

(** The body of the [for] loop of [process_customer_replies]. *)
Definition process_reply (reply : Reply) : M PassState unit :=
  let email := PyStr.lower (get (from_email reply) "") in
  let name := PyStr.title (hd "" (PyStr.split "@" email)) in
  let subject := get (subject reply) "No Subject" in
  let body := get (body reply) "" in
  let gmail_link := get (gmail_link reply) "" in
  handled <- lift (was_manually_handled email 24) ;;
  if handled then
    add_stat skipped_manual set_skipped_manual ;;
    lift (log_reply_status email "SKIPPED_MANUAL" "Handled within last 24 hours") ;;
    note reply SkippedManual
  else
    '(ai_response, reason) <- lift (generate_ai_response body name email) ;;
    if truthy ai_response then
      let html := "<html><body><p>Hi " ++ name ++ ",</p><p>" ++ fmt ai_response
                  ++ "</p><p>Regards,<br>Customer Service Team</p></body></html>" in
      sent <- lift (send_email_response email subject html) ;;
      if sent then
        lift (log_conversation email name body ai_response false None) ;;
        add_stat ai_responded set_ai_responded ;;
        lift (log_reply_status email "AI_RESPONDED" ("Subject: " ++ subject)) ;;
        list_remove reply ;;
        note reply AiResponded
      else note reply SendFailed
    else
      notified <- lift (send_notification_to_user email name subject body
                          gmail_link reason) ;;
      if notified then
        lift (mark_as_manually_handled email) ;;
        lift (log_conversation email name body None true reason) ;;
        add_stat escalated_to_human set_escalated_to_human ;;
        lift (log_reply_status email "ESCALATED" ("Reason: " ++ fmt reason)) ;;
        list_remove reply ;;
        note reply Escalated
      else
        add_stat failed set_failed ;;
        lift (log_reply_status email "NOTIFICATION_FAILED" (fmt reason)) ;;
        note reply NotificationFailed.

(** [for reply in replies[:]: ...] over the copy taken before the loop. *)
Fixpoint for_each_reply (copy : list Reply) : M PassState unit :=
  match copy with
  | [] => ret tt
  | reply :: rest => process_reply reply ;; for_each_reply rest
  end.

Definition zero_stats : Stats := mkStats 0 0 0 0.

(** The state in which the loop starts. *)
Definition start_pass (w : World) : PassState :=
  mkPassState w (load_list (replies_json w)) zero_stats [].

(** The loop of the pass, from the files [w]. *)
Definition run_loop (w : World) : result unit * PassState :=
  for_each_reply (load_list (replies_json w)) (start_pass w).

(** The pass: load the queue, visit every reply, save what is left; the
    counters printed at the end are returned. *)
Definition process_customer_replies : M World Stats :=
  fun w =>
    match run_loop w with
    | (Ok _, st) => (Ok (stats st), set_replies_json (Some (replies st)) (world st))
    | (Raise e, st) => (Raise e, world st)
    end.

End Engine.

(** ** One reply at a time: what the loop body consults and what it does *)

Section Steps.
Variable env : Env.
Variable strptime : string -> option Z.

(** The values the loop body computes from the reply. *)
Definition email_of (reply : Reply) : string :=
  PyStr.lower (get (from_email reply) "").
Definition name_of (reply : Reply) : string :=
  PyStr.title (hd "" (PyStr.split "@" (email_of reply))).
Definition subject_of (reply : Reply) : string := get (subject reply) "No Subject".
Definition body_of (reply : Reply) : string := get (body reply) "".
Definition link_of (reply : Reply) : string := get (gmail_link reply) "".

(** The answer of the suppression check for [reply] in state [st], and the
    files after it. *)
Definition suppressed (reply : Reply) (st : PassState) : bool :=
  match fst (was_manually_handled env strptime (email_of reply) 24 (world st)) with
  | Ok b => b
  | Raise _ => false
  end.
Definition after_check (reply : Reply) (st : PassState) : World :=
  snd (was_manually_handled env strptime (email_of reply) 24 (world st)).

(** What the agent yields for [reply], and what [generate_ai_response] makes
    of it. *)
Definition agent_output (reply : Reply) (st : PassState) : AgentOutput :=
  run_agent env (tick (after_check reply st))
    ("Customer " ++ name_of reply ++ " asked: '" ++ body_of reply ++ "'.").
Definition draft (reply : Reply) (st : PassState) : option string * option string :=
  interpret (agent_output reply st).

(** The message built for [reply] on either path. *)
Definition response_mail (reply : Reply) (st : PassState) : Mail :=
  ResponseMail (email_of reply)
    (if String.prefix "Re:" (subject_of reply) then subject_of reply
     else "Re: " ++ subject_of reply)
    ("<html><body><p>Hi " ++ name_of reply ++ ",</p><p>" ++ fmt (fst (draft reply st))
     ++ "</p><p>Regards,<br>Customer Service Team</p></body></html>").
Definition notification_mail (reply : Reply) (st : PassState) : Mail :=
  NotificationMail (email_of reply) (name_of reply) (subject_of reply)
    (body_of reply) (link_of reply) (snd (draft reply st)).
(** Whether the library takes the headers of a message: those of a response
    are checked, those of a notification are taken to pass. *)
Definition composed (mail : Mail) : bool :=
  match mail with
  | ResponseMail to_email subject_header _ =>
      header_accepted subject_header && address_accepted to_email
  | NotificationMail _ _ _ _ _ _ => true
  end.

(** Whether the response to [reply] can be built at all: it depends on the
    stored subject and sender only. *)
Definition sendable (reply : Reply) : bool :=
  header_accepted (if String.prefix "Re:" (subject_of reply) then subject_of reply
                   else "Re: " ++ subject_of reply)
  && address_accepted (email_of reply).

(** Whether the send function answers [True] for the message: it is built
    and SMTP takes it. *)
Definition delivered (mail : Mail) (reply : Reply) (st : PassState) : bool :=
  composed mail && smtp_send env (S (tick (after_check reply st))) mail.

(** What reaches SMTP of a message, with the answer [ok] of SMTP: nothing
    when the message cannot be built. *)
Definition handed_over (mail : Mail) (ok : bool) : list (Mail * bool) :=
  if composed mail then [(mail, ok)] else [].

(** The queue file, the conversation log and the manual-handling log are
    the same in two states of the files. *)
Definition same_stores (w w' : World) : Prop :=
  replies_json w' = replies_json w
  /\ conversation_log w' = conversation_log w
  /\ notification_log w' = notification_log w.

(** The five ways through the loop body, and the two in which the removal
    would not find the reply.  A response that is not delivered was either
    refused by SMTP or never built; only the first reaches the record of
    SMTP. *)
Inductive step (reply : Reply) (st : PassState) : result unit * PassState -> Prop :=
| step_skipped st' :
    suppressed reply st = true ->
    same_stores (world st) (world st') ->
    smtp_trace (world st') = smtp_trace (world st) ->
    replies st' = replies st ->
    stats st' = set_skipped_manual (skipped_manual (stats st) + 1) (stats st) ->
    outcomes st' = (outcomes st ++ [(reply, SkippedManual)])%list ->
    step reply st (Ok tt, st')
| step_responded st' left text now :
    suppressed reply st = false ->
    fst (draft reply st) = Some text ->
    truthy (Some text) = true ->
    delivered (response_mail reply st) reply st = true ->
    remove_first reply (replies st) = Some left ->
    replies_json (world st') = replies_json (world st) ->
    notification_log (world st') = notification_log (world st) ->
    conversation_log (world st')
    = Some (load_list (conversation_log (world st))
            ++ [mkConvEntry now (email_of reply) (name_of reply) (body_of reply)
                  (Some text) false None])%list ->
    smtp_trace (world st')
    = (smtp_trace (world st) ++ [(response_mail reply st, true)])%list ->
    replies st' = left ->
    stats st' = set_ai_responded (ai_responded (stats st) + 1) (stats st) ->
    outcomes st' = (outcomes st ++ [(reply, AiResponded)])%list ->
    step reply st (Ok tt, st')
| step_responded_absent st' :
    suppressed reply st = false ->
    truthy (fst (draft reply st)) = true ->
    delivered (response_mail reply st) reply st = true ->
    remove_first reply (replies st) = None ->
    step reply st (Raise ValueError, st')
| step_send_failed st' :
    suppressed reply st = false ->
    truthy (fst (draft reply st)) = true ->
    delivered (response_mail reply st) reply st = false ->
    same_stores (world st) (world st') ->
    reply_log (world st') = reply_log (world st) ->
    smtp_trace (world st')
    = (smtp_trace (world st) ++ handed_over (response_mail reply st) false)%list ->
    replies st' = replies st ->
    stats st' = stats st ->
    outcomes st' = (outcomes st ++ [(reply, SendFailed)])%list ->
    step reply st (Ok tt, st')
| step_escalated st' left sent_at marked_at now :
    suppressed reply st = false ->
    truthy (fst (draft reply st)) = false ->
    delivered (notification_mail reply st) reply st = true ->
    remove_first reply (replies st) = Some left ->
    replies_json (world st') = replies_json (world st) ->
    notification_log (world st')
    = Some ((get (notification_log (world st)) ""
             ++ "[" ++ Datetime.strftime sent_at ++ "] NOTIFICATION_SENT | Customer: "
             ++ email_of reply ++ " | Reason: " ++ fmt (snd (draft reply st)) ++ NL)
            ++ handled_line marked_at (email_of reply)) ->
    conversation_log (world st')
    = Some (load_list (conversation_log (world st))
            ++ [mkConvEntry now (email_of reply) (name_of reply) (body_of reply)
                  None true (snd (draft reply st))])%list ->
    smtp_trace (world st')
    = (smtp_trace (world st) ++ [(notification_mail reply st, true)])%list ->
    replies st' = left ->
    stats st' = set_escalated_to_human (escalated_to_human (stats st) + 1) (stats st) ->
    outcomes st' = (outcomes st ++ [(reply, Escalated)])%list ->
    step reply st (Ok tt, st')
| step_escalated_absent st' :
    suppressed reply st = false ->
    truthy (fst (draft reply st)) = false ->
    delivered (notification_mail reply st) reply st = true ->
    remove_first reply (replies st) = None ->
    step reply st (Raise ValueError, st')
| step_notification_failed st' :
    suppressed reply st = false ->
    truthy (fst (draft reply st)) = false ->
    delivered (notification_mail reply st) reply st = false ->
    same_stores (world st) (world st') ->
    smtp_trace (world st')
    = (smtp_trace (world st) ++ [(notification_mail reply st, false)])%list ->
    replies st' = replies st ->
    stats st' = set_failed (failed (stats st) + 1) (stats st) ->
    outcomes st' = (outcomes st ++ [(reply, NotificationFailed)])%list ->
    step reply st (Ok tt, st').

End Steps.

(** The replies a list of outcomes shows as resolved, in the order of the
    visit. *)
Definition resolved (os : list (Reply * Outcome)) : list Reply :=
  map fst (filter (fun ro => terminal (snd ro)) os).

(** [l] without the replies that occur in [gone]. *)
Definition without (gone l : list Reply) : list Reply :=
  filter (fun r => if in_dec Reply_eq_dec r gone then false else true) l.

(** [l1] is [l2] with some elements left out, the others in their order. *)
Inductive Subseq {A : Type} : list A -> list A -> Prop :=
| Subseq_nil : Subseq [] []
| Subseq_keep x l1 l2 : Subseq l1 l2 -> Subseq (x :: l1) (x :: l2)
| Subseq_drop x l1 l2 : Subseq l1 l2 -> Subseq l1 (x :: l2).

(** A conversation entry is about a reply: same recipient, same message. *)
Definition entry_of (reply : Reply) (e : ConvEntry) : Prop :=
  customer_email e = email_of reply /\ customer_message e = body_of reply.

Definition Outcome_eqb (a b : Outcome) : bool :=
  match a, b with
  | SkippedManual, SkippedManual
  | AiResponded, AiResponded
  | SendFailed, SendFailed
  | Escalated, Escalated
  | NotificationFailed, NotificationFailed => true
  | _, _ => false
  end.

(** How many of the replies visited were left in way [o]. *)
Definition tally (o : Outcome) (os : list (Reply * Outcome)) : nat :=
  List.length (filter (fun ro => Outcome_eqb (snd ro) o) os).

Definition count (l : list Reply) (x : Reply) : nat := count_occ Reply_eq_dec l x.

(** What holds of the state of a pass started on the files [w0] once the
    replies [seen] have been visited. *)
Record Inv (env : Env) (w0 : World) (seen : list Reply) (st : PassState) : Prop :=
  mkInv {
    inv_queue_file : replies_json (world st) = replies_json w0;
    inv_seen : map fst (outcomes st) = seen;
    inv_count : forall x,
      (count (replies st) x + count (resolved (outcomes st)) x
       = count (load_list (replies_json w0)) x)%nat;
    inv_order : Subseq (replies st) (load_list (replies_json w0));
    inv_entries : exists entries,
      load_list (conversation_log (world st))
      = (load_list (conversation_log w0) ++ entries)%list
      /\ Forall2 entry_of (resolved (outcomes st)) entries;
    inv_ai_responded : ai_responded (stats st) = tally AiResponded (outcomes st);
    inv_escalated : escalated_to_human (stats st) = tally Escalated (outcomes st);
    inv_skipped : skipped_manual (stats st) = tally SkippedManual (outcomes st);
    inv_failed : failed (stats st) = tally NotificationFailed (outcomes st);
    inv_transport :
      (forall n m, smtp_send env n m = true) ->
      Forall (fun ro => (snd ro = SendFailed -> sendable (fst ro) = false)
                        /\ snd ro <> NotificationFailed)
             (outcomes st)
  }.

(** ** The search predicate of reply discovery ([read_reply_tracker.py]) *)

Module Discovery.
Definition DQUOTE : string := String (ascii_of_nat 34) "".

(** [f'FROM "{a}"'] *)
Definition from_key (a : string) : string := "FROM " ++ DQUOTE ++ a ++ DQUOTE.

(** [build_or_query]: the text of the IMAP search key, or [None] for no
    address.  The two recursive results are formatted into the text as an
    f-string formats them. *)
Equations? build_or_query (emails : list string) : option string
  by wf (List.length emails) lt :=
  build_or_query [] := None;
  build_or_query [a] := Some (from_key a);
  build_or_query [a; b] := Some ("OR " ++ from_key a ++ " " ++ from_key b);
  build_or_query emails :=
    let mid := (List.length emails / 2)%nat in
    Some ("OR (" ++ fmt (build_or_query (firstn mid emails))
          ++ ") (" ++ fmt (build_or_query (skipn mid emails)) ++ ")").
Proof.
  all: assert (Hmid : mid = (List.length emails / 2)%nat) by reflexivity;
    clearbody mid;
    pose proof (Nat.div_mod_eq (List.length emails) 2);
    pose proof (Nat.mod_upper_bound (List.length emails) 2);
    rewrite ?length_firstn, ?length_skipn; subst emails;
    cbn [List.length] in *; lia.
Qed.

(** The shape the specification gives the predicate: a direct match for one
    address, a pairwise OR for two, and above that the OR of the predicates of
    the two halves. *)
Inductive OrTree : Type :=
| Direct (a : string)
| Pairwise (a b : string)
| Halves (left right : OrTree).

Fixpoint render (t : OrTree) : string :=
  match t with
  | Direct a => from_key a
  | Pairwise a b => "OR " ++ from_key a ++ " " ++ from_key b
  | Halves l r => "OR (" ++ render l ++ ") (" ++ render r ++ ")"
  end.

(** The tree the specification describes, built along its own cases; a half
    that had no predicate would leave its parent without one. *)
Equations? or_tree (emails : list string) : option OrTree
  by wf (List.length emails) lt :=
  or_tree [] := None;
  or_tree [a] := Some (Direct a);
  or_tree [a; b] := Some (Pairwise a b);
  or_tree emails :=
    let mid := (List.length emails / 2)%nat in
    match or_tree (firstn mid emails), or_tree (skipn mid emails) with
    | Some l, Some r => Some (Halves l r)
    | _, _ => None
    end.
Proof.
  all: assert (Hmid : mid = (List.length emails / 2)%nat) by reflexivity;
    clearbody mid;
    pose proof (Nat.div_mod_eq (List.length emails) 2);
    pose proof (Nat.mod_upper_bound (List.length emails) 2);
    rewrite ?length_firstn, ?length_skipn; subst emails;
    cbn [List.length] in *; lia.
Qed.

Record Message : Type := mkMessage { sender : string }.

(** Modelled from the spec: the evaluation of a predicate on a message, which
    the mail transport performs and the source does not contain (section 6:
    boolean OR composition and from-address matching).  A direct match holds
    when the sender is the address. *)
Fixpoint eval (t : OrTree) (m : Message) : bool :=
  match t with
  | Direct a => String.eqb a (sender m)
  | Pairwise a b => String.eqb a (sender m) || String.eqb b (sender m)
  | Halves l r => eval l m || eval r m
  end.

(** The messages of a set that a predicate selects; no predicate, no
    message. *)
Definition select (q : option OrTree) (inbox : list Message) : list Message :=
  match q with
  | Some t => filter (eval t) inbox
  | None => []
  end.

(** The sender of [m] is one of the addresses. *)
Definition is_member (emails : list string) (m : Message) : bool :=
  existsb (fun a => String.eqb a (sender m)) emails.

(** The messages of a set whose sender is one of the addresses. *)
Definition from_any (emails : list string) (inbox : list Message) : list Message :=
  filter (is_member emails) inbox.
End Discovery.

(** ** Sample environments and worlds, for the examples *)

Module Samples.
Definition empty_world : World := mkWorld 0 None None None None [].

(** The clock advances by one hour per reading; the agent times out; mail
    goes through. *)
Definition hourly_env : Env :=
  mkEnv (fun n => Datetime.sample_time + Z.of_nat n * Datetime.timedelta_hours 1)
        (fun _ _ => AgentRaised "timeout")
        (fun _ _ => true).

(** The second reading of the clock is one microsecond short of 24 hours
    after the first. *)
Definition late_env : Env :=
  mkEnv (fun n => match n with
                  | O => Datetime.sample_time
                  | _ => Datetime.sample_time + Datetime.timedelta_hours 24 - 1
                  end)
        (fun _ _ => AgentRaised "timeout")
        (fun _ _ => true).

(** A log whose only line names the recipient but carries no timestamp. *)
Definition corrupt_world : World :=
  mkWorld 0 None None (Some ("MANUAL_HANDLED a@x.com" ++ NL)) None [].

Definition first_reply : Reply :=
  mkReply (Some "a@x.com") (Some "Hello") (Some "How much is it?")
          (Some "2024-01-15T10:00:00.000000") (Some "").
Definition second_reply : Reply :=
  mkReply (Some "a@x.com") (Some "Re: Hello") (Some "And when?")
          (Some "2024-01-15T10:05:00.000000") (Some "").

Definition one_reply_world : World :=
  mkWorld 0 (Some [first_reply]) None None None [].
Definition two_replies_world : World :=
  mkWorld 0 (Some [first_reply; second_reply]) None None None [].

(** The agent drafts an answer; SMTP refuses every message. *)
Definition refusing_env : Env :=
  mkEnv (fun n => Datetime.sample_time + Z.of_nat n * Datetime.timedelta_hours 1)
        (fun _ _ => AgentJson "It is 20 euros." false)
        (fun _ _ => false).

(** The agent drafts an answer; mail goes through. *)
Definition answering_env : Env :=
  mkEnv (fun n => Datetime.sample_time + Z.of_nat n * Datetime.timedelta_hours 1)
        (fun _ _ => AgentJson "It is 20 euros." false)
        (fun _ _ => true).

(** The agent drafts an answer; SMTP refuses the first two messages and
    takes the later ones. *)
Definition recovering_env : Env :=
  mkEnv (fun n => Datetime.sample_time + Z.of_nat n * Datetime.timedelta_hours 1)
        (fun _ _ => AgentJson "It is 20 euros." false)
        (fun n _ => (5 <=? n)%nat).

(** A queue in which the same reply object occurs twice. *)
Definition repeated_reply_world : World :=
  mkWorld 0 (Some [first_reply; second_reply; first_reply]) None None None [].

(** The agent times out; SMTP refuses every message. *)
Definition down_env : Env :=
  mkEnv (fun n => Datetime.sample_time + Z.of_nat n * Datetime.timedelta_hours 1)
        (fun _ _ => AgentRaised "timeout")
        (fun _ _ => false).

(** The agent times out; SMTP refuses the first message and takes the later
    ones. *)
Definition flaky_env : Env :=
  mkEnv (fun n => Datetime.sample_time + Z.of_nat n * Datetime.timedelta_hours 1)
        (fun _ _ => AgentRaised "timeout")
        (fun n _ => (2 <=? n)%nat).


(** A reply whose Subject header was folded over two lines, as discovery
    stores it. *)
Definition folded_reply : Reply :=
  mkReply (Some "a@x.com")
          (Some ("Hello" ++ String PyStr.CR (String PyStr.LF " there")))
          (Some "How much is it?") (Some "2024-01-15T10:00:00.000000") (Some "").
Definition folded_world : World :=
  mkWorld 0 (Some [folded_reply]) None None None [].

(** A log with an entry of 10:30:00 followed by a line that names the
    recipient but carries no timestamp. *)
Definition half_corrupt_world : World :=
  mkWorld 0 None None
    (Some (handled_line Datetime.sample_time "a@x.com"
           ++ "MANUAL_HANDLED a@x.com" ++ NL))
    None [].


End Samples.

(** * Further parts of the code *)

(** ** More of [responder_agent.py] *)

Section History.
Local Open Scope monad_scope.

(** [l[-n:]] *)
Definition lastn {A} (n : nat) (l : list A) : list A :=
  skipn (List.length l - n) l.

(** One line of the history text. *)
Definition history_line (c : ConvEntry) : string :=
  "Previous: " ++ customer_message c ++ " | Response: " ++ fmt (ai_response c).

Definition get_conversation_history (email : string) : M World string :=
  conversations <- load_json_file conversation_log ;;
  let history :=
    filter (fun c => String.eqb (customer_email c) email) conversations in
  ret (match history with
       | [] => "No previous conversation history."
       | _ :: _ => String.concat NL (map history_line (lastn 3 history))
       end).

End History.

(** The messages of a trace that SMTP accepted. *)
Definition accepted (trace : list (Mail * bool)) : list (Mail * bool) :=
  filter (fun entry => snd entry) trace.

(** How many of the replies visited had a response that could not be
    built, so that nothing reached SMTP for them. *)
Definition unbuilt (os : list (Reply * Outcome)) : nat :=
  List.length
    (filter (fun ro => Outcome_eqb (snd ro) SendFailed && negb (sendable (fst ro))) os).

(** The state of the trace during a pass started on [w0]. *)
Definition trace_grows (w0 : World) (st : PassState) : Prop :=
  exists new,
    smtp_trace (world st) = (smtp_trace w0 ++ new)%list
    /\ (List.length new + tally SkippedManual (outcomes st) + unbuilt (outcomes st)
        = List.length (outcomes st))%nat
    /\ (List.length (accepted new)
        = tally AiResponded (outcomes st) + tally Escalated (outcomes st))%nat.

(** The state of the manual-handling log during a pass started on [w0]. *)
Definition log_grows (w0 : World) (st : PassState) : Prop :=
  (tally Escalated (outcomes st) = 0%nat ->
   notification_log (world st) = notification_log w0)
  /\ (notification_log (world st) = notification_log w0
      \/ exists suffix,
           notification_log (world st)
           = Some (get (notification_log w0) "" ++ suffix)).


(** ** More on the search predicate *)

(** The addresses of a tree, left to right. *)
Fixpoint addresses (t : Discovery.OrTree) : list string :=
  match t with
  | Discovery.Direct a => [a]
  | Discovery.Pairwise a b => [a; b]
  | Discovery.Halves l r => (addresses l ++ addresses r)%list
  end.

(** The number of nested ORs. *)
Fixpoint or_depth (t : Discovery.OrTree) : nat :=
  match t with
  | Discovery.Direct _ => 0
  | Discovery.Pairwise _ _ => 1
  | Discovery.Halves l r => S (Nat.max (or_depth l) (or_depth r))
  end.

(** ** The send ledger: [log_result] ([send_email_agent.py]) and
    [load_sent_emails] ([read_reply_tracker.py]) *)

(** [s.upper()], ASCII. *)
Fixpoint upper (s : string) : string :=
  match s with
  | EmptyString => EmptyString
  | String c rest => String (PyStr.to_upper c) (upper rest)
  end.

(** The files of the engine together with the send ledger
    [logs/email_logs.txt]: the sender writes it under the working directory
    and the tracker reads it beside its own file, which is one place when the
    service runs from the directory of the scripts, as its imports require. *)
Record Site : Type := mkSite {
  files : World;
  email_logs : option string
}.

Definition set_files (w : World) (s : Site) : Site := mkSite w (email_logs s).
Definition set_email_logs (v : option string) (s : Site) : Site :=
  mkSite (files s) v.

(** Run a computation on the engine's files from the site. *)
Definition on_files {A} (m : M World A) : M Site A :=
  fun s => match m (files s) with (r, w') => (r, set_files w' s) end.

(** [if x:] for a string. *)
Definition nonempty (s : string) : bool :=
  match s with EmptyString => false | String _ _ => true end.

(** The line [log_result] writes, without its line feed. *)
Definition ledger_entry (time : Z) (status name email reason subject : string)
  : string :=
  let entry := "[" ++ Datetime.strftime time ++ "] " ++ upper status
               ++ " | Name: " ++ name ++ " | Email: " ++ email in
  let entry := if nonempty reason then entry ++ " | Reason: " ++ reason else entry in
  if nonempty subject && String.eqb (PyStr.lower status) "sent"
  then entry ++ " | Subject: " ++ subject else entry.

Section Ledger.
Variable env : Env.
Local Open Scope monad_scope.

Definition log_result (status name email reason subject : string) : M Site unit :=
  time <- on_files (datetime_now env) ;;
  modify (fun s =>
    set_email_logs
      (append_text (email_logs s)
         (ledger_entry time status name email reason subject ++ NL)) s).

End Ledger.

(** [s.add(x)] on a set kept as a list without repetition. *)
Definition set_insert (x : string) (s : list string) : list string :=
  if in_dec string_dec x s then s else (s ++ [x])%list.

(** The address [load_sent_emails] takes from a line, if any: the [try]
    cannot fail once ["Email:"] is in the line. *)
Definition ledger_address (line : string) : option string :=
  if PyStr.str_in "SENT |" line && PyStr.str_in "Email:" line then
    match nth_error (PyStr.split "Email:" line) 1 with
    | Some after_label =>
        Some (PyStr.lower (PyStr.strip (hd "" (PyStr.split "|" after_label))))
    | None => None
    end
  else None.

(** One turn of the loop of [load_sent_emails]. *)
Definition ledger_step (sent_emails : list string) (line : string) : list string :=
  match ledger_address line with
  | Some email_addr => set_insert email_addr sent_emails
  | None => sent_emails
  end.

(** [load_sent_emails]: the set of addresses of the lines of the ledger that
    record a send; empty when the ledger does not exist. *)
Definition load_sent_emails (ledger : option string) : list string :=
  match ledger with
  | None => []
  | Some content => fold_left ledger_step (PyStr.readlines content) []
  end.

(** No occurrence of [sep] starts inside [a] when [a] is followed by
    [rest]. *)
Fixpoint no_hit (sep a rest : string) : bool :=
  match a with
  | EmptyString => true
  | String _ a' => negb (String.prefix sep (a ++ rest)) && no_hit sep a' rest
  end.

(** ** Address validation: [is_valid_email] ([send_email_agent.py]) *)

Module Regex.

(** The operators of the pattern of [is_valid_email], over characters. *)
Inductive regex : Type :=
| Void
| Eps
| Cls (p : ascii -> bool)
| Cat (r s : regex)
| Alt (r s : regex)
| Star (r : regex).

(** [r+] *)
Definition Plus (r : regex) : regex := Cat r (Star r).

Fixpoint nullable (r : regex) : bool :=
  match r with
  | Void => false
  | Eps => true
  | Cls _ => false
  | Cat r s => nullable r && nullable s
  | Alt r s => nullable r || nullable s
  | Star _ => true
  end.

(** What is left of [r] after reading [c]. *)
Fixpoint deriv (c : ascii) (r : regex) : regex :=
  match r with
  | Void => Void
  | Eps => Void
  | Cls p => if p c then Eps else Void
  | Cat r s =>
      if nullable r then Alt (Cat (deriv c r) s) (deriv c s)
      else Cat (deriv c r) s
  | Alt r s => Alt (deriv c r) (deriv c s)
  | Star r => Cat (deriv c r) (Star r)
  end.

(** The whole of [s] matches [r]. *)
Fixpoint fullmatch (r : regex) (s : string) : bool :=
  match s with
  | EmptyString => nullable r
  | String c rest => fullmatch (deriv c r) rest
  end.

(** The texts a pattern denotes. *)
Inductive lang : regex -> string -> Prop :=
| lang_eps : lang Eps ""
| lang_cls p c : p c = true -> lang (Cls p) (String c "")
| lang_cat r s x y : lang r x -> lang s y -> lang (Cat r s) (x ++ y)
| lang_alt_l r s x : lang r x -> lang (Alt r s) x
| lang_alt_r r s x : lang s x -> lang (Alt r s) x
| lang_star_nil r : lang (Star r) ""
| lang_star_cons r x y : lang r x -> lang (Star r) y -> lang (Star r) (x ++ y).

End Regex.

Definition is_digit (c : ascii) : bool :=
  let n := nat_of_ascii c in ((48 <=? n) && (n <=? 57))%nat.

(** [\w] on ASCII text: a letter, a digit or the underscore.  (On text
    outside ASCII [\w] also takes the letters and digits of other scripts;
    the statements about validity below are for ASCII text.) *)
Definition is_word (c : ascii) : bool :=
  PyStr.is_upper c || PyStr.is_lower c || is_digit c || Ascii.eqb c "_".

(** [[\w\.-]] *)
Definition is_local (c : ascii) : bool :=
  is_word c || Ascii.eqb c "." || Ascii.eqb c "-".

(** [[\w\.-]+@[\w\.-]+\.\w+] *)
Definition email_pattern : Regex.regex :=
  Regex.Cat (Regex.Plus (Regex.Cls is_local))
    (Regex.Cat (Regex.Cls (Ascii.eqb "@"))
       (Regex.Cat (Regex.Plus (Regex.Cls is_local))
          (Regex.Cat (Regex.Cls (Ascii.eqb "."))
             (Regex.Plus (Regex.Cls is_word))))).

(** [s] without its last character when that is a line feed. *)
Fixpoint chomp (s : string) : option string :=
  match s with
  | EmptyString => None
  | String c EmptyString => if Ascii.eqb c PyStr.LF then Some "" else None
  | String c rest => option_map (String c) (chomp rest)
  end.

(** [re.match(r'^...$', email) is not None]: the pattern is anchored at the
    start, and [$] holds at the end of the text and just before a line feed
    that ends it. *)
Definition is_valid_email (email : string) : bool :=
  Regex.fullmatch email_pattern email
  || match chomp email with
     | Some before => Regex.fullmatch email_pattern before
     | None => false
     end.

(** Every character of [s] passes [p]. *)
Fixpoint all_chars (p : ascii -> bool) (s : string) : bool :=
  match s with
  | EmptyString => true
  | String c rest => p c && all_chars p rest
  end.

Definition ascii_text (s : string) : bool :=
  all_chars (fun c => (nat_of_ascii c <? 128)%nat) s.

(** The shape of an address: a non-empty run of [[\w.-]], an [@], another
    such run, a dot and a non-empty run of [\w]. *)
Definition address_shape (s : string) : Prop :=
  exists l d t,
    s = l ++ "@" ++ d ++ "." ++ t
    /\ l <> "" /\ d <> "" /\ t <> ""
    /\ all_chars is_local l = true /\ all_chars is_local d = true
    /\ all_chars is_word t = true.

(** The text starts with white space. *)
Definition hd_space (s : string) : bool :=
  match s with
  | EmptyString => false
  | String c _ => PyStr.is_space c
  end.

(** ** The campaign: [send_email_agent.py] *)

(** A row as [csv.DictReader] yields it: the value of a column is [None]
    when the header lacks the column or the row is too short. *)
Record CsvRow : Type := mkCsvRow {
  row_name : option string;
  row_email : option string
}.

Record Recipient : Type := mkRecipient {
  r_name : string;
  r_email : string
}.

(** The body of the loop of [load_recipients_from_csv]; [v or ''] is
    [get v ""]. *)
Definition load_recipient (row : CsvRow) : list Recipient :=
  let name :=
    let stripped := PyStr.strip (get (row_name row) "") in
    if nonempty stripped then stripped else "there" in
  let email := PyStr.strip (get (row_email row) "") in
  if nonempty email then [mkRecipient name email] else [].

(** [load_recipients_from_csv] on the rows the reader yields: none when the
    file cannot be opened, those before the failure when reading fails. *)
Definition load_recipients_from_csv (rows : list CsvRow) : list Recipient :=
  flat_map load_recipient rows.

(** A message handed to [send_email]. *)
Record OutMail : Type := mkOutMail {
  mail_to : string;
  mail_subject : string;
  mail_body : string;
  mail_from_name : string
}.

(** What a call of [run_email_agent] comes to: an exception (from
    [Runner.run] or from reading its output), with its text, or the subject
    and body it returns. *)
Inductive Generated : Type :=
| GenRaised (error_text : string)
| GenEmail (subject body : string).

(** The oracles of the campaign, asked with the current call counter;
    [send_email] answers [None] when the message went through and the text
    of the exception otherwise. *)
Record Sender : Type := mkSender {
  run_email_agent : nat -> string -> string -> string -> string -> Generated;
  send_email : nat -> OutMail -> option string
}.

(** The site, the record of what [send_email] was given, with what came of
    it, and the record of the summaries [send_notification_email] was asked
    to send. *)
Record Office : Type := mkOffice {
  site : Site;
  outbox : list (OutMail * bool);
  notices : list (list Reply * bool)
}.

Definition set_site (s : Site) (o : Office) : Office :=
  mkOffice s (outbox o) (notices o).
Definition set_outbox (v : list (OutMail * bool)) (o : Office) : Office :=
  mkOffice (site o) v (notices o).
Definition set_notices (v : list (list Reply * bool)) (o : Office) : Office :=
  mkOffice (site o) (outbox o) v.

Definition on_site {A} (m : M Site A) : M Office A :=
  fun o => match m (site o) with (r, s') => (r, set_site s' o) end.

Definition tick_of (o : Office) : nat := tick (files (site o)).
Definition next_tick (o : Office) : Office :=
  set_site (set_files (set_tick (S (tick_of o)) (files (site o))) (site o)) o.

(** The messages of the outbox that went through, and their addresses. *)
Definition delivered_mail (trace : list (OutMail * bool)) : list OutMail :=
  map fst (filter (fun entry => snd entry) trace).
Definition refused_mail (trace : list (OutMail * bool)) : list OutMail :=
  map fst (filter (fun entry => negb (snd entry)) trace).

(** [c * n] *)
Fixpoint repeat_char (c : ascii) (n : nat) : string :=
  match n with
  | O => EmptyString
  | S k => String c (repeat_char c k)
  end.

Definition pad6 (n : Z) : string :=
  String (Datetime.digit (n / 100000))
    (String (Datetime.digit (n / 10000)) (Datetime.pad4 n)).

(** [str(t)] for a datetime: the microseconds are printed unless they are
    zero. *)
Definition str_datetime (t : Z) : string :=
  let us := t mod Datetime.US_PER_SECOND in
  Datetime.strftime t ++ (if us =? 0 then "" else "." ++ pad6 us).

Module Campaign.

Record Stats : Type := mkStats {
  sent : nat;
  skipped : nat;
  failed : nat;
  ai_generation_failed : nat
}.

Definition set_sent (n : nat) (s : Stats) : Stats :=
  mkStats n (skipped s) (failed s) (ai_generation_failed s).
Definition set_skipped (n : nat) (s : Stats) : Stats :=
  mkStats (sent s) n (failed s) (ai_generation_failed s).
Definition set_failed (n : nat) (s : Stats) : Stats :=
  mkStats (sent s) (skipped s) n (ai_generation_failed s).
Definition set_ai_generation_failed (n : nat) (s : Stats) : Stats :=
  mkStats (sent s) (skipped s) (failed s) n.

(** The state of one run of [main]: the office and the local variables
    [sent_emails] and [stats]. *)
Record Run : Type := mkRun {
  office : Office;
  sent_emails : list string;
  stats : Stats
}.

Definition set_office (o : Office) (r : Run) : Run :=
  mkRun o (sent_emails r) (stats r).
Definition set_sent_emails (v : list string) (r : Run) : Run :=
  mkRun (office r) v (stats r).
Definition set_stats (s : Stats) (r : Run) : Run :=
  mkRun (office r) (sent_emails r) s.

Definition on_office {A} (m : M Office A) : M Run A :=
  fun r => match m (office r) with (x, o') => (x, set_office o' r) end.

Definition zero_stats : Stats := mkStats 0 0 0 0.

(** The state in which the loop starts. *)
Definition start (o : Office) : Run := mkRun o [] zero_stats.

Section Main.
Variable env : Env.
Variable sender : Sender.
(** [offer] and [product_description] as [main] reads them from
    [product_info.json] or the environment; [from_name] is the parameter of
    [main], or the configured sender name when that is empty. *)
Variable offer product_description from_name : string.

Local Open Scope monad_scope.

Definition generate (name : string) : M Office Generated :=
  fun o =>
    (Ok (run_email_agent sender (tick_of o) name offer product_description from_name),
     next_tick o).

Definition deliver (mail : OutMail) : M Office (option string) :=
  fun o =>
    let outcome := send_email sender (tick_of o) mail in
    (Ok outcome,
     set_outbox
       (outbox o ++ [(mail, match outcome with None => true | Some _ => false end)])
       (next_tick o)).

Definition log (status name email reason subject : string) : M Run unit :=
  on_office (on_site (log_result env status name email reason subject)).

Definition add_stat (read : Stats -> nat) (write : nat -> Stats -> Stats)
  : M Run unit :=
  modify (fun r => set_stats (write (read (stats r) + 1)%nat (stats r)) r).

(** The body of the [for] loop of [main] ([DRY_RUN] is [False]); writing
    the ledger succeeds. *)
Definition visit (r : Recipient) : M Run unit :=
  let name := r_name r in
  let email := r_email r in
  if negb (is_valid_email email) then
    log "skipped" name email "Invalid email format" "" ;;
    add_stat skipped set_skipped
  else
    seen <- gets sent_emails ;;
    if in_dec string_dec email seen then
      log "skipped" name email "Duplicate email" "" ;;
      add_stat skipped set_skipped
    else
      generated <- on_office (generate name) ;;
      match generated with
      | GenRaised error_text =>
          log "ai_failed" name email error_text "" ;;
          add_stat ai_generation_failed set_ai_generation_failed
      | GenEmail subject body =>
          outcome <- on_office (deliver (mkOutMail email subject body from_name)) ;;
          match outcome with
          | None =>
              log "sent" name email "Email sent" subject ;;
              add_stat sent set_sent ;;
              modify (fun r => set_sent_emails (set_insert email (sent_emails r)) r)
          | Some error_text =>
              log "failed" name email ("Send error: " ++ error_text) "" ;;
              add_stat failed set_failed
          end
      end.

Fixpoint for_each_recipient (recipients : list Recipient) : M Run unit :=
  match recipients with
  | [] => ret tt
  | r :: rest => visit r ;; for_each_recipient rest
  end.

(** The header [main] writes to the ledger before the loop. *)
Definition banner (now : Z) : string :=
  NL ++ repeat_char "=" 80 ++ NL ++ "Email Campaign Started: " ++ str_datetime now
  ++ NL ++ repeat_char "=" 80 ++ NL.

Definition open_ledger : M Office unit :=
  now <- on_site (on_files (datetime_now env)) ;;
  modify (fun o =>
    set_site (set_email_logs (append_text (email_logs (site o)) (banner now))
                (site o)) o).

(** [main] from the loading of the recipients to the end of its loop, with
    the locals it ends with, in an office whose [./logs] directory exists and
    with the offer and the description [main] has read before: nothing is
    written when no recipient was loaded.  What [main] does before, and what
    it does when the directory is missing, is in [main] below. *)
Definition campaign (rows : list CsvRow) (o : Office) : result unit * Run :=
  match load_recipients_from_csv rows with
  | [] => (Ok tt, start o)
  | recipients =>
      match open_ledger o with
      | (Ok _, o') => for_each_recipient recipients (start o')
      | (Raise e, o') => (Raise e, start o')
      end
  end.

End Main.

(** What [main] finds at [Data/product_info.json]: no file, a file that
    cannot be read as a JSON object (with the exception that [json.load] or
    the reading of a key raises), or an object with its [offer] and its
    [description], each [None] when the key is absent. *)
Inductive ProductFile : Type :=
| NoProductFile
| BadProductFile (e : exn)
| ProductInfo (offer description : option string).

(** The office, whether the directory [./logs] exists, and the product
    file. *)
Record Host : Type := mkHost {
  host_office : Office;
  logs_dir : bool;
  product_info : ProductFile
}.

Definition set_host_office (o : Office) (h : Host) : Host :=
  mkHost o (logs_dir h) (product_info h).
Definition set_product_info (p : ProductFile) (h : Host) : Host :=
  mkHost (host_office h) (logs_dir h) p.

Section Runner.
Variable env : Env.
Variable sender : Sender.
(** [default_offer] and [default_description] are what the environment
    gives for [EMAIL_OFFER] and [EMAIL_PRODUCT_DESC]; [from_name] is the
    parameter of [main], or the configured sender name when that is empty. *)
Variable default_offer default_description from_name : string.

Local Open Scope monad_scope.

(** The [try] at the head of [main]: only [FileNotFoundError] is caught, and
    then the file is created with the defaults; any other exception leaves
    [main]. *)
Definition read_product_info : M Host (string * string) :=
  fun h =>
    match product_info h with
    | ProductInfo offer description =>
        (Ok (get offer default_offer, get description default_description), h)
    | NoProductFile =>
        (Ok (default_offer, default_description),
         set_product_info
           (ProductInfo (Some default_offer) (Some default_description)) h)
    | BadProductFile e => (Raise e, h)
    end.

(** [main]: the ledger is opened for appending without its directory being
    created, which raises [FileNotFoundError] when [./logs] is missing. *)
Definition main (rows : list CsvRow) : M Host unit :=
  ' (offer, product_description) <- read_product_info ;;
  match load_recipients_from_csv rows with
  | [] => ret tt
  | _ :: _ =>
      fun h =>
        if logs_dir h then
          match campaign env sender offer product_description from_name rows
                  (host_office h) with
          | (r, run) => (r, set_host_office (office run) h)
          end
        else (Raise FileNotFoundError, h)
  end.

(** [clear_logs]: the directory [./logs] is created if need be and the four
    log files are emptied (the writes succeed); an empty
    [conversation_log.json] no longer decodes.  The queue of replies is not
    among them. *)
Definition clear_logs : M Host unit :=
  modify (fun h =>
    mkHost
      (set_site
         (mkSite
            (set_reply_log (Some "")
               (set_conversation_log None
                  (set_notification_log (Some "") (files (site (host_office h))))))
            (Some ""))
         (host_office h))
      true (product_info h)).

Definition main_runner (rows : list CsvRow) : M Host unit :=
  clear_logs ;; main rows.

End Runner.
End Campaign.

(** *** One recipient at a time *)

Section Visits.
Import Campaign.
Variable env : Env.
Variable sender : Sender.
Variable offer product_description from_name : string.

Definition ledger_of (run : Run) : option string := email_logs (site (office run)).

(** The ledger gains the line of [log_result], stamped with the [k]-th
    reading of the counter after the turn began. *)
Definition logs (k : nat) (status reason subject : string) (r : Recipient)
  (run run' : Run) : Prop :=
  ledger_of run'
  = append_text (ledger_of run)
      (ledger_entry (clock env (k + tick_of (office run))) status
         (r_name r) (r_email r) reason subject ++ NL).

(** What one turn of the loop of [main] consults and does. *)
Inductive visited (r : Recipient) (run run' : Run) : Prop :=
| visit_invalid :
    is_valid_email (r_email r) = false ->
    logs 0 "skipped" "Invalid email format" "" r run run' ->
    outbox (office run') = outbox (office run) ->
    sent_emails run' = sent_emails run ->
    stats run' = set_skipped (skipped (stats run) + 1) (stats run) ->
    same_stores (files (site (office run))) (files (site (office run'))) ->
    visited r run run'
| visit_duplicate :
    is_valid_email (r_email r) = true ->
    In (r_email r) (sent_emails run) ->
    logs 0 "skipped" "Duplicate email" "" r run run' ->
    outbox (office run') = outbox (office run) ->
    sent_emails run' = sent_emails run ->
    stats run' = set_skipped (skipped (stats run) + 1) (stats run) ->
    same_stores (files (site (office run))) (files (site (office run'))) ->
    visited r run run'
| visit_ai_failed error_text :
    is_valid_email (r_email r) = true ->
    ~ In (r_email r) (sent_emails run) ->
    run_email_agent sender (tick_of (office run)) (r_name r) offer
      product_description from_name = GenRaised error_text ->
    logs 1 "ai_failed" error_text "" r run run' ->
    outbox (office run') = outbox (office run) ->
    sent_emails run' = sent_emails run ->
    stats run'
    = set_ai_generation_failed (ai_generation_failed (stats run) + 1) (stats run) ->
    same_stores (files (site (office run))) (files (site (office run'))) ->
    visited r run run'
| visit_sent subject body :
    is_valid_email (r_email r) = true ->
    ~ In (r_email r) (sent_emails run) ->
    run_email_agent sender (tick_of (office run)) (r_name r) offer
      product_description from_name = GenEmail subject body ->
    send_email sender (S (tick_of (office run)))
      (mkOutMail (r_email r) subject body from_name) = None ->
    logs 2 "sent" "Email sent" subject r run run' ->
    outbox (office run')
    = (outbox (office run)
       ++ [(mkOutMail (r_email r) subject body from_name, true)])%list ->
    sent_emails run' = set_insert (r_email r) (sent_emails run) ->
    stats run' = set_sent (sent (stats run) + 1) (stats run) ->
    same_stores (files (site (office run))) (files (site (office run'))) ->
    visited r run run'
| visit_send_failed subject body error_text :
    is_valid_email (r_email r) = true ->
    ~ In (r_email r) (sent_emails run) ->
    run_email_agent sender (tick_of (office run)) (r_name r) offer
      product_description from_name = GenEmail subject body ->
    send_email sender (S (tick_of (office run)))
      (mkOutMail (r_email r) subject body from_name) = Some error_text ->
    logs 2 "failed" ("Send error: " ++ error_text) "" r run run' ->
    outbox (office run')
    = (outbox (office run)
       ++ [(mkOutMail (r_email r) subject body from_name, false)])%list ->
    sent_emails run' = sent_emails run ->
    stats run' = set_failed (failed (stats run) + 1) (stats run) ->
    same_stores (files (site (office run))) (files (site (office run'))) ->
    visited r run run'.

(** The books of a campaign started in office [o0], after the recipients
    [done]. *)
Definition books (o0 : Office) (done : list Recipient) (run : Run) : Prop :=
  exists new,
    outbox (office run) = (outbox o0 ++ new)%list
    /\ sent (stats run) = List.length (delivered_mail new)
    /\ failed (stats run) = List.length (refused_mail new)
    /\ (sent (stats run) + skipped (stats run) + failed (stats run)
        + ai_generation_failed (stats run) = List.length done)%nat
    /\ NoDup (map mail_to (delivered_mail new))
    /\ (forall m, In m (delivered_mail new) -> In (mail_to m) (sent_emails run))
    /\ (forall m ok, In (m, ok) new ->
          is_valid_email (mail_to m) = true
          /\ In (mail_to m) (map r_email done)
          /\ mail_from_name m = from_name).

(** The ledger of a campaign started in office [o0]: it ends at a line
    boundary and accounts for every message that went through. *)
Definition posted (o0 : Office) (run : Run) : Prop :=
  PyStr.line_terminated (get (ledger_of run) "") = true
  /\ exists new,
       outbox (office run) = (outbox o0 ++ new)%list
       /\ forall m, In m (delivered_mail new) ->
            In (PyStr.lower (mail_to m)) (load_sent_emails (ledger_of run)).

End Visits.

(** ** Discovery: [find_and_save_replies] ([read_reply_tracker.py]) *)

(** [t.isoformat()]: the microseconds are printed unless they are zero. *)
Definition isoformat (t : Z) : string :=
  let secs := t / Datetime.US_PER_SECOND in
  let '(y, m, d) := Datetime.ord2ymd (secs / Datetime.SECONDS_PER_DAY + 1) in
  let sod := secs mod Datetime.SECONDS_PER_DAY in
  let us := t mod Datetime.US_PER_SECOND in
  Datetime.pad4 y ++ "-" ++ Datetime.pad2 m ++ "-" ++ Datetime.pad2 d ++ "T"
  ++ Datetime.pad2 (sod / 3600) ++ ":" ++ Datetime.pad2 (sod mod 3600 / 60) ++ ":"
  ++ Datetime.pad2 (sod mod 60) ++ (if us =? 0 then "" else "." ++ pad6 us).

(** What the loop of [find_and_save_replies] learns of one message:
    [msg_from] is the address [parseaddr] finds in the From header, [None]
    when fetching or parsing the message raises; [msg_in_reply_to] is whether
    the In-Reply-To header is present and not empty; [msg_link] is what
    [get_gmail_link] returns; [msg_subject] is the decoded subject, [None]
    when [decode_subject] raises; [msg_body] is what [get_email_body]
    returns. *)
Record Message : Type := mkMessage {
  msg_from : option string;
  msg_in_reply_to : bool;
  msg_link : string;
  msg_subject : option string;
  msg_body : string
}.

(** What [imap.search] comes to: an exception, a status other than OK, or
    the message ids. *)
Inductive SearchResult : Type :=
| SearchRaised
| SearchNotOk
| SearchOk (email_ids : list nat).

(** The mail server at the time of a run: [connects] is whether
    [connect_imap] and [imap.select] return; [notifies] is whether the
    summary goes through SMTP. *)
Record Mailbox : Type := mkMailbox {
  connects : bool;
  search : string -> SearchResult;
  fetch : nat -> Message;
  notifies : list Reply -> bool
}.

Section Inbox.
Variable env : Env.
Variable mailbox : Mailbox.
Local Open Scope monad_scope.

(** The body of the loop over the message ids: the replies the message adds
    to the list, none or one.  An exception raised by [imap.store] after the
    reply was appended is caught like the others and changes nothing here. *)
Definition read_message (contacted_emails : list string) (eid : nat)
  : M Office (list Reply) :=
  let msg := fetch mailbox eid in
  match msg_from msg with
  | None => ret []
  | Some addr =>
      let from_email := PyStr.lower addr in
      if in_dec string_dec from_email contacted_emails then
        if msg_in_reply_to msg then
          match msg_subject msg with
          | None => ret []
          | Some subject =>
              now <- on_site (on_files (datetime_now env)) ;;
              ret [mkReply (Some from_email) (Some subject) (Some (msg_body msg))
                     (Some (isoformat now)) (Some (msg_link msg))]
          end
        else ret []
      else ret []
  end.

Fixpoint read_messages (contacted_emails : list string) (email_ids : list nat)
  : M Office (list Reply) :=
  match email_ids with
  | [] => ret []
  | eid :: rest =>
      found <- read_message contacted_emails eid ;;
      more <- read_messages contacted_emails rest ;;
      ret (found ++ more)%list
  end.

(** [send_notification_email]: the failure of SMTP is caught. *)
Definition send_notification_email (replies : list Reply) : M Office unit :=
  modify (fun o => set_notices (notices o ++ [(replies, notifies mailbox replies)]) o).

(** [find_and_save_replies].  The contacted set is enumerated here in the
    order in which its addresses were added; the source enumerates a [set],
    in an order of its own, so the text of the query is determined up to the
    order of the addresses.  Reading and writing the queue file succeed. *)
Definition find_and_save_replies : M Office unit :=
  contacted_emails <- gets (fun o => load_sent_emails (email_logs (site o))) ;;
  match contacted_emails with
  | [] => ret tt
  | _ :: _ =>
      if connects mailbox then
        match search mailbox
                ("(UNSEEN " ++ fmt (Discovery.build_or_query contacted_emails) ++ ")")
        with
        | SearchRaised => ret tt
        | SearchNotOk => ret tt
        | SearchOk email_ids =>
            replies <- read_messages contacted_emails email_ids ;;
            match replies with
            | [] => ret tt
            | _ :: _ =>
                existing <- on_site (on_files (load_json_file replies_json)) ;;
                on_site (on_files
                  (save_json_file set_replies_json (existing ++ replies)%list)) ;;
                send_notification_email replies
            end
        end
      else ret tt
  end.

(** The replies the run finds, seen from the mailbox: a reply comes from a
    listed message whose sender, in lower case, is contacted, which answers
    a message and whose subject can be decoded. *)
Definition answers (contacted_emails : list string) (eid : nat) : bool :=
  let msg := fetch mailbox eid in
  match msg_from msg, msg_subject msg with
  | Some addr, Some _ =>
      (if in_dec string_dec (PyStr.lower addr) contacted_emails then true else false)
      && msg_in_reply_to msg
  | _, _ => false
  end.

End Inbox.

(** The reply [r] records the message [eid] of the mailbox. *)
Definition records (mailbox : Mailbox) (eid : nat) (r : Reply) : Prop :=
  exists addr subject_text now,
    msg_from (fetch mailbox eid) = Some addr
    /\ msg_subject (fetch mailbox eid) = Some subject_text
    /\ r = mkReply (Some (PyStr.lower addr)) (Some subject_text)
             (Some (msg_body (fetch mailbox eid))) (Some (isoformat now))
             (Some (msg_link (fetch mailbox eid))).

(** Nothing but the counter changes between two states of the office. *)
Definition quiet (o o' : Office) : Prop :=
  replies_json (files (site o')) = replies_json (files (site o))
  /\ conversation_log (files (site o')) = conversation_log (files (site o))
  /\ notification_log (files (site o')) = notification_log (files (site o))
  /\ email_logs (site o') = email_logs (site o)
  /\ outbox o' = outbox o
  /\ notices o' = notices o.

(** ** More inputs for the examples *)

Module Scenes.

(** The agent drafts an answer and flags it for a human; mail goes
    through. *)
Definition flagging_env : Env :=
  mkEnv (fun n => Datetime.sample_time + Z.of_nat n * Datetime.timedelta_hours 1)
        (fun _ _ => AgentJson "It is 20 euros." true)
        (fun _ _ => true).

Definition exchange (n : Z) (email message : string) : ConvEntry :=
  mkConvEntry (Datetime.sample_time + n) email "A" message (Some "An answer.")
    false None.

(** Six logged exchanges, four of them with a@x.com. *)
Definition old_exchanges : list ConvEntry :=
  [exchange 0 "a@x.com" "first"; exchange 1 "b@y.org" "hello"].
Definition late_exchanges : list ConvEntry :=
  [exchange 2 "a@x.com" "second"; exchange 3 "a@x.com" "third";
   exchange 4 "b@y.org" "again"; exchange 5 "a@x.com" "fourth"].
Definition busy_world : World :=
  mkWorld 0 None (Some (old_exchanges ++ late_exchanges)%list) None None [].

Definition empty_site : Site := mkSite Samples.empty_world None.
Definition empty_office : Office := mkOffice empty_site [] [].

(** A host without logs and without product file, and one whose product
    file is not JSON. *)
Definition bare_host : Campaign.Host :=
  Campaign.mkHost empty_office false Campaign.NoProductFile.
Definition broken_host : Campaign.Host :=
  Campaign.mkHost empty_office true (Campaign.BadProductFile ValueError).

(** A contact file: a row with spaces around its cells, a row without a
    name, a row whose address is none, a repeated address and a row without
    an address. *)
Definition contacts : list CsvRow :=
  [mkCsvRow (Some " Ann ") (Some "Ann@X.com ");
   mkCsvRow None (Some "bob@y.org");
   mkCsvRow (Some "Cy") (Some "not an address");
   mkCsvRow (Some "Ann again") (Some "Ann@X.com");
   mkCsvRow (Some "Dee") None].

(** The agent writes the same message for everyone; every message goes
    through. *)
Definition steady_sender : Sender :=
  mkSender (fun _ _ _ _ _ => GenEmail "An offer" "<html>Hello</html>")
           (fun _ _ => None).

(** The office after the campaign to [contacts]. *)
Definition office_after_campaign : Office :=
  Campaign.office
    (snd (Campaign.campaign Samples.hourly_env steady_sender "An offer" "" "The Team"
            contacts empty_office)).

(** The server lists two unread messages: an answer from Ann, written in
    capitals, and a message from a stranger. *)
Definition answering_mailbox : Mailbox :=
  mkMailbox true
    (fun _ => SearchOk [7; 8]%nat)
    (fun eid =>
       match eid with
       | 7%nat => mkMessage (Some "ANN@X.COM") true
                    "https://mail.google.com/mail/u/0/#inbox/1f"
                    (Some "Re: An offer") "Tell me more."
       | _ => mkMessage (Some "stranger@z.net") true "" (Some "Hi") "Hello."
       end)
    (fun _ => true).

(** The same address written in two ways. *)
Definition case_variants : list CsvRow :=
  [mkCsvRow (Some "Ann") (Some "Ann@X.com");
   mkCsvRow (Some "Ann") (Some "ann@x.com")].

(** The first message is refused, the later ones go through. *)
Definition recovering_sender : Sender :=
  mkSender (fun _ _ _ _ _ => GenEmail "An offer" "<html>Hello</html>")
           (fun n _ => if (n <=? 2)%nat then Some "connection reset" else None).

Definition twice_listed : list CsvRow :=
  [mkCsvRow (Some "Bob") (Some "bob@y.org");
   mkCsvRow (Some "Bob") (Some "bob@y.org")].

End Scenes.

(** * Properties *)

(** ** Strings *)

Example split_brackets :
  PyStr.split "[" "[2024-01-01 00:00:00] MANUAL_HANDLED | Customer: a@x.com"
  = [""; "2024-01-01 00:00:00] MANUAL_HANDLED | Customer: a@x.com"].
Proof. reflexivity. Qed.

Example split_trailing : PyStr.split "]" "a]b]" = ["a"; "b"; ""].
Proof. reflexivity. Qed.

Example split_marker :
  PyStr.split "NEEDS_HUMAN_INTERVENTION:" "NEEDS_HUMAN_INTERVENTION: pricing"
  = [""; " pricing"].
Proof. reflexivity. Qed.

Example strip_both : PyStr.strip (" missing pricing info " ++ NL) = "missing pricing info".
Proof. reflexivity. Qed.

Example title_local_part : PyStr.title "john.o-neil" = "John.O-Neil".
Proof. reflexivity. Qed.

Example lower_address : PyStr.lower "John.Doe@X.COM" = "john.doe@x.com".
Proof. reflexivity. Qed.

Example readlines_universal :
  PyStr.readlines
    (String "a" (String PyStr.CR (String PyStr.LF (String "b" (String PyStr.CR "c")))))
  = [String "a" (String PyStr.LF ""); String "b" (String PyStr.LF ""); "c"].
Proof. reflexivity. Qed.

Example splitlines_samples :
  map PyStr.splitlines
    ["a"; String "a" NL; NL ++ "a"; String "a" (NL ++ NL); ""; NL;
     "a" ++ String (ascii_of_nat 11) "b";
     "a" ++ String PyStr.CR (String PyStr.LF "b");
     "a" ++ String (ascii_of_nat 31) "b";
     "a" ++ String (ascii_of_nat 194) (String (ascii_of_nat 133) "b");
     "a" ++ String (ascii_of_nat 226) (String (ascii_of_nat 128)
              (String (ascii_of_nat 168) "b"));
     "a" ++ String PyStr.CR ("b" ++ String PyStr.CR "")]
  = [["a"]; ["a"]; [""; "a"]; ["a"; ""]; []; [""];
     ["a"; "b"]; ["a"; "b"];
     ["a" ++ String (ascii_of_nat 31) "b"];
     ["a"; "b"]; ["a"; "b"]; ["a"; "b"]].
Proof. vm_compute. reflexivity. Qed.

(** A folded Subject is refused, one that only ends in a line feed is not;
    an address is refused for any carriage return or line feed. *)
Example header_samples :
  map header_accepted
    ["Re: Hello"; "Re: Hello" ++ String PyStr.CR (String PyStr.LF " there");
     "Re: Hello" ++ NL; ""]
  = [true; false; true; true]
  /\ map address_accepted ["a@x.com"; "a@x.com" ++ NL; ""] = [true; false; true].
Proof. vm_compute. split; reflexivity. Qed.

Example interpret_marker :
  interpret (AgentJson "NEEDS_HUMAN_INTERVENTION: missing pricing info" true)
  = (None, Some "missing pricing info").
Proof. reflexivity. Qed.

Example interpret_marker_without_colon :
  interpret (AgentJson "NEEDS_HUMAN_INTERVENTION" false)
  = (None, Some "list index out of range").
Proof. reflexivity. Qed.

Module PyStrFacts.
Import PyStr.

Lemma app_assoc (a b c : string) : (a ++ b) ++ c = a ++ (b ++ c).
Proof. induction a as [|x a IH]; simpl; [reflexivity | now rewrite IH]. Qed.

Lemma app_empty_r (a : string) : a ++ "" = a.
Proof. induction a as [|x a IH]; simpl; [reflexivity | now rewrite IH]. Qed.

Lemma prefix_app (x b : string) : String.prefix x (x ++ b) = true.
Proof.
  induction x as [|c x IH]; simpl.
  - now destruct b.
  - destruct (ascii_dec c c) as [_|n]; [exact IH | now elim n].
Qed.

Lemma str_in_prefix (x hay : string) :
  String.prefix x hay = true -> str_in x hay = true.
Proof. intros H. destruct hay; simpl in *; now rewrite H. Qed.

Lemma str_in_cons (x : string) (c : ascii) (hay : string) :
  str_in x hay = true -> str_in x (String c hay) = true.
Proof.
  intros H. change (str_in x (String c hay))
    with (if String.prefix x (String c hay) then true else str_in x hay).
  rewrite H. now destruct (String.prefix x (String c hay)).
Qed.

Lemma str_in_app (x a b : string) : str_in x (a ++ x ++ b) = true.
Proof.
  induction a as [|c a IH].
  - change ("" ++ x ++ b) with (x ++ b). apply str_in_prefix, prefix_app.
  - change (String c a ++ x ++ b) with (String c (a ++ x ++ b)).
    apply str_in_cons, IH.
Qed.

Lemma str_in_empty (hay : string) : str_in "" hay = true.
Proof. now destruct hay. Qed.

Lemma rev_string_app (acc s : string) : rev_string acc s = rev_string "" s ++ acc.
Proof.
  revert acc. induction s as [|c s IH]; intros acc; simpl; [reflexivity|].
  rewrite IH, (IH (String c "")), app_assoc. reflexivity.
Qed.

Lemma rev_string_push (acc a b : string) :
  rev_string acc (a ++ b) = rev_string (rev_string acc a) b.
Proof. revert acc. induction a as [|c a IH]; intros acc; simpl; auto. Qed.

Lemma rev_string_involutive (s : string) : rev_string "" (rev_string "" s) = s.
Proof.
  induction s as [|c s IH]; simpl; [reflexivity|].
  rewrite (rev_string_app (String c "") s), rev_string_push, IH. reflexivity.
Qed.

(** One step of splitting at a character. *)
Lemma split_go_step (c d : ascii) (cur s : string) :
  split_go (String c "") 0 cur (String d s)
  = if Ascii.eqb c d then rev_string "" cur :: split_go (String c "") 0 "" s
    else split_go (String c "") 0 (String d cur) s.
Proof.
  cbn [split_go String.prefix String.length Nat.sub].
  destruct (ascii_dec c d) as [->|n].
  - rewrite Ascii.eqb_refl. now destruct s.
  - apply Ascii.eqb_neq in n. now rewrite n.
Qed.

(** A text free of the separator is read into the current field as a whole. *)
Lemma split_go_free (c : ascii) (a cur rest : string) :
  free_of c a = true ->
  split_go (String c "") 0 cur (a ++ rest)
  = split_go (String c "") 0 (rev_string cur a) rest.
Proof.
  revert cur. induction a as [|d a IH]; intros cur H; [reflexivity|].
  cbn [free_of] in H. apply andb_prop in H as [Hd Ha].
  change (String d a ++ rest) with (String d (a ++ rest)).
  rewrite split_go_step, Ascii.eqb_sym.
  apply negb_true_iff in Hd. rewrite Hd. now apply IH.
Qed.

Lemma split_go_sep (c : ascii) (cur rest : string) :
  split_go (String c "") 0 cur (String c rest)
  = rev_string "" cur :: split_go (String c "") 0 "" rest.
Proof. now rewrite split_go_step, Ascii.eqb_refl. Qed.

Lemma split_go_not_nil (c : ascii) (cur s : string) :
  split_go (String c "") 0 cur s <> [].
Proof.
  revert cur. induction s as [|d s IH]; intros cur; [discriminate|].
  rewrite split_go_step. destruct (Ascii.eqb c d); [discriminate|apply IH].
Qed.

(** The first field extends what has been read so far. *)
Lemma hd_split_go (c : ascii) (cur s : string) :
  exists z, hd "" (split_go (String c "") 0 cur s) = rev_string "" cur ++ z.
Proof.
  revert cur. induction s as [|d s IH]; intros cur.
  - exists "". simpl. now rewrite app_empty_r.
  - rewrite split_go_step. destruct (Ascii.eqb c d).
    + exists "". simpl. now rewrite app_empty_r.
    + destruct (IH (String d cur)) as [z Hz]. exists (String d z).
      rewrite Hz. simpl. rewrite (rev_string_app (String d "")), app_assoc.
      reflexivity.
Qed.

(** [("[" + a + rest).split("[")[1]] starts with [a] when [a] has no bracket. *)
Lemma split_second_field (c : ascii) (a rest : string) :
  free_of c a = true ->
  exists z, nth_error (split (String c "") (String c (a ++ rest))) 1
            = Some (a ++ z).
Proof.
  intros H. unfold split. rewrite split_go_sep. cbn [nth_error].
  rewrite split_go_free by exact H.
  destruct (hd_split_go c (rev_string "" a) rest) as [z Hz].
  exists z. rewrite rev_string_involutive in Hz.
  destruct (split_go (String c "") 0 (rev_string "" a) rest) eqn:E.
  - now apply split_go_not_nil in E.
  - simpl in *. now rewrite Hz.
Qed.

(** [(a + c + rest).split(c)[0]] is [a] when [a] is free of [c]. *)
Lemma split_first_field (c : ascii) (a rest : string) :
  free_of c a = true ->
  hd "" (split (String c "") (a ++ String c rest)) = a.
Proof.
  intros H. unfold split. rewrite split_go_free by exact H.
  rewrite split_go_sep. simpl. apply rev_string_involutive.
Qed.

Lemma readlines_nil (s : string) : readlines s = [] -> s = "".
Proof.
  destruct s as [|c s]; [reflexivity|]. simpl.
  destruct (Ascii.eqb c LF); [discriminate|].
  destruct (Ascii.eqb c CR).
  - destruct s as [|c' s]; [discriminate|]. destruct (Ascii.eqb c' LF); discriminate.
  - destruct (readlines s); discriminate.
Qed.

Lemma line_terminated_tail (c d : ascii) (s : string) :
  line_terminated (String c (String d s)) = line_terminated (String d s).
Proof. reflexivity. Qed.

Lemma readlines_step (c : ascii) (rest : string) :
  readlines (String c rest)
  = if Ascii.eqb c LF then String LF "" :: readlines rest
    else if Ascii.eqb c CR then
      match rest with
      | String c' rest' =>
          if Ascii.eqb c' LF then String LF "" :: readlines rest'
          else String LF "" :: readlines rest
      | EmptyString => [String LF ""]
      end
    else match readlines rest with
         | [] => [String c ""]
         | l :: ls => String c l :: ls
         end.
Proof. reflexivity. Qed.

(** A write that follows a complete line starts a line of its own. *)
Lemma readlines_app (pre x : string) :
  line_terminated pre = true ->
  readlines (pre ++ x) = (readlines pre ++ readlines x)%list.
Proof.
  remember (String.length pre) as n eqn:Hn.
  revert pre Hn. induction n as [n IH] using lt_wf_ind. intros pre Hn Ht.
  destruct pre as [|c rest]; [reflexivity|].
  destruct rest as [|d rest'].
  - simpl in Ht. apply Ascii.eqb_eq in Ht. subst c. reflexivity.
  - rewrite line_terminated_tail in Ht.
    assert (IH1 : readlines (String d rest' ++ x)
                  = (readlines (String d rest') ++ readlines x)%list).
    { apply (IH (String.length (String d rest'))); [subst n; simpl; lia|reflexivity|exact Ht]. }
    change (String c (String d rest') ++ x) with (String c (String d rest' ++ x)).
    rewrite (readlines_step c (String d rest' ++ x)), (readlines_step c (String d rest')).
    destruct (Ascii.eqb c LF); [now rewrite IH1|].
    destruct (Ascii.eqb c CR).
    + change (String d rest' ++ x) with (String d (rest' ++ x)). cbv iota.
      destruct (Ascii.eqb d LF) eqn:Ed.
      * cbn [List.app]. f_equal. destruct rest' as [|e rest'']; [reflexivity|].
        apply (IH (String.length (String e rest''))); [subst n; simpl; lia|reflexivity|].
        exact Ht.
      * change (String d (rest' ++ x)) with (String d rest' ++ x).
        now rewrite IH1.
    + rewrite IH1. destruct (readlines (String d rest')) eqn:E.
      * apply readlines_nil in E. discriminate.
      * reflexivity.
Qed.

Lemma readlines_single (b : string) :
  single_line b = true -> readlines (b ++ String LF "") = [b ++ String LF ""].
Proof.
  induction b as [|c b IH]; intros H; [reflexivity|].
  simpl in H. apply andb_prop in H as [H Hb]. apply andb_prop in H as [H1 H2].
  simpl. apply negb_true_iff in H1, H2. rewrite H1, H2, (IH Hb). reflexivity.
Qed.

Lemma line_terminated_app (b : string) : line_terminated (b ++ String LF "") = true.
Proof.
  induction b as [|c b IH]; [reflexivity|].
  simpl. destruct (b ++ String LF "") eqn:E; [now destruct b|exact IH].
Qed.

Lemma single_line_app (a b : string) :
  single_line (a ++ b) = single_line a && single_line b.
Proof.
  induction a as [|c a IH]; simpl; [reflexivity|].
  rewrite IH. now rewrite !andb_assoc.
Qed.

Lemma free_of_app (c : ascii) (a b : string) :
  free_of c (a ++ b) = free_of c a && free_of c b.
Proof.
  induction a as [|d a IH]; simpl; [reflexivity|].
  rewrite IH. now rewrite andb_assoc.
Qed.
End PyStrFacts.

(** ** The timestamp text *)

Example strftime_sample : Datetime.strftime Datetime.sample_time = "2024-01-15 10:30:00".
Proof. vm_compute. reflexivity. Qed.
Example strftime_dates :
  map (fun d => Datetime.strftime (d * 86400 * 1000000 + 86399999999))
      [0; 58; 59; 365; 730178; 738944; 738945; 739250; 3652058]
  = ["0001-01-01 23:59:59"; "0001-02-28 23:59:59"; "0001-03-01 23:59:59";
     "0002-01-01 23:59:59"; "2000-02-29 23:59:59"; "2024-02-29 23:59:59";
     "2024-03-01 23:59:59"; "2024-12-31 23:59:59"; "9999-12-31 23:59:59"].
Proof. vm_compute. reflexivity. Qed.
Example strptime_sample :
  Datetime.strptime_fixed (Datetime.strftime Datetime.sample_time)
  = Some (Datetime.whole_second Datetime.sample_time).
Proof. vm_compute. reflexivity. Qed.

Module DatetimeFacts.
Import PyStr Datetime.

Lemma digit_range (n : Z) :
  exists k, (k < 10)%nat /\ digit n = ascii_of_nat (48 + k).
Proof.
  exists (Z.to_nat (n mod 10)). split; [|reflexivity].
  pose proof (Z.mod_pos_bound n 10). lia.
Qed.

(** A character that is not a decimal digit is not printed for a digit. *)
Lemma digit_neq (c : ascii) (n : Z) :
  (nat_of_ascii c < 48 \/ 57 < nat_of_ascii c)%nat ->
  Ascii.eqb (digit n) c = false.
Proof.
  intros Hc. apply Ascii.eqb_neq. intros E.
  destruct (digit_range n) as [k [Hk Hd]]. rewrite Hd in E.
  apply (f_equal nat_of_ascii) in E.
  rewrite nat_ascii_embedding in E by lia. lia.
Qed.

Lemma strftime_free_of (c : ascii) (t : Z) :
  (nat_of_ascii c < 48 \/ 57 < nat_of_ascii c)%nat ->
  c <> "-"%char -> c <> " "%char -> c <> ":"%char ->
  free_of c (strftime t) = true.
Proof.
  intros Hc H1 H2 H3. unfold strftime.
  destruct (ord2ymd _) as [[y m] d]. unfold pad4, pad2.
  cbn [append free_of].
  rewrite !(digit_neq c) by exact Hc.
  apply not_eq_sym in H1, H2, H3.
  apply Ascii.eqb_neq in H1, H2, H3. rewrite H1, H2, H3. reflexivity.
Qed.

Lemma single_line_free_of (s : string) :
  single_line s = free_of LF s && free_of CR s.
Proof.
  induction s as [|c s IH]; [reflexivity|]. simpl. rewrite IH.
  destruct (Ascii.eqb c LF), (Ascii.eqb c CR), (free_of LF s), (free_of CR s);
    reflexivity.
Qed.

Lemma strftime_single_line (t : Z) : single_line (strftime t) = true.
Proof.
  rewrite single_line_free_of, !strftime_free_of; try reflexivity;
    try discriminate; left; vm_compute; lia.
Qed.

Lemma strftime_no_open (t : Z) : free_of "["%char (strftime t) = true.
Proof. apply strftime_free_of; try discriminate. right. vm_compute. lia. Qed.

Lemma strftime_no_close (t : Z) : free_of "]"%char (strftime t) = true.
Proof. apply strftime_free_of; try discriminate. right. vm_compute. lia. Qed.
End DatetimeFacts.

(** ** The manual-handling window *)

Section Tracker.
Import PyStr PyStrFacts Datetime DatetimeFacts.
Variable env : Env.
Variable strptime : string -> option Z.

Lemma prefix_split (x hay : string) :
  String.prefix x hay = true -> exists b, hay = x ++ b.
Proof.
  revert hay. induction x as [|c x IH]; intros hay H.
  - now exists hay.
  - destruct hay as [|d hay]; [discriminate|]. simpl in H.
    destruct (ascii_dec c d) as [->|]; [|discriminate].
    destruct (IH _ H) as [b ->]. now exists b.
Qed.

Lemma str_in_split (x hay : string) :
  str_in x hay = true -> exists a b, hay = a ++ x ++ b.
Proof.
  induction hay as [|c hay IH]; intros H.
  - cbn [str_in] in H. destruct (String.prefix x "") eqn:E; [|discriminate].
    apply prefix_split in E as [b E]. now exists "", b.
  - cbn [str_in] in H. destruct (String.prefix x (String c hay)) eqn:E.
    + apply prefix_split in E as [b E]. now exists "", b.
    + destruct (IH H) as [a [b ->]]. now exists (String c a), b.
Qed.

(** The line written by [mark_as_manually_handled] is one complete line. *)
Lemma handled_line_shape (t : Z) (R : string) :
  handled_line t R
  = ("[" ++ strftime t ++ "] MANUAL_HANDLED | Customer: " ++ R) ++ String LF "".
Proof.
  unfold handled_line, NL. cbn [append]. f_equal.
  now rewrite !app_assoc.
Qed.

Lemma readlines_handled_line (t : Z) (R : string) :
  single_line R = true -> readlines (handled_line t R) = [handled_line t R].
Proof.
  intros HR. rewrite handled_line_shape. apply readlines_single.
  rewrite !single_line_app, strftime_single_line, HR. reflexivity.
Qed.

(** It mentions every text that occurs in the recipient. *)
Lemma mentions_handled_line (e R : string) (t : Z) :
  str_in e R = true -> mentions e (handled_line t R) = true.
Proof.
  intros H. unfold mentions. apply andb_true_intro. split.
  - apply str_in_split in H as [a [b ->]]. unfold handled_line.
    replace ("[" ++ strftime t ++ "] MANUAL_HANDLED | Customer: " ++ (a ++ e ++ b) ++ NL)
      with (("[" ++ strftime t ++ "] MANUAL_HANDLED | Customer: " ++ a) ++ e ++ (b ++ NL)).
    + apply str_in_app.
    + cbn [append]. f_equal. now rewrite !app_assoc.
  - unfold handled_line.
    replace ("[" ++ strftime t ++ "] MANUAL_HANDLED | Customer: " ++ R ++ NL)
      with (("[" ++ strftime t ++ "] ") ++ "MANUAL_HANDLED" ++ (" | Customer: " ++ R ++ NL)).
    + apply str_in_app.
    + cbn [append]. f_equal. now rewrite !app_assoc.
Qed.

(** Its timestamp is read back whatever the recipient is. *)
Lemma timestamp_of_handled_line (t : Z) (R : string) :
  exists after,
    nth_error (split "[" (handled_line t R)) 1 = Some after
    /\ hd "" (split "]" after) = strftime t.
Proof.
  unfold handled_line.
  destruct (split_second_field "["%char
              (strftime t ++ "] MANUAL_HANDLED | Customer: ") (R ++ NL))
    as [z Hz].
  - rewrite free_of_app, strftime_no_open. reflexivity.
  - exists ((strftime t ++ "] MANUAL_HANDLED | Customer: ") ++ z). split.
    + rewrite <- Hz. cbn [append]. now rewrite !app_assoc.
    + rewrite app_assoc. cbn [append].
      apply split_first_field, strftime_no_close.
Qed.

Lemma scan_handled_line (e R : string) (t v cutoff : Z) (rest : list string) :
  str_in e R = true ->
  strptime (strftime t) = Some v ->
  scan_lines strptime e cutoff (handled_line t R :: rest)
  = if cutoff <? v then Ok true else scan_lines strptime e cutoff rest.
Proof.
  intros He Hp. cbn [scan_lines].
  rewrite (mentions_handled_line _ _ _ He).
  destruct (timestamp_of_handled_line t R) as [after [H1 H2]].
  rewrite H1, H2, Hp. reflexivity.
Qed.

(** Lines that answer nothing are passed over. *)
Lemma scan_lines_app (e : string) (cutoff : Z) (pre rest : list string) :
  scan_lines strptime e cutoff pre = Ok false ->
  scan_lines strptime e cutoff (pre ++ rest) = scan_lines strptime e cutoff rest.
Proof.
  induction pre as [|l pre IH]; intros H; [reflexivity|].
  cbn [scan_lines List.app] in *.
  destruct (mentions e l); [|now apply IH].
  destruct (nth_error (split "[" l) 1); [|discriminate].
  destruct (strptime _); [|discriminate].
  destruct (cutoff <? z); [discriminate|now apply IH].
Qed.

Lemma scan_lines_unmentioned (e : string) (cutoff : Z) (ls : list string) :
  (forall l, In l ls -> mentions e l = false) ->
  scan_lines strptime e cutoff ls = Ok false.
Proof.
  induction ls as [|l ls IH]; intros H; [reflexivity|].
  cbn [scan_lines]. rewrite (H l (or_introl eq_refl)).
  apply IH. intros l' Hl'. apply H. now right.
Qed.

(** The answer of the try block once [R] has been marked at [t], for a
    query about any text [e] that occurs in [R]. *)
Lemma handled_within_marked (old : option string) (post e R : string) (t now hours : Z) :
  single_line R = true ->
  line_terminated (get old "") = true ->
  (forall l, In l (readlines (get old "") ++ readlines post)%list -> mentions e l = false) ->
  str_in e R = true ->
  strptime (strftime t) = Some (whole_second t) ->
  timedelta_hours hours <= now ->
  handled_within strptime (Some (get old "" ++ handled_line t R ++ post)) now e hours
  = Ok (now - timedelta_hours hours <? whole_second t).
Proof.
  intros HR Hold Hno He Hp Hnow. unfold handled_within.
  destruct (now - timedelta_hours hours <? 0) eqn:E; [apply Z.ltb_lt in E; lia|].
  rewrite (readlines_app _ _ Hold).
  rewrite readlines_app
    by (rewrite handled_line_shape; apply line_terminated_app).
  rewrite (readlines_handled_line _ _ HR).
  rewrite scan_lines_app
    by (apply scan_lines_unmentioned; intros l Hl; apply Hno, in_or_app; now left).
  cbn [List.app]. rewrite (scan_handled_line e R t _ _ _ He Hp).
  destruct (_ <? whole_second t); [reflexivity|].
  apply scan_lines_unmentioned. intros l Hl. apply Hno, in_or_app. now right.
Qed.

(** What [was_manually_handled] answers on an existing log. *)
Lemma was_manually_handled_some (e : string) (hours : Z) (w : World) (content : string) :
  notification_log w = Some content ->
  fst (was_manually_handled env strptime e hours w)
  = Ok (match handled_within strptime (Some content) (clock env (tick w)) e hours with
        | Ok b => b
        | Raise _ => false
        end).
Proof.
  intros H. unfold was_manually_handled, try_except, bind, gets, datetime_now.
  rewrite H. cbn -[handled_within].
  destruct (handled_within strptime (Some content) (clock env (tick w)) e hours);
    reflexivity.
Qed.

Lemma was_manually_handled_none (e : string) (hours : Z) (w : World) :
  notification_log w = None ->
  fst (was_manually_handled env strptime e hours w) = Ok false.
Proof.
  intros H. unfold was_manually_handled, try_except, bind, gets, raise, ret.
  rewrite H. reflexivity.
Qed.

Lemma mark_as_manually_handled_log (R : string) (w : World) :
  notification_log (snd (mark_as_manually_handled env R w))
  = Some (get (notification_log w) "" ++ handled_line (clock env (tick w)) R).
Proof. reflexivity. Qed.

(** C1 (as amended).  Once [mark_as_manually_handled] has recorded [R] at
    time [T], a later [was_manually_handled(R, 24)] answers by the timestamp
    as written, that is [T] without its microseconds: true at every query time
    before that plus 24 hours, false from then on.  Assumed: [R] holds no line
    break, the log ended at a line boundary when the entry was appended, no
    other line of the log (before or after the entry) mentions [R], the
    written timestamp reads back, and the query time minus 24 hours is a
    datetime. *)
Theorem suppression_window (R post : string) (w wq : World) :
  single_line R = true ->
  line_terminated (get (notification_log w) "") = true ->
  (forall l, In l (readlines (get (notification_log w) "") ++ readlines post)%list ->
             mentions R l = false) ->
  notification_log wq
  = option_map (fun log => log ++ post)
      (notification_log (snd (mark_as_manually_handled env R w))) ->
  strptime (strftime (clock env (tick w))) = Some (whole_second (clock env (tick w))) ->
  timedelta_hours 24 <= clock env (tick wq) ->
  (clock env (tick wq) < whole_second (clock env (tick w)) + timedelta_hours 24 ->
   fst (was_manually_handled env strptime R 24 wq) = Ok true)
  /\ (whole_second (clock env (tick w)) + timedelta_hours 24 <= clock env (tick wq) ->
      fst (was_manually_handled env strptime R 24 wq) = Ok false).
Proof.
  intros HR Hold Hno Hlog Hp Hnow.
  rewrite mark_as_manually_handled_log in Hlog. cbn [option_map] in Hlog.
  rewrite app_assoc in Hlog.
  assert (HinR : str_in R R = true).
  { rewrite <- (app_empty_r R) at 2. apply (str_in_app R "" ""). }
  rewrite (was_manually_handled_some _ _ _ _ Hlog).
  rewrite (handled_within_marked _ _ R R _ _ _ HR Hold Hno HinR Hp Hnow).
  split; intros H; f_equal; [apply Z.ltb_lt|apply Z.ltb_ge]; lia.
Qed.

(** An answer found is not changed by the lines that follow. *)
Lemma scan_lines_true_app (e : string) (cutoff : Z) (ls more : list string) :
  scan_lines strptime e cutoff ls = Ok true ->
  scan_lines strptime e cutoff (ls ++ more) = Ok true.
Proof.
  induction ls as [|l ls IH]; intros H; [discriminate|].
  cbn [scan_lines List.app] in *.
  destruct (mentions e l); [|now apply IH].
  destruct (nth_error (split "[" l) 1); [|discriminate].
  destruct (strptime _); [|discriminate].
  destruct (cutoff <? z); [reflexivity|now apply IH].
Qed.

(** C8 (as amended).  [was_manually_handled] never raises, and every failure
    of its try block is answered [False]: a missing file, a line that
    mentions the recipient but has no bracketed timestamp or one that
    [strptime] refuses, when it is reached before any line answered [True],
    and in general any exception of the block.  The scan stops at the first
    recent entry: once a line has answered [True] the answer is [True]
    whatever follows, invalid lines included. *)
Theorem fail_open (customer_email : string) (hours : Z) (w : World) :
  (exists b, fst (was_manually_handled env strptime customer_email hours w) = Ok b)
  /\ (forall e,
        handled_within strptime (notification_log w) (clock env (tick w))
          customer_email hours = Raise e ->
        fst (was_manually_handled env strptime customer_email hours w) = Ok false)
  /\ (notification_log w = None ->
      fst (was_manually_handled env strptime customer_email hours w) = Ok false)
  /\ (forall content pre bad post,
        notification_log w = Some content ->
        readlines content = (pre ++ bad :: post)%list ->
        scan_lines strptime customer_email
          (clock env (tick w) - timedelta_hours hours) pre = Ok false ->
        mentions customer_email bad = true ->
        unreadable strptime bad = true ->
        fst (was_manually_handled env strptime customer_email hours w) = Ok false)
  /\ (forall content pre post,
        notification_log w = Some content ->
        readlines content = (pre ++ post)%list ->
        timedelta_hours hours <= clock env (tick w) ->
        scan_lines strptime customer_email
          (clock env (tick w) - timedelta_hours hours) pre = Ok true ->
        fst (was_manually_handled env strptime customer_email hours w) = Ok true).
Proof.
  destruct (notification_log w) as [content|] eqn:Hlog.
  - pose proof (was_manually_handled_some customer_email hours w content Hlog) as E.
    split; [|split; [|split; [|split]]].
    + rewrite E. eauto.
    + intros e He. rewrite E, He. reflexivity.
    + discriminate.
    + intros c pre bad post [= <-] Hl Hpre Hm Hbad. rewrite E. f_equal.
      unfold handled_within. destruct (_ <? 0); [reflexivity|].
      rewrite Hl, (scan_lines_app _ _ _ _ Hpre). cbn [scan_lines].
      rewrite Hm. unfold unreadable in Hbad.
      destruct (nth_error (split "[" bad) 1); [|reflexivity].
      destruct (strptime _); [discriminate|reflexivity].
    + intros c pre post [= <-] Hl Hnow Hpre. rewrite E. f_equal.
      unfold handled_within.
      destruct (_ <? 0) eqn:Eo; [apply Z.ltb_lt in Eo; lia|].
      now rewrite Hl, (scan_lines_true_app _ _ _ _ Hpre).
  - pose proof (was_manually_handled_none customer_email hours w Hlog) as E.
    split; [|split; [|split; [|split]]]; try (intros; exact E);
      try (intros; discriminate).
    rewrite E. eauto.
Qed.

(** The scan of a marked line that mentions [e]. *)
Lemma scan_mentioned_line (e R : string) (t v cutoff : Z) (rest : list string) :
  mentions e (handled_line t R) = true ->
  strptime (strftime t) = Some v ->
  scan_lines strptime e cutoff (handled_line t R :: rest)
  = if cutoff <? v then Ok true else scan_lines strptime e cutoff rest.
Proof.
  intros Hm Hp. cbn [scan_lines]. rewrite Hm.
  destruct (timestamp_of_handled_line t R) as [after [H1 H2]].
  rewrite H1, H2, Hp. reflexivity.
Qed.

(** C9.  The check is by containment in the line, not by equality with the
    recipient field.  On a log that did not exist, nobody is suppressed; once
    [e2] alone has been marked, the check for any text [e1] answers, inside
    the window, whether the written line contains [e1] -- and it does as soon
    as [e2] contains [e1].  So with ["ab@x.com"] marked,
    [was_manually_handled("b@x.com", 24)] answers true, though ["b@x.com"] is
    another address and was never marked. *)
Theorem substring_suppression (e1 e2 : string) (w : World) :
  notification_log w = None ->
  single_line e2 = true ->
  strptime (strftime (clock env (tick w))) = Some (whole_second (clock env (tick w))) ->
  timedelta_hours 24 <= clock env (S (tick w)) ->
  clock env (S (tick w)) < whole_second (clock env (tick w)) + timedelta_hours 24 ->
  fst (was_manually_handled env strptime e1 24 w) = Ok false
  /\ fst (was_manually_handled env strptime e1 24
            (snd (mark_as_manually_handled env e2 w)))
     = Ok (mentions e1 (handled_line (clock env (tick w)) e2))
  /\ (str_in e1 e2 = true ->
      fst (was_manually_handled env strptime e1 24
             (snd (mark_as_manually_handled env e2 w))) = Ok true)
  /\ "b@x.com" <> "ab@x.com"
  /\ str_in "b@x.com" "ab@x.com" = true.
Proof.
  intros Hlog He2 Hp Hnow Hwin.
  assert (Hafter : fst (was_manually_handled env strptime e1 24
                          (snd (mark_as_manually_handled env e2 w)))
                   = Ok (mentions e1 (handled_line (clock env (tick w)) e2))).
  { erewrite was_manually_handled_some by apply mark_as_manually_handled_log.
    rewrite Hlog. cbn [get tick snd mark_as_manually_handled].
    change (tick (snd (mark_as_manually_handled env e2 w))) with (S (tick w)).
    f_equal. unfold handled_within.
    destruct (_ <? 0) eqn:Eo; [apply Z.ltb_lt in Eo; lia|].
    change ("" ++ handled_line (clock env (tick w)) e2)
      with (handled_line (clock env (tick w)) e2).
    rewrite (readlines_handled_line _ _ He2).
    destruct (mentions e1 (handled_line (clock env (tick w)) e2)) eqn:Hm.
    - rewrite (scan_mentioned_line _ _ _ _ _ _ Hm Hp).
      assert (Hlt : (clock env (S (tick w)) - timedelta_hours 24
                     <? whole_second (clock env (tick w))) = true)
        by (apply Z.ltb_lt; lia).
      now rewrite Hlt.
    - cbn [scan_lines]. now rewrite Hm. }
  split; [now apply was_manually_handled_none|].
  split; [exact Hafter|]. split; [|split; [discriminate|reflexivity]].
  intros Hin. rewrite Hafter. f_equal. now apply mentions_handled_line.
Qed.

End Tracker.

(** ** The loop body *)

Section StepFacts.
Variable env : Env.
Variable strptime : string -> option Z.

(** The suppression check returns an answer and touches no store. *)
Lemma was_manually_handled_run (e : string) (hours : Z) (w : World) :
  exists b w',
    was_manually_handled env strptime e hours w = (Ok b, w')
    /\ same_stores w w' /\ smtp_trace w' = smtp_trace w
    /\ reply_log w' = reply_log w.
Proof.
  unfold was_manually_handled, try_except, bind, gets, raise, ret, datetime_now.
  destruct (notification_log w) eqn:E.
  - destruct (handled_within _ _ _ _ _); eexists; eexists;
      (split; [reflexivity|]); unfold same_stores; cbn; auto.
  - eexists; eexists; (split; [reflexivity|]); unfold same_stores; auto.
Qed.

Lemma process_reply_step (reply : Reply) (st : PassState) :
  step env strptime reply st (process_reply env strptime reply st).
Proof.
  pose proof (was_manually_handled_run (email_of reply) 24 (world st))
    as [b [w1 [Hrun [[Hq [Hc Hn]] [Hs Hr]]]]].
  assert (Hsup : suppressed env strptime reply st = b)
    by (unfold suppressed; now rewrite Hrun).
  assert (Hw1 : after_check env strptime reply st = w1)
    by (unfold after_check; now rewrite Hrun).
  unfold process_reply, bind at 1, lift at 1.
  fold (email_of reply). rewrite Hrun.
  destruct b.
  - (* suppressed *)
    eapply step_skipped; try exact Hsup; unfold same_stores; cbn; auto.
  - (* a draft is asked for *)
    unfold bind at 1, lift at 1, generate_ai_response. cbn [world set_world].
    fold (name_of reply) (body_of reply).
    assert (Hout : interpret (run_agent env (tick w1)
                     ("Customer " ++ name_of reply ++ " asked: '" ++ body_of reply ++ "'."))
                   = draft env strptime reply st)
      by (unfold draft, agent_output; now rewrite Hw1).
    rewrite Hout. destruct (draft env strptime reply st) as [ai reason] eqn:Hd.
    destruct (truthy ai) eqn:Hai.
    + (* a usable response *)
      unfold bind at 1, lift at 1, send_email_response.
      cbn [world set_world tick set_tick].
      fold (subject_of reply).
      assert (Hmail : ResponseMail (email_of reply)
                (if String.prefix "Re:" (subject_of reply) then subject_of reply
                 else "Re: " ++ subject_of reply)
                ("<html><body><p>Hi " ++ name_of reply ++ ",</p><p>" ++ fmt ai
                 ++ "</p><p>Regards,<br>Customer Service Team</p></body></html>")
              = response_mail env strptime reply st)
        by (unfold response_mail; now rewrite Hd).
      rewrite Hmail.
      change (header_accepted
                (if String.prefix "Re:" (subject_of reply) then subject_of reply
                 else "Re: " ++ subject_of reply)
              && address_accepted (email_of reply))
        with (composed (response_mail env strptime reply st)).
      destruct (composed (response_mail env strptime reply st)) eqn:Hcomp.
      2:{ (* the message cannot be built *)
          eapply step_send_failed; try eassumption; try (now rewrite Hd);
            try (unfold delivered; now rewrite Hcomp);
            unfold same_stores, handed_over; rewrite ?Hcomp; cbn;
            rewrite ?app_nil_r; auto. }
      unfold smtp. cbn [world set_world tick set_tick].
      assert (Hdel : smtp_send env (S (tick w1)) (response_mail env strptime reply st)
                     = delivered env strptime (response_mail env strptime reply st) reply st)
        by (unfold delivered; now rewrite Hcomp, Hw1).
      rewrite Hdel.
      destruct (delivered env strptime (response_mail env strptime reply st) reply st) eqn:Hok.
      * destruct ai as [text|]; [|discriminate].
        unfold bind, lift, list_remove, log_conversation, log_reply_status, add_stat,
          note, modify, load_json_file, save_json_file, gets, datetime_now.
        cbn -[Datetime.strftime append handled_line fmt load_list remove_first].
        destruct (remove_first reply (replies st)) as [left|] eqn:Hrm.
        -- eapply step_responded with (text := text); try eassumption; rewrite ?Hd;
             cbn -[Datetime.strftime append handled_line fmt load_list remove_first];
             rewrite ?Hn, ?Hc; try reflexivity; try assumption; congruence.
        -- eapply step_responded_absent; try eassumption. now rewrite Hd.
      * eapply step_send_failed; try eassumption; try (now rewrite Hd);
          unfold same_stores, handed_over; rewrite ?Hcomp; cbn; auto. now rewrite Hs.
    + (* no usable response: the owner is notified *)
      unfold bind at 1, lift at 1, send_notification_to_user, bind at 1, smtp.
      cbn [world set_world tick set_tick].
      fold (subject_of reply) (link_of reply).
      assert (Hmail : NotificationMail (email_of reply) (name_of reply) (subject_of reply)
                (body_of reply) (link_of reply) reason
              = notification_mail env strptime reply st)
        by (unfold notification_mail; now rewrite Hd).
      rewrite Hmail.
      assert (Hdel : smtp_send env (S (tick w1)) (notification_mail env strptime reply st)
                     = delivered env strptime (notification_mail env strptime reply st) reply st)
        by (unfold delivered, notification_mail; now rewrite Hw1).
      rewrite Hdel.
      destruct (delivered env strptime (notification_mail env strptime reply st) reply st) eqn:Hok.
      * unfold bind, lift, list_remove, log_conversation, log_reply_status, add_stat,
          mark_as_manually_handled, note, modify, load_json_file, save_json_file,
          gets, datetime_now, ret.
        cbn -[Datetime.strftime append handled_line fmt load_list remove_first].
        destruct (remove_first reply (replies st)) as [left|] eqn:Hrm.
        -- eapply step_escalated; try eassumption; rewrite ?Hd;
             cbn -[Datetime.strftime append handled_line fmt load_list remove_first];
             rewrite ?Hn, ?Hc; try reflexivity; try assumption; congruence.
        -- eapply step_escalated_absent; try eassumption. now rewrite Hd.
      * eapply step_notification_failed; try eassumption; try (now rewrite Hd);
          unfold same_stores; cbn; auto. now rewrite Hs.
Qed.
End StepFacts.

(** ** Removal from the queue *)

Section QueueFacts.

Lemma Subseq_refl {A} (l : list A) : Subseq l l.
Proof. induction l; constructor; assumption. Qed.

Lemma Subseq_trans {A} (l1 l2 l3 : list A) :
  Subseq l1 l2 -> Subseq l2 l3 -> Subseq l1 l3.
Proof.
  intros H12 H23. revert l1 H12.
  induction H23 as [|x l2 l3 H IH|x l2 l3 H IH]; intros l1 H12.
  - exact H12.
  - inversion H12; subst.
    + apply Subseq_keep. now apply IH.
    + apply Subseq_drop. now apply IH.
  - apply Subseq_drop. now apply IH.
Qed.

Lemma Subseq_length {A} (l1 l2 : list A) :
  Subseq l1 l2 -> (List.length l1 <= List.length l2)%nat.
Proof. induction 1; simpl; lia. Qed.

Lemma Subseq_same_length {A} (l1 l2 : list A) :
  Subseq l1 l2 -> List.length l1 = List.length l2 -> l1 = l2.
Proof.
  induction 1 as [|x l1 l2 H IH|x l1 l2 H IH]; simpl; intros E.
  - reflexivity.
  - f_equal. apply IH. lia.
  - apply Subseq_length in H. lia.
Qed.

Lemma remove_first_none (x : Reply) (l : list Reply) :
  remove_first x l = None -> count l x = 0%nat.
Proof.
  unfold count. induction l as [|y l IH]; simpl; intros H; [reflexivity|].
  destruct (Reply_eq_dec y x); [discriminate|].
  destruct (remove_first x l); [discriminate|]. now apply IH.
Qed.

Lemma remove_first_count (x : Reply) (l l' : list Reply) :
  remove_first x l = Some l' ->
  forall y, count l y = (count l' y + if Reply_eq_dec x y then 1 else 0)%nat.
Proof.
  unfold count. revert l'. induction l as [|z l IH]; simpl; intros l' H y;
    [discriminate|].
  destruct (Reply_eq_dec z x) as [->|n].
  - injection H as <-. destruct (Reply_eq_dec x y); lia.
  - destruct (remove_first x l) as [l0|]; [|discriminate].
    injection H as <-. simpl. rewrite (IH l0 eq_refl y).
    destruct (Reply_eq_dec z y), (Reply_eq_dec x y); lia.
Qed.

Lemma remove_first_order (x : Reply) (l l' : list Reply) :
  remove_first x l = Some l' -> Subseq l' l.
Proof.
  revert l'. induction l as [|z l IH]; simpl; intros l' H; [discriminate|].
  destruct (Reply_eq_dec z x).
  - injection H as <-. apply Subseq_drop, Subseq_refl.
  - destruct (remove_first x l) as [l0|]; [|discriminate].
    injection H as <-. apply Subseq_keep. now apply IH.
Qed.

Lemma count_app (l1 l2 : list Reply) (x : Reply) :
  count (l1 ++ l2) x = (count l1 x + count l2 x)%nat.
Proof. apply count_occ_app. Qed.

Lemma resolved_app (os : list (Reply * Outcome)) (r : Reply) (o : Outcome) :
  resolved (os ++ [(r, o)]) = (resolved os ++ if terminal o then [r] else [])%list.
Proof.
  unfold resolved. rewrite filter_app, map_app. simpl.
  now destruct (terminal o).
Qed.

Lemma tally_app (o' : Outcome) (os : list (Reply * Outcome)) (r : Reply) (o : Outcome) :
  tally o' (os ++ [(r, o)]) = (tally o' os + if Outcome_eqb o o' then 1 else 0)%nat.
Proof.
  unfold tally. rewrite filter_app, length_app. simpl.
  now destruct (Outcome_eqb o o').
Qed.

(** A visited reply that was not resolved is counted among the visited but
    not among the resolved. *)
Lemma count_resolved_le (os : list (Reply * Outcome)) (x : Reply) :
  (count (resolved os) x <= count (map fst os) x)%nat.
Proof.
  unfold count, resolved. induction os as [|[r o] os IH]; simpl; [lia|].
  destruct (terminal o); simpl; destruct (Reply_eq_dec r x); lia.
Qed.

Lemma count_resolved_lt (os : list (Reply * Outcome)) (r : Reply) (o : Outcome) :
  In (r, o) os -> terminal o = false ->
  (count (resolved os) r < count (map fst os) r)%nat.
Proof.
  intros Hin Ho. induction os as [|[r' o'] os IH]; [contradiction|].
  destruct Hin as [E|Hin].
  - injection E as -> ->. pose proof (count_resolved_le os r) as Hle.
    unfold count, resolved in *. simpl. rewrite Ho.
    destruct (Reply_eq_dec r r); [lia|contradiction].
  - specialize (IH Hin). unfold count, resolved in *. simpl.
    destruct (terminal o'); simpl; destruct (Reply_eq_dec r' r); lia.
Qed.

Lemma Subseq_incl {A} (l1 l2 : list A) : Subseq l1 l2 -> incl l1 l2.
Proof.
  induction 1 as [|x l1 l2 H IH|x l1 l2 H IH]; intros y Hy.
  - exact Hy.
  - destruct Hy as [->|Hy]; [now left|right; now apply IH].
  - right. now apply IH.
Qed.

(** In a queue without repetition, what is kept is the queue without what is
    gone. *)
Lemma Subseq_without (l1 l gone : list Reply) :
  NoDup l -> Subseq l1 l -> Permutation (l1 ++ gone) l -> l1 = without gone l.
Proof.
  intros Hnd Hsub. revert gone Hnd.
  induction Hsub as [|x l1 l2 H IH|x l1 l2 H IH]; intros gone Hnd Hperm.
  - reflexivity.
  - inversion Hnd as [|? ? Hx Hnd']; subst.
    cbn in Hperm. apply Permutation_cons_inv in Hperm.
    unfold without. cbn [filter].
    destruct (in_dec Reply_eq_dec x gone) as [Hin|_].
    + exfalso. apply Hx. apply (Permutation_in x Hperm). apply in_or_app. now right.
    + f_equal. now apply IH.
  - inversion Hnd as [|? ? Hx Hnd']; subst.
    assert (Hg : In x gone).
    { assert (Hin : In x (l1 ++ gone))
        by (apply (Permutation_in x (Permutation_sym Hperm)); now left).
      apply in_app_or in Hin as [Hin|Hin]; [|exact Hin].
      exfalso. apply Hx. now apply (Subseq_incl l1 l2). }
    apply in_split in Hg as [g1 [g2 ->]].
    assert (Hperm' : Permutation (l1 ++ g1 ++ g2) l2).
    { apply Permutation_cons_inv with x.
      rewrite <- Hperm. rewrite !app_assoc. apply Permutation_middle. }
    unfold without. cbn [filter].
    destruct (in_dec Reply_eq_dec x (g1 ++ x :: g2)) as [_|n];
      [|exfalso; apply n, in_elt].
    rewrite (IH (g1 ++ g2)%list Hnd' Hperm'). unfold without.
    apply filter_ext_in. intros y Hy.
    destruct (in_dec Reply_eq_dec y (g1 ++ g2)) as [i|n],
             (in_dec Reply_eq_dec y (g1 ++ x :: g2)) as [i'|n']; try reflexivity.
    + exfalso. apply n'. apply in_app_or in i as [i|i]; apply in_or_app;
        [now left|right; now right].
    + exfalso. apply n. apply in_app_or in i' as [i'|[->|i']].
      * apply in_or_app. now left.
      * contradiction.
      * apply in_or_app. now right.
Qed.
Lemma count_positive_in (l : list Reply) (x : Reply) :
  (0 < count l x)%nat -> In x l.
Proof. intros H. apply (count_occ_In Reply_eq_dec). exact H. Qed.

End QueueFacts.

(** ** The invariant of the pass *)

Section PassFacts.
Variable env : Env.
Variable strptime : string -> option Z.

Lemma Inv_start (w : World) : Inv env w [] (start_pass w).
Proof.
  constructor; cbn; try reflexivity.
  - intros x. unfold count. simpl. lia.
  - apply Subseq_refl.
  - exists []. split; [now rewrite app_nil_r|constructor].
  - intros _. constructor.
Qed.

Lemma count_head (seen rest : list Reply) (reply : Reply) :
  (count seen reply < count (seen ++ reply :: rest) reply)%nat.
Proof.
  rewrite count_app. unfold count at 3. simpl.
  destruct (Reply_eq_dec reply reply); [lia|contradiction].
Qed.

(** The reply being visited is still in the list. *)
Lemma visited_is_pending (w0 : World) (seen rest : list Reply) (reply : Reply)
  (st : PassState) :
  Inv env w0 seen st ->
  load_list (replies_json w0) = (seen ++ reply :: rest)%list ->
  remove_first reply (replies st) <> None.
Proof.
  intros I Hq Hnone. apply remove_first_none in Hnone.
  pose proof (inv_count _ _ _ _ I reply) as Hc.
  pose proof (count_resolved_le (outcomes st) reply) as Hle.
  rewrite (inv_seen _ _ _ _ I) in Hle.
  pose proof (count_head seen rest reply) as Hh. rewrite <- Hq in Hh. lia.
Qed.

Lemma Forall_snoc {A} (P : A -> Prop) (l : list A) (x : A) :
  Forall P l -> P x -> Forall P (l ++ [x]).
Proof. intros Hl Hx. apply Forall_app. split; [exact Hl|now constructor]. Qed.

Lemma Forall2_snoc {A B} (P : A -> B -> Prop) (l : list A) (l' : list B) x y :
  Forall2 P l l' -> P x y -> Forall2 P (l ++ [x]) (l' ++ [y]).
Proof. intros Hl Hx. apply Forall2_app; [exact Hl|now constructor]. Qed.

Lemma step_preserves (w0 : World) (seen rest : list Reply) (reply : Reply)
  (st : PassState) (res : result unit * PassState) :
  Inv env w0 seen st ->
  load_list (replies_json w0) = (seen ++ reply :: rest)%list ->
  step env strptime reply st res ->
  exists st', res = (Ok tt, st') /\ Inv env w0 (seen ++ [reply]) st'.
Proof.
  intros I Hq Hstep.
  pose proof (visited_is_pending _ _ _ _ _ I Hq) as Hpending.
  destruct I as [Iq Iseen Icount Iorder [entries [Ient Imatch]] Ia Ie Is If It].
  destruct Hstep as
    [ st' Hsup [Hq' [Hc' Hn']] Ht' Hr' Hs' Ho'
    | st' left text now Hsup Hd Htr Hdel Hrm Hq' Hn' Hc' Ht' Hr' Hs' Ho'
    | st' Hsup Htr Hdel Hrm
    | st' Hsup Htr Hdel [Hq' [Hc' Hn']] Hl' Ht' Hr' Hs' Ho'
    | st' left sent_at marked_at now Hsup Htr Hdel Hrm Hq' Hn' Hc' Ht' Hr' Hs' Ho'
    | st' Hsup Htr Hdel Hrm
    | st' Hsup Htr Hdel [Hq' [Hc' Hn']] Ht' Hr' Hs' Ho' ];
    try (now elim Hpending);
    exists st'; (split; [reflexivity|]).
  - (* skipped *)
    constructor; rewrite ?Ho', ?Hr', ?Hs', ?Hq', ?Hc', ?resolved_app, ?tally_app,
      ?map_app, ?Iseen; cbn; rewrite ?app_nil_r; try assumption; try lia;
      try reflexivity.
    + exists entries. now split.
    + intros Hall. apply Forall_snoc; [now apply It|]. cbn.
      split; [intros Hx; discriminate Hx|discriminate].
  - (* responded *)
    pose proof (remove_first_count _ _ _ Hrm) as Hcnt.
    constructor; rewrite ?Ho', ?Hr', ?Hs', ?Hq', ?Hc', ?resolved_app, ?tally_app,
      ?map_app, ?Iseen; cbn; try assumption; try lia; try reflexivity.
    + intros x. rewrite count_app. specialize (Icount x). rewrite (Hcnt x) in Icount.
      unfold count at 3. simpl. destruct (Reply_eq_dec reply x); lia.
    + apply Subseq_trans with (replies st); [|exact Iorder].
      now apply remove_first_order with reply.
    + eexists. split; [rewrite Ient, <- app_assoc; reflexivity|].
      apply Forall2_snoc; [exact Imatch|]. now split.
    + intros Hall. apply Forall_snoc; [now apply It|]. cbn.
      split; [intros Hx; discriminate Hx|discriminate].
  - (* the response was not delivered *)
    constructor; rewrite ?Ho', ?Hr', ?Hs', ?Hq', ?Hc', ?resolved_app, ?tally_app,
      ?map_app, ?Iseen; cbn; rewrite ?app_nil_r; try assumption; try lia;
      try reflexivity.
    + exists entries. now split.
    + intros Hall. apply Forall_snoc; [now apply It|]. cbn.
      split; [intros _|discriminate].
      unfold delivered in Hdel. rewrite Hall, andb_true_r in Hdel. exact Hdel.
  - (* escalated *)
    pose proof (remove_first_count _ _ _ Hrm) as Hcnt.
    constructor; rewrite ?Ho', ?Hr', ?Hs', ?Hq', ?Hc', ?resolved_app, ?tally_app,
      ?map_app, ?Iseen; cbn; try assumption; try lia; try reflexivity.
    + intros x. rewrite count_app. specialize (Icount x). rewrite (Hcnt x) in Icount.
      unfold count at 3. simpl. destruct (Reply_eq_dec reply x); lia.
    + apply Subseq_trans with (replies st); [|exact Iorder].
      now apply remove_first_order with reply.
    + eexists. split; [rewrite Ient, <- app_assoc; reflexivity|].
      apply Forall2_snoc; [exact Imatch|]. now split.
    + intros Hall. apply Forall_snoc; [now apply It|]. cbn.
      split; [intros Hx; discriminate Hx|discriminate].
  - (* the notification was not delivered *)
    constructor; rewrite ?Ho', ?Hr', ?Hs', ?Hq', ?Hc', ?resolved_app, ?tally_app,
      ?map_app, ?Iseen; cbn; rewrite ?app_nil_r; try assumption; try lia;
      try reflexivity.
    + exists entries. now split.
    + intros Hall. unfold delivered, notification_mail in Hdel.
      rewrite Hall in Hdel. discriminate.
Qed.

(** The loop never raises and keeps the invariant. *)
Lemma loop_invariant (w0 : World) (copy seen : list Reply) (st : PassState) :
  Inv env w0 seen st ->
  load_list (replies_json w0) = (seen ++ copy)%list ->
  exists st',
    for_each_reply env strptime copy st = (Ok tt, st')
    /\ Inv env w0 (seen ++ copy) st'.
Proof.
  revert seen st. induction copy as [|reply rest IH]; intros seen st I Hq.
  - exists st. split; [reflexivity|now rewrite app_nil_r].
  - destruct (step_preserves _ _ _ _ _ _ I Hq (process_reply_step env strptime reply st))
      as [st1 [E1 I1]].
    destruct (IH (seen ++ [reply])%list st1 I1) as [st' [E' I']].
    + now rewrite <- app_assoc.
    + exists st'. split.
      * cbn [for_each_reply]. unfold bind. now rewrite E1.
      * now rewrite <- app_assoc in I'.
Qed.

Lemma run_loop_invariant (w : World) :
  exists st,
    run_loop env strptime w = (Ok tt, st)
    /\ Inv env w (load_list (replies_json w)) st.
Proof.
  unfold run_loop.
  apply (loop_invariant w (load_list (replies_json w)) [] (start_pass w)).
  - apply Inv_start.
  - reflexivity.
Qed.

End PassFacts.

(** ** The processing pass *)

Section PassClaims.
Variable env : Env.
Variable strptime : string -> option Z.

(** The pass in terms of its loop. *)
Lemma pass_result (w : World) :
  exists st,
    run_loop env strptime w = (Ok tt, st)
    /\ Inv env w (load_list (replies_json w)) st
    /\ process_customer_replies env strptime w
       = (Ok (stats st), set_replies_json (Some (replies st)) (world st)).
Proof.
  destruct (run_loop_invariant env strptime w) as [st [E I]].
  exists st. split; [exact E|]. split; [exact I|].
  unfold process_customer_replies. now rewrite E.
Qed.

Lemma tally_total (os : list (Reply * Outcome)) :
  (tally AiResponded os + tally Escalated os = List.length (resolved os))%nat.
Proof.
  unfold tally, resolved. rewrite length_map.
  induction os as [|[r o] os IH]; [reflexivity|].
  destruct o; simpl; lia.
Qed.

Lemma length_count (l1 l2 l3 : list Reply) :
  (forall x, count l1 x + count l2 x = count l3 x)%nat ->
  Permutation (l1 ++ l2) l3.
Proof.
  intros H. apply (Permutation_count_occ Reply_eq_dec). intros x.
  rewrite count_occ_app. apply H.
Qed.

(** C10.  The pass never raises; it visits every reply of the loaded queue
    once, in order, and then writes the queue file, whatever happened.  What
    it writes is the loaded queue without the resolved replies (those answered
    by the assistant or escalated): the two together are a rearrangement of
    the loaded queue, and the replies kept appear in the order they had, none
    added and none repeated.  When no reply was resolved the loaded queue is
    written back as it was; when the loaded queue has no repetition, what is
    written is the loaded queue with the resolved replies filtered out.
    Replies are compared as [list.remove] compares them, field by field. *)
Theorem queue_after_pass (w : World) :
  exists st,
    run_loop env strptime w = (Ok tt, st)
    /\ fst (process_customer_replies env strptime w) = Ok (stats st)
    /\ replies_json (snd (process_customer_replies env strptime w))
       = Some (replies st)
    /\ map fst (outcomes st) = load_list (replies_json w)
    /\ Subseq (replies st) (load_list (replies_json w))
    /\ Permutation (replies st ++ resolved (outcomes st))
                   (load_list (replies_json w))
    /\ (resolved (outcomes st) = [] -> replies st = load_list (replies_json w))
    /\ (NoDup (load_list (replies_json w)) ->
        replies st = without (resolved (outcomes st)) (load_list (replies_json w))).
Proof.
  destruct (pass_result w) as [st [E [I P]]]. exists st.
  pose proof (length_count _ _ _ (inv_count _ _ _ _ I)) as Hperm.
  rewrite P. repeat split; try assumption.
  - apply (inv_seen _ _ _ _ I).
  - apply (inv_order _ _ _ _ I).
  - intros Hnone. apply Subseq_same_length; [apply (inv_order _ _ _ _ I)|].
    apply Permutation_length in Hperm. rewrite Hnone, app_nil_r in Hperm.
    exact Hperm.
  - intros Hnd. apply Subseq_without; try assumption.
    apply (inv_order _ _ _ _ I).
Qed.

(** C2.  In one pass the replies that leave the queue are exactly the
    resolved ones, each once, and the conversation log grows by exactly one
    entry per resolved reply, in the same order, each entry carrying the
    recipient address the pass used for that reply (the lower-cased sender)
    and its message body; the number of entries is the sum of the two
    counters [ai_responded] and [escalated_to_human]. *)
Theorem removal_is_logged (w : World) :
  exists st entries,
    run_loop env strptime w = (Ok tt, st)
    /\ Permutation
         (load_list (replies_json (snd (process_customer_replies env strptime w)))
          ++ resolved (outcomes st))
         (load_list (replies_json w))
    /\ load_list (conversation_log (snd (process_customer_replies env strptime w)))
       = (load_list (conversation_log w) ++ entries)%list
    /\ Forall2 entry_of (resolved (outcomes st)) entries
    /\ List.length entries
       = (ai_responded (stats st) + escalated_to_human (stats st))%nat
    /\ (List.length
          (load_list (replies_json (snd (process_customer_replies env strptime w))))
        + List.length entries
        = List.length (load_list (replies_json w)))%nat.
Proof.
  destruct (pass_result w) as [st [E [I P]]].
  destruct (inv_entries _ _ _ _ I) as [entries [Hlog Hmatch]].
  exists st, entries.
  pose proof (length_count _ _ _ (inv_count _ _ _ _ I)) as Hperm.
  assert (Hlen : List.length entries = List.length (resolved (outcomes st)))
    by (symmetry; eapply Forall2_length; eassumption).
  rewrite P. cbn [snd set_replies_json replies_json conversation_log load_list].
  repeat split; try assumption.
  - rewrite Hlen, (inv_ai_responded _ _ _ _ I), (inv_escalated _ _ _ _ I).
    symmetry. apply tally_total.
  - apply Permutation_length in Hperm. rewrite length_app in Hperm. lia.
Qed.

End PassClaims.

(** ** Failures and retries *)

Section RetryClaims.
Variable env : Env.
Variable strptime : string -> option Z.

(** A reply visited and not resolved is in the queue the pass writes. *)
Lemma unresolved_is_kept (w : World) (st : PassState) (reply : Reply) (o : Outcome) :
  run_loop env strptime w = (Ok tt, st) ->
  In (reply, o) (outcomes st) -> terminal o = false ->
  In reply (load_list (replies_json (snd (process_customer_replies env strptime w)))).
Proof.
  intros E Hin Ho.
  destruct (pass_result env strptime w) as [st0 [E0 [I P]]].
  rewrite E in E0. injection E0 as <-.
  rewrite P. cbn [snd set_replies_json replies_json load_list].
  apply count_positive_in.
  pose proof (inv_count _ _ _ _ I reply) as Hc.
  pose proof (count_resolved_lt _ _ _ Hin Ho) as Hlt.
  rewrite (inv_seen _ _ _ _ I) in Hlt. lia.
Qed.

(** A reply visited and not resolved is visited again by the next pass. *)
Lemma unresolved_is_revisited (w : World) (st : PassState) (reply : Reply) (o : Outcome) :
  run_loop env strptime w = (Ok tt, st) ->
  In (reply, o) (outcomes st) -> terminal o = false ->
  exists st2,
    run_loop env strptime (snd (process_customer_replies env strptime w)) = (Ok tt, st2)
    /\ In reply (map fst (outcomes st2)).
Proof.
  intros E Hin Ho.
  pose proof (unresolved_is_kept w st reply o E Hin Ho) as Hkept.
  destruct (pass_result env strptime (snd (process_customer_replies env strptime w)))
    as [st2 [E2 [I2 _]]].
  exists st2. split; [exact E2|]. now rewrite (inv_seen _ _ _ _ I2).
Qed.


(** C4 (as amended).  When no usable draft came and the notification is not
    delivered, the loop body adds one to [failed] and to no other counter,
    changes neither the list of replies, nor the queue file, nor the
    conversation log, nor the manual-handling log (so the suppression check
    answers as before); a reply so left is in the queue the pass writes at its
    end and the next pass visits it again.  Whenever it is visited again, it
    is skipped if the suppression check for its sender then answers true, and
    nothing is sent; if the check answers false and again no usable draft
    comes, the notification is attempted again. *)
Theorem notification_failure_keeps_reply :
  (forall reply st,
     suppressed env strptime reply st = false ->
     truthy (fst (draft env strptime reply st)) = false ->
     delivered env strptime (notification_mail env strptime reply st) reply st = false ->
     exists st',
       process_reply env strptime reply st = (Ok tt, st')
       /\ replies st' = replies st
       /\ same_stores (world st) (world st')
       /\ stats st' = set_failed (failed (stats st) + 1) (stats st)
       /\ outcomes st' = (outcomes st ++ [(reply, NotificationFailed)])%list
       /\ (forall now e hours,
             handled_within strptime (notification_log (world st')) now e hours
             = handled_within strptime (notification_log (world st)) now e hours))
  /\ (forall w st reply,
        run_loop env strptime w = (Ok tt, st) ->
        In (reply, NotificationFailed) (outcomes st) ->
        In reply
          (load_list (replies_json (snd (process_customer_replies env strptime w))))
        /\ exists st2,
             run_loop env strptime (snd (process_customer_replies env strptime w))
             = (Ok tt, st2)
             /\ In reply (map fst (outcomes st2)))
  /\ (forall reply st2,
        In reply (replies st2) ->
        (suppressed env strptime reply st2 = true ->
         exists st',
           process_reply env strptime reply st2 = (Ok tt, st')
           /\ outcomes st' = (outcomes st2 ++ [(reply, SkippedManual)])%list
           /\ replies st' = replies st2
           /\ smtp_trace (world st') = smtp_trace (world st2))
        /\ (suppressed env strptime reply st2 = false ->
            truthy (fst (draft env strptime reply st2)) = false ->
            exists st' ok,
              process_reply env strptime reply st2 = (Ok tt, st')
              /\ smtp_trace (world st')
                 = (smtp_trace (world st2)
                    ++ [(notification_mail env strptime reply st2, ok)])%list)).
Proof.
  split; [|split].
  - intros reply st Hsup Htr Hdel.
    pose proof (process_reply_step env strptime reply st) as Hstep.
    remember (process_reply env strptime reply st) as res eqn:Hres.
    destruct Hstep as
      [ st' Hsup' [Hq' [Hc' Hn']] Ht' Hr' Hs' Ho'
    | st' left text now Hsup' Hd' Htr' Hdel' Hrm Hq' Hn' Hc' Ht' Hr' Hs' Ho'
    | st' Hsup' Htr' Hdel' Hrm
    | st' Hsup' Htr' Hdel' Hsame Hl' Ht' Hr' Hs' Ho'
    | st' left sent_at marked_at now Hsup' Htr' Hdel' Hrm Hq' Hn' Hc' Ht' Hr' Hs' Ho'
    | st' Hsup' Htr' Hdel' Hrm
    | st' Hsup' Htr' Hdel' Hsame Ht' Hr' Hs' Ho' ];
      try congruence.
    exists st'. repeat split; try assumption; try apply Hsame.
      intros now e hours. destruct Hsame as [_ [_ ->]]. reflexivity.
  - intros w st reply E Hin. split.
    + now apply (unresolved_is_kept w st reply NotificationFailed).
    + now apply (unresolved_is_revisited w st reply NotificationFailed).
  - intros reply st Hin.
    assert (Hpresent : remove_first reply (replies st) <> None).
    { intros Hrm. apply remove_first_none in Hrm.
      assert (0 < count (replies st) reply)%nat
        by (apply (count_occ_In Reply_eq_dec); exact Hin).
      lia. }
    pose proof (process_reply_step env strptime reply st) as Hstep.
    remember (process_reply env strptime reply st) as res eqn:Hres.
    split.
    + intros Hsup.
      destruct Hstep as
        [ st' Hsup' [Hq' [Hc' Hn']] Ht' Hr' Hs' Ho'
      | st' left text now Hsup' Hd' Htr' Hdel' Hrm Hq' Hn' Hc' Ht' Hr' Hs' Ho'
      | st' Hsup' Htr' Hdel' Hrm
      | st' Hsup' Htr' Hdel' Hsame Hl' Ht' Hr' Hs' Ho'
      | st' left sent_at marked_at now Hsup' Htr' Hdel' Hrm Hq' Hn' Hc' Ht' Hr' Hs' Ho'
      | st' Hsup' Htr' Hdel' Hrm
      | st' Hsup' Htr' Hdel' Hsame Ht' Hr' Hs' Ho' ];
        try congruence.
      exists st'. auto.
    + intros Hsup Htr.
      destruct Hstep as
        [ st' Hsup' [Hq' [Hc' Hn']] Ht' Hr' Hs' Ho'
      | st' left text now Hsup' Hd' Htr' Hdel' Hrm Hq' Hn' Hc' Ht' Hr' Hs' Ho'
      | st' Hsup' Htr' Hdel' Hrm
      | st' Hsup' Htr' Hdel' Hsame Hl' Ht' Hr' Hs' Ho'
      | st' left sent_at marked_at now Hsup' Htr' Hdel' Hrm Hq' Hn' Hc' Ht' Hr' Hs' Ho'
      | st' Hsup' Htr' Hdel' Hrm
      | st' Hsup' Htr' Hdel' Hsame Ht' Hr' Hs' Ho' ];
        try congruence;
        try (rewrite Hd' in Htr; cbn [fst] in Htr; congruence).
      * exists st', true. auto.
      * exists st', false. auto.
Qed.

(** C7.  When the call to the agent raises (or its output does not parse),
    [generate_ai_response] returns no response and the text of the error as
    the reason, without raising; the reply then takes the escalation path:
    the owner's notification is attempted with that reason, and the reply is
    either escalated (conversation entry marked for a human, with the reason)
    or, if the notification is refused, kept in the list. *)
Theorem generator_error_escalates (reply : Reply) (st : PassState) (err : string) :
  suppressed env strptime reply st = false ->
  agent_output env strptime reply st = AgentRaised err ->
  In reply (replies st) ->
  fst (generate_ai_response env (body_of reply) (name_of reply) (email_of reply)
         (after_check env strptime reply st)) = Ok (None, Some err)
  /\ exists st' ok,
       process_reply env strptime reply st = (Ok tt, st')
       /\ smtp_trace (world st')
          = (smtp_trace (world st)
             ++ [(NotificationMail (email_of reply) (name_of reply)
                    (subject_of reply) (body_of reply) (link_of reply) (Some err),
                  ok)])%list
       /\ (ok = true ->
           outcomes st' = (outcomes st ++ [(reply, Escalated)])%list
           /\ exists now,
                conversation_log (world st')
                = Some (load_list (conversation_log (world st))
                        ++ [mkConvEntry now (email_of reply) (name_of reply)
                              (body_of reply) None true (Some err)])%list)
       /\ (ok = false ->
           outcomes st' = (outcomes st ++ [(reply, NotificationFailed)])%list
           /\ replies st' = replies st).
Proof.
  intros Hsup Hout Hin.
  assert (Hd : draft env strptime reply st = (None, Some err))
    by (unfold draft; now rewrite Hout).
  assert (Hmail : notification_mail env strptime reply st
                  = NotificationMail (email_of reply) (name_of reply)
                      (subject_of reply) (body_of reply) (link_of reply) (Some err))
    by (unfold notification_mail; now rewrite Hd).
  split.
  - unfold generate_ai_response. cbn [fst]. f_equal. exact Hd.
  - pose proof (process_reply_step env strptime reply st) as Hstep.
    remember (process_reply env strptime reply st) as res eqn:Hres.
    destruct Hstep as
      [ st' Hsup' [Hq' [Hc' Hn']] Ht' Hr' Hs' Ho'
    | st' left text now Hsup' Hd' Htr' Hdel' Hrm Hq' Hn' Hc' Ht' Hr' Hs' Ho'
    | st' Hsup' Htr' Hdel' Hrm
    | st' Hsup' Htr' Hdel' Hsame Hl' Ht' Hr' Hs' Ho'
    | st' left sent_at marked_at now Hsup' Htr' Hdel' Hrm Hq' Hn' Hc' Ht' Hr' Hs' Ho'
    | st' Hsup' Htr' Hdel' Hrm
    | st' Hsup' Htr' Hdel' Hsame Ht' Hr' Hs' Ho' ];
      try congruence;
      try (rewrite Hd in *; discriminate).
    + exists st', true. split; [reflexivity|].
      rewrite <- Hmail. split; [assumption|]. split; [|discriminate].
      intros _. split; [assumption|]. exists now. rewrite Hd in Hc'. assumption.
    + apply remove_first_none in Hrm.
      assert (0 < count (replies st) reply)%nat
        by (apply (count_occ_In Reply_eq_dec); exact Hin).
      lia.
    + exists st', false. split; [reflexivity|].
      rewrite <- Hmail. split; [assumption|]. split; [discriminate|].
      intros _. split; assumption.
Qed.

Lemma all_resolved (os : list (Reply * Outcome)) :
  tally SkippedManual os = 0%nat ->
  Forall (fun ro => snd ro <> SendFailed /\ snd ro <> NotificationFailed) os ->
  resolved os = map fst os.
Proof.
  unfold tally, resolved. induction os as [|[r o] os IH]; intros Ht Hf; [reflexivity|].
  inversion Hf as [|? ? [H1 H2] Hf']; subst. cbn in *.
  destruct o; cbn in *; try discriminate; try congruence;
    f_equal; now apply IH.
Qed.

(** C6 (as amended).  When SMTP refuses no message, the response to every
    queued reply can be built and no reply was skipped as manually handled,
    the first pass leaves an empty queue and a second pass run on its files
    changes nothing and counts nothing. *)
Theorem second_pass_is_noop (w w1 : World) (stats1 : Stats) :
  (forall n m, smtp_send env n m = true) ->
  (forall reply, In reply (load_list (replies_json w)) -> sendable reply = true) ->
  process_customer_replies env strptime w = (Ok stats1, w1) ->
  skipped_manual stats1 = 0%nat ->
  replies_json w1 = Some []
  /\ process_customer_replies env strptime w1 = (Ok zero_stats, w1).
Proof.
  intros Hsmtp Hsendable Hpass Hskip.
  destruct (pass_result env strptime w) as [st [E [I P]]].
  rewrite P in Hpass. injection Hpass as <- <-.
  assert (Hres : resolved (outcomes st) = map fst (outcomes st)).
  { apply all_resolved.
    - now rewrite <- (inv_skipped _ _ _ _ I).
    - pose proof (inv_transport _ _ _ _ I Hsmtp) as Hall.
      rewrite Forall_forall in *. intros [r o] Hin.
      destruct (Hall (r, o) Hin) as [Hsend Hnot]. split; [|exact Hnot].
      intros Ho. specialize (Hsend Ho). cbn [fst] in Hsend.
      rewrite Hsendable in Hsend; [discriminate|].
      rewrite <- (inv_seen _ _ _ _ I). apply (in_map fst) in Hin. exact Hin. }
  assert (Hnil : replies st = []).
  { apply (count_occ_inv_nil Reply_eq_dec). intros x.
    pose proof (inv_count _ _ _ _ I x) as Hc.
    rewrite Hres, (inv_seen _ _ _ _ I) in Hc. unfold count in Hc. lia. }
  rewrite Hnil. split; reflexivity.
Qed.

End RetryClaims.

(** ** The search predicate *)

Section OrQuery.
Import Discovery.

Lemma halves_lengths {A} (l : list A) :
  (3 <= List.length l)%nat ->
  (1 <= List.length (firstn (List.length l / 2) l) < List.length l)%nat
  /\ (2 <= List.length (skipn (List.length l / 2) l) < List.length l)%nat.
Proof.
  intros H. rewrite length_firstn, length_skipn.
  pose proof (Nat.div_mod_eq (List.length l) 2) as E.
  pose proof (Nat.mod_upper_bound (List.length l) 2) as U. lia.
Qed.

(** For a list with an address, the tree exists, the text built by the
    source is its rendering, and it holds of the messages sent from the
    list. *)
Lemma or_tree_correct (emails : list string) :
  emails <> [] ->
  exists t,
    or_tree emails = Some t
    /\ build_or_query emails = Some (render t)
    /\ forall m, eval t m = is_member emails m.
Proof.
  remember (List.length emails) as n eqn:Hn. revert emails Hn.
  induction n as [n IH] using lt_wf_ind. intros emails Hn Hne.
  destruct emails as [|a [|b [|c l]]].
  - contradiction.
  - exists (Direct a). simp or_tree build_or_query.
    repeat split. intros m. cbn. now rewrite orb_false_r.
  - exists (Pairwise a b). simp or_tree build_or_query.
    repeat split. intros m. cbn. now rewrite orb_false_r.
  - set (emails := a :: b :: c :: l) in *.
    destruct (halves_lengths emails) as [[H1 H2] [H3 H4]]; [cbn; lia|].
    destruct (IH _ ltac:(subst n; exact H2) (firstn (List.length emails / 2) emails) eq_refl)
      as [t1 [E1 [B1 V1]]].
    { intros E. rewrite E in H1. cbn in H1. lia. }
    destruct (IH _ ltac:(subst n; exact H4) (skipn (List.length emails / 2) emails) eq_refl)
      as [t2 [E2 [B2 V2]]].
    { intros E. rewrite E in H3. cbn in H3. lia. }
    exists (Halves t1 t2). subst emails. simp or_tree build_or_query. cbn zeta.
    rewrite E1, E2, B1, B2. repeat split.
    intros m. cbn [eval]. rewrite V1, V2. unfold is_member.
    rewrite <- existsb_app, firstn_skipn. reflexivity.
Qed.

(** C5.  [build_or_query] returns nothing for no address and otherwise the
    text of the OR-tree of the specification (a direct FROM match for one
    address, a pairwise OR for two, above that the OR of the trees of the two
    halves of the list); and that tree selects, from any set of messages,
    exactly those whose sender is in the list, for lists of every length. *)
Theorem or_query_selects_senders (emails : list string) :
  build_or_query emails = option_map render (or_tree emails)
  /\ or_tree [] = None
  /\ (forall a, or_tree [a] = Some (Direct a))
  /\ (forall a b, or_tree [a; b] = Some (Pairwise a b))
  /\ ((2 < List.length emails)%nat ->
      exists l r,
        or_tree (firstn (List.length emails / 2) emails) = Some l
        /\ or_tree (skipn (List.length emails / 2) emails) = Some r
        /\ or_tree emails = Some (Halves l r))
  /\ forall inbox, select (or_tree emails) inbox = from_any emails inbox.
Proof.
  split; [|split; [|split; [|split; [|split]]]].
  - destruct emails as [|a l]; [reflexivity|].
    destruct (or_tree_correct (a :: l)) as [t [E [B _]]]; [discriminate|].
    now rewrite E, B.
  - reflexivity.
  - intros a. now simp or_tree.
  - intros a b. now simp or_tree.
  - intros Hlen. destruct emails as [|a [|b [|c l]]]; try (cbn in Hlen; lia).
    set (emails := a :: b :: c :: l) in *.
    destruct (halves_lengths emails) as [[H1 _] [H3 _]]; [cbn; lia|].
    destruct (or_tree_correct (firstn (List.length emails / 2) emails)) as [t1 [E1 _]].
    { intros E. rewrite E in H1. cbn in H1. lia. }
    destruct (or_tree_correct (skipn (List.length emails / 2) emails)) as [t2 [E2 _]].
    { intros E. rewrite E in H3. cbn in H3. lia. }
    exists t1, t2. repeat split; try assumption.
    subst emails. simp or_tree. cbn zeta. now rewrite E1, E2.
  - intros inbox. destruct emails as [|a l].
    + unfold from_any. cbn. induction inbox; [reflexivity|assumption].
    + destruct (or_tree_correct (a :: l)) as [t [E [_ V]]]; [discriminate|].
      rewrite E. unfold select, from_any. apply filter_ext. exact V.
Qed.

End OrQuery.

Example or_query_five :
  Discovery.build_or_query ["a@x.com"; "b@x.com"; "c@x.com"; "d@x.com"; "e@x.com"]
  = Some ("OR (OR FROM " ++ Discovery.DQUOTE ++ "a@x.com" ++ Discovery.DQUOTE
          ++ " FROM " ++ Discovery.DQUOTE ++ "b@x.com" ++ Discovery.DQUOTE
          ++ ") (OR (FROM " ++ Discovery.DQUOTE ++ "c@x.com" ++ Discovery.DQUOTE
          ++ ") (OR FROM " ++ Discovery.DQUOTE ++ "d@x.com" ++ Discovery.DQUOTE
          ++ " FROM " ++ Discovery.DQUOTE ++ "e@x.com" ++ Discovery.DQUOTE ++ "))").
Proof. reflexivity. Qed.

(** *** Instances of the window properties *)

Lemma suppression_window_witness :
  fst (was_manually_handled Samples.hourly_env Datetime.strptime_fixed "a@x.com" 24
         (snd (mark_as_manually_handled Samples.hourly_env "a@x.com"
                 Samples.empty_world))) = Ok true.
Proof.
  apply (proj1 (suppression_window Samples.hourly_env Datetime.strptime_fixed
                  "a@x.com" "" Samples.empty_world
                  (snd (mark_as_manually_handled Samples.hourly_env "a@x.com"
                          Samples.empty_world))
                  eq_refl eq_refl
                  (fun l (H : In l []) => match H with end)
                  eq_refl eq_refl
                  ltac:(vm_compute; discriminate)));
    vm_compute; reflexivity.
Defined.

(** The claim as first stated fails: marked at 10:30:00.25, the recipient is
    no longer suppressed one microsecond before 24 hours have passed. *)
Lemma suppression_window_counterexample :
  clock Samples.late_env 0 < clock Samples.late_env 1
  /\ clock Samples.late_env 1 < clock Samples.late_env 0 + Datetime.timedelta_hours 24
  /\ fst (was_manually_handled Samples.late_env Datetime.strptime_fixed "a@x.com" 24
            (snd (mark_as_manually_handled Samples.late_env "a@x.com"
                    Samples.empty_world))) = Ok false.
Proof. vm_compute. repeat split. Qed.

(** A recipient text with a line break is not found again. *)
Example line_break_in_recipient :
  fst (was_manually_handled Samples.hourly_env Datetime.strptime_fixed
         ("a@x.com" ++ NL ++ "z") 24
         (snd (mark_as_manually_handled Samples.hourly_env ("a@x.com" ++ NL ++ "z")
                 Samples.empty_world))) = Ok false.
Proof. vm_compute. reflexivity. Qed.

(** An entry appended to an unfinished line is read with that line. *)
Example unfinished_line_before_entry :
  fst (was_manually_handled Samples.hourly_env Datetime.strptime_fixed "a@x.com" 24
         (snd (mark_as_manually_handled Samples.hourly_env "a@x.com"
                 (set_notification_log (Some "x[") Samples.empty_world)))) = Ok false.
Proof. vm_compute. reflexivity. Qed.

Lemma fail_open_witness :
  fst (was_manually_handled Samples.hourly_env Datetime.strptime_fixed "a@x.com" 24
         Samples.corrupt_world) = Ok false
  /\ fst (was_manually_handled Samples.hourly_env Datetime.strptime_fixed "a@x.com" 24
            Samples.half_corrupt_world) = Ok true.
Proof.
  split.
  - apply (proj1 (proj2 (proj2 (proj2
             (fail_open Samples.hourly_env Datetime.strptime_fixed "a@x.com" 24
                Samples.corrupt_world))))
             ("MANUAL_HANDLED a@x.com" ++ NL) [] ("MANUAL_HANDLED a@x.com" ++ NL) []);
      reflexivity.
  - apply (proj2 (proj2 (proj2 (proj2
             (fail_open Samples.hourly_env Datetime.strptime_fixed "a@x.com" 24
                Samples.half_corrupt_world))))
             (handled_line Datetime.sample_time "a@x.com"
              ++ "MANUAL_HANDLED a@x.com" ++ NL)
             [handled_line Datetime.sample_time "a@x.com"]
             ["MANUAL_HANDLED a@x.com" ++ NL]).
    + reflexivity.
    + vm_compute. reflexivity.
    + vm_compute. discriminate.
    + vm_compute. reflexivity.
Defined.

(** The claim as first stated fails: the log holds invalid content, a line
    that names the recipient and carries no timestamp, and the check still
    answers true, because an entry inside the window stands before it. *)
Lemma fail_open_counterexample :
  In ("MANUAL_HANDLED a@x.com" ++ NL)
     (PyStr.readlines (get (notification_log Samples.half_corrupt_world) ""))
  /\ mentions "a@x.com" ("MANUAL_HANDLED a@x.com" ++ NL) = true
  /\ unreadable Datetime.strptime_fixed ("MANUAL_HANDLED a@x.com" ++ NL) = true
  /\ fst (was_manually_handled Samples.hourly_env Datetime.strptime_fixed "a@x.com" 24
            Samples.half_corrupt_world) = Ok true.
Proof.
  split; [vm_compute; right; left; reflexivity|].
  vm_compute. repeat split.
Qed.

Lemma substring_suppression_witness :
  fst (was_manually_handled Samples.hourly_env Datetime.strptime_fixed "b@x.com" 24
         Samples.empty_world) = Ok false
  /\ fst (was_manually_handled Samples.hourly_env Datetime.strptime_fixed "b@x.com" 24
            (snd (mark_as_manually_handled Samples.hourly_env "ab@x.com"
                    Samples.empty_world))) = Ok true.
Proof.
  assert (H := substring_suppression Samples.hourly_env Datetime.strptime_fixed
                 "b@x.com" "ab@x.com" Samples.empty_world eq_refl eq_refl eq_refl
                 ltac:(vm_compute; discriminate) ltac:(vm_compute; reflexivity)).
  split; [exact (proj1 H)|].
  exact (proj1 (proj2 (proj2 H)) eq_refl).
Defined.

(** An address that the marked line does not contain is not suppressed. *)
Example other_address_not_suppressed :
  fst (was_manually_handled Samples.hourly_env Datetime.strptime_fixed "c@x.com" 24
         (snd (mark_as_manually_handled Samples.hourly_env "ab@x.com"
                 Samples.empty_world))) = Ok false.
Proof. vm_compute. reflexivity. Qed.

(** Containment is in the line, not in the address: a text of the label is
    found as well. *)
Example label_text_is_suppressed :
  fst (was_manually_handled Samples.hourly_env Datetime.strptime_fixed "Customer" 24
         (snd (mark_as_manually_handled Samples.hourly_env "ab@x.com"
                 Samples.empty_world))) = Ok true.
Proof. vm_compute. reflexivity. Qed.

(** *** Instances of the pass properties *)



Lemma notification_failure_keeps_reply_witness :
  (exists st',
     process_reply Samples.down_env Datetime.strptime_fixed Samples.first_reply
       (start_pass Samples.one_reply_world) = (Ok tt, st')
     /\ replies st' = [Samples.first_reply]
     /\ stats st' = mkStats 0 0 0 1
     /\ notification_log (world st') = None)
  /\ In Samples.first_reply
       (load_list (replies_json
          (snd (process_customer_replies Samples.down_env Datetime.strptime_fixed
                  Samples.one_reply_world)))).
Proof.
  split.
  - destruct (proj1 (notification_failure_keeps_reply Samples.down_env
                       Datetime.strptime_fixed)
                Samples.first_reply (start_pass Samples.one_reply_world)
                eq_refl eq_refl eq_refl)
      as [st' [E [Hr [[_ [_ Hn]] [Hs _]]]]].
    exists st'. repeat split; assumption.
  - apply (proj1 (proj2 (notification_failure_keeps_reply Samples.down_env
                           Datetime.strptime_fixed))
             Samples.one_reply_world
             (snd (run_loop Samples.down_env Datetime.strptime_fixed
                     Samples.one_reply_world))
             Samples.first_reply).
    + reflexivity.
    + left. reflexivity.
Defined.

(** The claim as first stated fails: the notification for the first of two
    replies of one sender is refused and the reply is kept, the second reply
    is escalated in the same pass and marks the sender, and the next pass
    skips the kept reply instead of retrying its escalation: it hands nothing
    to SMTP. *)
Lemma notification_failure_counterexample :
  map snd (outcomes (snd (run_loop Samples.flaky_env Datetime.strptime_fixed
                            Samples.two_replies_world)))
  = [NotificationFailed; Escalated]
  /\ replies_json
       (snd (process_customer_replies Samples.flaky_env Datetime.strptime_fixed
               Samples.two_replies_world))
     = Some [Samples.first_reply]
  /\ outcomes
       (snd (run_loop Samples.flaky_env Datetime.strptime_fixed
               (snd (process_customer_replies Samples.flaky_env Datetime.strptime_fixed
                       Samples.two_replies_world))))
     = [(Samples.first_reply, SkippedManual)]
  /\ smtp_trace
       (snd (process_customer_replies Samples.flaky_env Datetime.strptime_fixed
               (snd (process_customer_replies Samples.flaky_env Datetime.strptime_fixed
                       Samples.two_replies_world))))
     = smtp_trace
         (snd (process_customer_replies Samples.flaky_env Datetime.strptime_fixed
                 Samples.two_replies_world)).
Proof. vm_compute. repeat split. Qed.

Lemma generator_error_escalates_witness :
  fst (generate_ai_response Samples.hourly_env (body_of Samples.first_reply)
         (name_of Samples.first_reply) (email_of Samples.first_reply)
         (after_check Samples.hourly_env Datetime.strptime_fixed Samples.first_reply
            (start_pass Samples.one_reply_world)))
  = Ok (None, Some "timeout").
Proof.
  apply (proj1 (generator_error_escalates Samples.hourly_env Datetime.strptime_fixed
                  Samples.first_reply (start_pass Samples.one_reply_world) "timeout"
                  eq_refl eq_refl (or_introl eq_refl))).
Defined.

Lemma second_pass_is_noop_witness :
  replies_json
    (snd (process_customer_replies Samples.hourly_env Datetime.strptime_fixed
            Samples.one_reply_world)) = Some [].
Proof.
  apply (proj1 (second_pass_is_noop Samples.hourly_env Datetime.strptime_fixed
                  Samples.one_reply_world _ _
                  (fun _ _ => eq_refl)
                  ltac:(intros reply [<-|[]]; reflexivity)
                  eq_refl eq_refl)).
Defined.

(** A Subject that spans lines keeps its reply in the queue though SMTP
    refuses nothing and nothing was skipped: the response is never built. *)
Example folded_subject_scenario :
  sendable Samples.folded_reply = false
  /\ process_customer_replies Samples.answering_env Datetime.strptime_fixed
       Samples.folded_world
     = (Ok zero_stats, mkWorld 1 (Some [Samples.folded_reply]) None None None []).
Proof. vm_compute. split; reflexivity. Qed.

(** The claim as first stated fails: nothing is refused, yet the second of
    two replies of one sender is skipped once the first has been escalated
    and stays in the queue, and a second pass records another skip. *)
Lemma second_pass_counterexample :
  (forall n m, smtp_send Samples.hourly_env n m = true)
  /\ replies_json
       (snd (process_customer_replies Samples.hourly_env Datetime.strptime_fixed
               Samples.two_replies_world))
     = Some [Samples.second_reply]
  /\ reply_log
       (snd (process_customer_replies Samples.hourly_env Datetime.strptime_fixed
               (snd (process_customer_replies Samples.hourly_env
                       Datetime.strptime_fixed Samples.two_replies_world))))
     <> reply_log
          (snd (process_customer_replies Samples.hourly_env Datetime.strptime_fixed
                  Samples.two_replies_world)).
Proof.
  split; [reflexivity|]. split; [vm_compute; reflexivity|].
  vm_compute. discriminate.
Qed.

Example pass_ai_success_scenario :
  process_customer_replies Samples.answering_env Datetime.strptime_fixed
    Samples.one_reply_world
  = (Ok (mkStats 1 0 0 0),
     mkWorld 4 (Some [])
       (Some [mkConvEntry (Datetime.sample_time + 2 * Datetime.timedelta_hours 1)
                "a@x.com" "A" "How much is it?" (Some "It is 20 euros.") false None])
       None
       (Some ("[2024-01-15 13:30:00] AI_RESPONDED | Customer: a@x.com | Subject: Hello"
              ++ NL))
       [(ResponseMail "a@x.com" "Re: Hello"
           "<html><body><p>Hi A,</p><p>It is 20 euros.</p><p>Regards,<br>Customer Service Team</p></body></html>",
         true)]).
Proof. vm_compute. reflexivity. Qed.

(** Equal reply objects are not told apart: when the second occurrence is
    the one answered, [remove] takes the first out of the list. *)
Example pass_repeated_reply_scenario :
  map snd (outcomes (snd (run_loop Samples.recovering_env Datetime.strptime_fixed
                            Samples.repeated_reply_world)))
  = [SendFailed; SendFailed; AiResponded]
  /\ replies_json
       (snd (process_customer_replies Samples.recovering_env Datetime.strptime_fixed
               Samples.repeated_reply_world))
     = Some [Samples.second_reply; Samples.first_reply].
Proof. vm_compute. split; reflexivity. Qed.

Example pass_escalation_scenario :
  fst (process_customer_replies Samples.hourly_env Datetime.strptime_fixed
         Samples.two_replies_world)
  = Ok (mkStats 0 1 1 0).
Proof. vm_compute. reflexivity. Qed.

Example pass_send_failure_scenario :
  process_customer_replies Samples.refusing_env Datetime.strptime_fixed
    Samples.one_reply_world
  = (Ok zero_stats,
     mkWorld 2 (Some [Samples.first_reply]) None None None
       [(ResponseMail "a@x.com" "Re: Hello"
           "<html><body><p>Hi A,</p><p>It is 20 euros.</p><p>Regards,<br>Customer Service Team</p></body></html>",
         false)]).
Proof. vm_compute. reflexivity. Qed.

(** * Further properties *)

(** ** Whole-pass accounting *)

Section PassAccounting.
Variable env : Env.
Variable strptime : string -> option Z.

(** What every step of the loop keeps, the loop keeps. *)
Lemma for_each_reply_keeps (Q : PassState -> Prop) :
  (forall reply st st',
     Q st -> step env strptime reply st (Ok tt, st') -> Q st') ->
  forall copy st st',
    for_each_reply env strptime copy st = (Ok tt, st') -> Q st -> Q st'.
Proof.
  intros Hstep. induction copy as [|reply rest IH]; intros st st' E HQ.
  - cbn in E. injection E as <-. exact HQ.
  - cbn [for_each_reply] in E. unfold bind in E.
    pose proof (process_reply_step env strptime reply st) as Hs.
    destruct (process_reply env strptime reply st) as [[[]|e] st1];
      [|discriminate].
    apply (IH st1 st' E). now apply (Hstep reply st st1).
Qed.

Lemma tally_all (os : list (Reply * Outcome)) :
  (tally AiResponded os + tally Escalated os + tally SkippedManual os
   + tally NotificationFailed os + tally SendFailed os
   = List.length os)%nat.
Proof.
  unfold tally. induction os as [|[r o] os IH]; [reflexivity|].
  destruct o; cbn in *; lia.
Qed.

(** X1.  The four counters of a pass and the number of responses that were
    not delivered (refused by SMTP, or never built because the mail library
    refused a header) add up to the number of replies loaded: an undelivered
    response is counted by no counter.  The queue written at the end has as
    many replies as were skipped, failed to be notified, or not delivered. *)
Theorem pass_counters (w : World) :
  exists st,
    run_loop env strptime w = (Ok tt, st)
    /\ (ai_responded (stats st) + escalated_to_human (stats st)
        + skipped_manual (stats st) + failed (stats st)
        + tally SendFailed (outcomes st)
        = List.length (load_list (replies_json w)))%nat
    /\ (List.length
          (load_list (replies_json (snd (process_customer_replies env strptime w))))
        = skipped_manual (stats st) + failed (stats st)
          + tally SendFailed (outcomes st))%nat.
Proof.
  destruct (pass_result env strptime w) as [st [E [I P]]]. exists st.
  pose proof (tally_all (outcomes st)) as Hall.
  pose proof (tally_total (outcomes st)) as Hres.
  pose proof (length_count _ _ _ (inv_count _ _ _ _ I)) as Hperm.
  apply Permutation_length in Hperm. rewrite length_app in Hperm.
  rewrite <- (inv_seen _ _ _ _ I), length_map.
  rewrite <- (inv_seen _ _ _ _ I), length_map in Hperm.
  rewrite P. cbn [snd set_replies_json replies_json load_list].
  rewrite (inv_ai_responded _ _ _ _ I), (inv_escalated _ _ _ _ I),
    (inv_skipped _ _ _ _ I), (inv_failed _ _ _ _ I).
  split; [exact E|]. split; lia.
Qed.

End PassAccounting.

(** ** Mail and the manual-handling log over a pass *)

Section PassEffects.
Import PyStr PyStrFacts.
Variable env : Env.
Variable strptime : string -> option Z.

Lemma unbuilt_app (os os' : list (Reply * Outcome)) :
  unbuilt (os ++ os') = (unbuilt os + unbuilt os')%nat.
Proof. unfold unbuilt. now rewrite filter_app, length_app. Qed.

Lemma unbuilt_none (os : list (Reply * Outcome)) :
  (forall ro, In ro os -> sendable (fst ro) = true) -> unbuilt os = 0%nat.
Proof.
  unfold unbuilt. induction os as [|ro os IH]; intros H; [reflexivity|].
  cbn [filter]. rewrite (H ro (or_introl eq_refl)), andb_false_r.
  apply IH. intros x Hx. apply H. now right.
Qed.

Lemma trace_grows_step (w0 : World) (reply : Reply) (st st' : PassState) :
  trace_grows w0 st -> step env strptime reply st (Ok tt, st') ->
  trace_grows w0 st'.
Proof.
  intros [new [Ht [Hl Ha]]] Hstep.
  remember (Ok tt, st') as res eqn:Hres.
  destruct Hstep as
    [ st1 Hsup Hsame Ht' Hr' Hs' Ho'
    | st1 left text now Hsup Hd Htr Hdel Hrm Hq' Hn' Hc' Ht' Hr' Hs' Ho'
    | st1 Hsup Htr Hdel Hrm
    | st1 Hsup Htr Hdel Hsame Hl' Ht' Hr' Hs' Ho'
    | st1 left sent_at marked_at now Hsup Htr Hdel Hrm Hq' Hn' Hc' Ht' Hr' Hs' Ho'
    | st1 Hsup Htr Hdel Hrm
    | st1 Hsup Htr Hdel Hsame Ht' Hr' Hs' Ho' ];
    try discriminate; injection Hres as <-.
  - exists new. rewrite Ht', Ho', !tally_app, unbuilt_app, length_app. cbn.
    repeat split; try lia. exact Ht.
  - exists (new ++ [(response_mail env strptime reply st, true)])%list.
    rewrite Ht', Ho', Ht, !tally_app, unbuilt_app, !length_app. unfold accepted in *.
    rewrite filter_app, length_app, <- List.app_assoc. cbn. repeat split; lia.
  - unfold handed_over in Ht'.
    change (composed (response_mail env strptime reply st)) with (sendable reply) in Ht'.
    destruct (sendable reply) eqn:Hsend.
    + exists (new ++ [(response_mail env strptime reply st, false)])%list.
      rewrite Ht', Ho', Ht, !tally_app, unbuilt_app, !length_app. unfold accepted in *.
      rewrite filter_app, length_app, <- List.app_assoc.
      unfold unbuilt at 2. cbn. rewrite Hsend. cbn. repeat split; lia.
    + exists new.
      rewrite Ht', Ho', Ht, !tally_app, unbuilt_app, !length_app, List.app_nil_r.
      unfold unbuilt at 2. cbn. rewrite Hsend. cbn. repeat split; lia.
  - exists (new ++ [(notification_mail env strptime reply st, true)])%list.
    rewrite Ht', Ho', Ht, !tally_app, unbuilt_app, !length_app. unfold accepted in *.
    rewrite filter_app, length_app, <- List.app_assoc. cbn. repeat split; lia.
  - exists (new ++ [(notification_mail env strptime reply st, false)])%list.
    rewrite Ht', Ho', Ht, !tally_app, unbuilt_app, !length_app. unfold accepted in *.
    rewrite filter_app, length_app, <- List.app_assoc. cbn. repeat split; lia.
Qed.

(** X2.  In one pass exactly one message is handed to SMTP for every reply
    that is neither skipped as manually handled nor left without a response
    that could be built; for a skipped reply, and for one whose response the
    mail library refuses (a Subject that spans lines, a line break in the
    recipient), nothing reaches SMTP.  So when the response to every queued
    reply can be built, the messages handed over and the skipped replies add
    up to the queue.  The messages SMTP accepted are as many as the replies
    counted as answered or escalated.  No message handed over earlier is
    touched. *)
Theorem one_mail_per_reply (w : World) :
  exists st new,
    run_loop env strptime w = (Ok tt, st)
    /\ smtp_trace (snd (process_customer_replies env strptime w))
       = (smtp_trace w ++ new)%list
    /\ (List.length new + skipped_manual (stats st) + unbuilt (outcomes st)
        = List.length (load_list (replies_json w)))%nat
    /\ ((forall reply, In reply (load_list (replies_json w)) -> sendable reply = true) ->
        (List.length new + skipped_manual (stats st)
         = List.length (load_list (replies_json w)))%nat)
    /\ (List.length (accepted new)
        = ai_responded (stats st) + escalated_to_human (stats st))%nat.
Proof.
  destruct (pass_result env strptime w) as [st [E [I P]]].
  assert (H : trace_grows w st).
  { apply (for_each_reply_keeps env strptime (trace_grows w) (trace_grows_step w)
             (load_list (replies_json w)) (start_pass w) st E).
    exists []. cbn. rewrite app_nil_r. repeat split. }
  destruct H as [new [Ht [Hl Ha]]]. exists st, new.
  rewrite P. cbn [snd set_replies_json smtp_trace].
  rewrite (inv_skipped _ _ _ _ I), (inv_ai_responded _ _ _ _ I),
    (inv_escalated _ _ _ _ I), <- (inv_seen _ _ _ _ I), length_map.
  split; [exact E|]. split; [exact Ht|]. split; [exact Hl|]. split; [|exact Ha].
  intros Hall. rewrite unbuilt_none in Hl; [lia|].
  intros ro Hro. apply Hall. now apply in_map.
Qed.

Lemma log_grows_step (w0 : World) (reply : Reply) (st st' : PassState) :
  log_grows w0 st -> step env strptime reply st (Ok tt, st') ->
  log_grows w0 st'.
Proof.
  intros [Hz H] Hstep.
  assert (Hkeep : forall o,
             outcomes st' = (outcomes st ++ [(reply, o)])%list ->
             notification_log (world st') = notification_log (world st) ->
             log_grows w0 st').
  { intros o Hos Hn. split.
    - rewrite Hos, tally_app, Hn. intros Hsum. apply Hz. lia.
    - now rewrite Hn. }
  remember (Ok tt, st') as res eqn:Hres.
  destruct Hstep as
    [ st1 Hsup [_ [_ Hn']] Ht' Hr' Hs' Ho'
    | st1 left text now Hsup Hd Htr Hdel Hrm Hq' Hn' Hc' Ht' Hr' Hs' Ho'
    | st1 Hsup Htr Hdel Hrm
    | st1 Hsup Htr Hdel [_ [_ Hn']] Hl' Ht' Hr' Hs' Ho'
    | st1 left sent_at marked_at now Hsup Htr Hdel Hrm Hq' Hn' Hc' Ht' Hr' Hs' Ho'
    | st1 Hsup Htr Hdel Hrm
    | st1 Hsup Htr Hdel [_ [_ Hn']] Ht' Hr' Hs' Ho' ];
    try discriminate; injection Hres as <-.
  - apply (Hkeep SkippedManual); auto.
  - apply (Hkeep AiResponded); auto.
  - apply (Hkeep SendFailed); auto.
  - split.
    + rewrite Ho', tally_app. cbn. lia.
    + right. rewrite Hn'. destruct H as [->|[suffix ->]].
      * eexists. rewrite !PyStrFacts.app_assoc. reflexivity.
      * eexists. cbn [get]. rewrite !PyStrFacts.app_assoc. reflexivity.
  - apply (Hkeep NotificationFailed); auto.
Qed.

(** X3.  A pass only appends to the manual-handling log, and leaves it as it
    was when nothing was escalated.  So it lifts no suppression: on a log
    ending at a line boundary, a recipient the try block of
    [was_manually_handled] finds handled before the pass is found handled
    after it, for the same clock reading. *)
Theorem pass_appends_to_manual_log (w : World) :
  exists st,
    run_loop env strptime w = (Ok tt, st)
    /\ (escalated_to_human (stats st) = 0%nat ->
        notification_log (snd (process_customer_replies env strptime w))
        = notification_log w)
    /\ (exists suffix,
          get (notification_log (snd (process_customer_replies env strptime w))) ""
          = get (notification_log w) "" ++ suffix)
    /\ (forall now e hours,
          line_terminated (get (notification_log w) "") = true ->
          handled_within strptime (notification_log w) now e hours = Ok true ->
          handled_within strptime
            (notification_log (snd (process_customer_replies env strptime w)))
            now e hours = Ok true).
Proof.
  destruct (pass_result env strptime w) as [st [E [I P]]]. exists st.
  assert (H : log_grows w st).
  { apply (for_each_reply_keeps env strptime (log_grows w) (log_grows_step w)
             (load_list (replies_json w)) (start_pass w) st E).
    split; [reflexivity|now left]. }
  destruct H as [Hz H].
  rewrite P. cbn [snd set_replies_json notification_log].
  split; [exact E|]. split; [|split].
  - intros Hzero. apply Hz. now rewrite <- (inv_escalated _ _ _ _ I).
  - destruct H as [->|[suffix ->]]; [exists ""; now rewrite app_empty_r|].
    now exists suffix.
  - intros now e hours Hterm Hin.
    destruct H as [->|[suffix Hl]]; [exact Hin|]. rewrite Hl.
    destruct (notification_log w) as [old|]; [|discriminate]. cbn [get] in *.
    unfold handled_within in *.
    destruct (_ <? 0); [discriminate|].
    rewrite (readlines_app _ _ Hterm). now apply scan_lines_true_app.
Qed.

End PassEffects.

(** ** Routing of a reply *)

Section Routing.
Import PyStr PyStrFacts Datetime DatetimeFacts.
Variable env : Env.
Variable strptime : string -> option Z.

Ltac step_cases Hstep :=
  destruct Hstep as
    [ st' Hsup' Hsame Ht' Hr' Hs' Ho'
    | st' left text now Hsup' Hd' Htr' Hdel' Hrm Hq' Hn' Hc' Ht' Hr' Hs' Ho'
    | st' Hsup' Htr' Hdel' Hrm
    | st' Hsup' Htr' Hdel' Hsame Hl' Ht' Hr' Hs' Ho'
    | st' left sent_at marked_at now Hsup' Htr' Hdel' Hrm Hq' Hn' Hc' Ht' Hr' Hs' Ho'
    | st' Hsup' Htr' Hdel' Hrm
    | st' Hsup' Htr' Hdel' Hsame Ht' Hr' Hs' Ho' ].

(** X4.  A draft with text is sent to the customer even when the agent
    flagged it [needs_human]: the flag only fills a reason that this path
    does not use.  With agent output [{"response": r, "needs_human": true}],
    [r] not empty and without the intervention marker, the reply takes the
    response path: when the response can be built (the mail library takes
    its Subject and its recipient), the one message handed to SMTP is the
    response, the owner is not notified and the manual-handling log is not
    written; if the message is accepted the exchange is logged with
    [needs_human] false. *)
Theorem flagged_draft_is_sent (reply : Reply) (st : PassState) (r : string) :
  suppressed env strptime reply st = false ->
  agent_output env strptime reply st = AgentJson r true ->
  r <> "" ->
  str_in "NEEDS_HUMAN_INTERVENTION" r = false ->
  sendable reply = true ->
  In reply (replies st) ->
  draft env strptime reply st = (Some r, Some "Complex query")
  /\ exists st' ok,
       process_reply env strptime reply st = (Ok tt, st')
       /\ smtp_trace (world st')
          = (smtp_trace (world st) ++ [(response_mail env strptime reply st, ok)])%list
       /\ notification_log (world st') = notification_log (world st)
       /\ (ok = true ->
           outcomes st' = (outcomes st ++ [(reply, AiResponded)])%list
           /\ exists now,
                conversation_log (world st')
                = Some (load_list (conversation_log (world st))
                        ++ [mkConvEntry now (email_of reply) (name_of reply)
                              (body_of reply) (Some r) false None])%list)
       /\ (ok = false ->
           outcomes st' = (outcomes st ++ [(reply, SendFailed)])%list).
Proof.
  intros Hsup Hout Hne Hmark Hsend Hin.
  assert (Hd : draft env strptime reply st = (Some r, Some "Complex query"))
    by (unfold draft; rewrite Hout; cbn [interpret]; now rewrite Hmark).
  assert (Htruthy : truthy (fst (draft env strptime reply st)) = true)
    by (rewrite Hd; destruct r; [contradiction|reflexivity]).
  split; [exact Hd|].
  pose proof (process_reply_step env strptime reply st) as Hstep.
  remember (process_reply env strptime reply st) as res eqn:Hres.
  step_cases Hstep; try congruence.
  - assert (Ht : text = r) by (rewrite Hd in Hd'; cbn in Hd'; congruence).
    subst text. exists st', true.
    split; [reflexivity|]. split; [exact Ht'|]. split; [exact Hn'|].
    split; [|intros Hf; discriminate Hf].
    intros _. split; [exact Ho'|]. exists now. exact Hc'.
  - apply remove_first_none in Hrm.
    assert (0 < count (replies st) reply)%nat
      by (apply (count_occ_In Reply_eq_dec); exact Hin).
    lia.
  - exists st', false. destruct Hsame as [_ [_ Hn']].
    unfold handed_over in Ht'.
    change (composed (response_mail env strptime reply st)) with (sendable reply) in Ht'.
    rewrite Hsend in Ht'.
    split; [reflexivity|]. split; [exact Ht'|]. split; [exact Hn'|].
    split; [intros Hf; discriminate Hf|]. intros _. exact Ho'.
Qed.

End Routing.

(** ** Escalation and the window *)

Section Escalation.
Import PyStr PyStrFacts Datetime DatetimeFacts.
Variable env : Env.
Variable strptime : string -> option Z.

(** The manual-handling log after the escalation of a reply: the line of
    the notification, then the line of the mark, each with its own clock
    reading. *)
Lemma escalation_log (reply : Reply) (st : PassState) :
  suppressed env strptime reply st = false ->
  truthy (fst (draft env strptime reply st)) = false ->
  delivered env strptime (notification_mail env strptime reply st) reply st = true ->
  notification_log (world (snd (process_reply env strptime reply st)))
  = Some ((get (notification_log (world st)) ""
           ++ "[" ++ strftime (clock env (2 + tick (after_check env strptime reply st)))
           ++ "] NOTIFICATION_SENT | Customer: " ++ email_of reply
           ++ " | Reason: " ++ fmt (snd (draft env strptime reply st)) ++ NL)
          ++ handled_line (clock env (3 + tick (after_check env strptime reply st)))
               (email_of reply)).
Proof.
  intros Hsup Htr Hdel.
  pose proof (was_manually_handled_run env strptime (email_of reply) 24 (world st))
    as [b [w1 [Hrun [[Hq [Hc Hn]] [Hs Hr]]]]].
  assert (Hb : b = false) by (unfold suppressed in Hsup; now rewrite Hrun in Hsup).
  subst b.
  assert (Hw1 : after_check env strptime reply st = w1)
    by (unfold after_check; now rewrite Hrun).
  rewrite Hw1 in *.
  unfold process_reply, bind at 1, lift at 1.
  fold (email_of reply). rewrite Hrun.
  unfold bind at 1, lift at 1, generate_ai_response. cbn [world set_world].
  fold (name_of reply) (body_of reply).
  assert (Hout : interpret (run_agent env (tick w1)
                   ("Customer " ++ name_of reply ++ " asked: '" ++ body_of reply ++ "'."))
                 = draft env strptime reply st)
    by (unfold draft, agent_output; now rewrite Hw1).
  rewrite Hout. destruct (draft env strptime reply st) as [ai reason] eqn:Hd.
  cbn [fst snd] in *. rewrite Htr.
  unfold bind at 1, lift at 1, send_notification_to_user, bind at 1, smtp.
  cbn [world set_world tick set_tick].
  fold (subject_of reply) (link_of reply).
  assert (Hmail : NotificationMail (email_of reply) (name_of reply) (subject_of reply)
            (body_of reply) (link_of reply) reason
          = notification_mail env strptime reply st)
    by (unfold notification_mail; now rewrite Hd).
  rewrite Hmail.
  assert (Hdel' : smtp_send env (S (tick w1)) (notification_mail env strptime reply st) = true)
    by (unfold delivered in Hdel; now rewrite Hw1 in Hdel).
  rewrite Hdel'.
  unfold bind, lift, list_remove, log_conversation, log_reply_status, add_stat,
    mark_as_manually_handled, note, modify, load_json_file, save_json_file,
    gets, datetime_now, ret.
  cbn -[Datetime.strftime append handled_line fmt load_list remove_first].
  destruct (remove_first reply (replies st));
    cbn -[Datetime.strftime append handled_line fmt load_list remove_first];
    rewrite Hn; reflexivity.
Qed.

(** X5.  A successful escalation starts the window for its sender: with the
    manual-handling log as the loop body leaves it, a check of the same
    sender answers true at every clock reading before the reading of the mark
    (cut to the second) plus 24 hours.  Assumed: the sender's address holds no
    line break, no line of the log before the new mark mentions the address
    together with MANUAL_HANDLED, the written timestamp reads back, and the
    query time minus 24 hours is a datetime. *)
Theorem escalation_starts_window (reply : Reply) (st : PassState) (wq : World) :
  suppressed env strptime reply st = false ->
  truthy (fst (draft env strptime reply st)) = false ->
  delivered env strptime (notification_mail env strptime reply st) reply st = true ->
  single_line (email_of reply) = true ->
  (forall l,
     In l (removelast
             (readlines (get (notification_log
                                (world (snd (process_reply env strptime reply st)))) ""))) ->
     mentions (email_of reply) l = false) ->
  notification_log wq
  = notification_log (world (snd (process_reply env strptime reply st))) ->
  strptime (strftime (clock env (3 + tick (after_check env strptime reply st))))
  = Some (whole_second (clock env (3 + tick (after_check env strptime reply st)))) ->
  timedelta_hours 24 <= clock env (tick wq) ->
  clock env (tick wq)
  < whole_second (clock env (3 + tick (after_check env strptime reply st)))
    + timedelta_hours 24 ->
  fst (was_manually_handled env strptime (email_of reply) 24 wq) = Ok true.
Proof.
  intros Hsup Htr Hdel Hline Hno Hlog Hp Hnow Hwin.
  rewrite (escalation_log reply st Hsup Htr Hdel) in Hlog, Hno.
  cbn [get] in Hno.
  set (before := get (notification_log (world st)) ""
                 ++ "[" ++ strftime (clock env (2 + tick (after_check env strptime reply st)))
                 ++ "] NOTIFICATION_SENT | Customer: " ++ email_of reply
                 ++ " | Reason: " ++ fmt (snd (draft env strptime reply st)) ++ NL) in *.
  assert (Hterm : line_terminated before = true).
  { unfold before, NL. rewrite <- !PyStrFacts.app_assoc. apply line_terminated_app. }
  rewrite (readlines_app _ _ Hterm), (readlines_handled_line _ _ Hline) in Hno.
  rewrite removelast_last in Hno.
  assert (HinR : str_in (email_of reply) (email_of reply) = true).
  { rewrite <- (app_empty_r (email_of reply)) at 2.
    apply (str_in_app (email_of reply) "" ""). }
  rewrite <- (app_empty_r (handled_line _ _)) in Hlog.
  rewrite (was_manually_handled_some env strptime _ _ _ _ Hlog).
  change before with (get (Some before) "").
  rewrite (handled_within_marked strptime (Some before) "" (email_of reply)
             (email_of reply)); try assumption.
  - f_equal. apply Z.ltb_lt. lia.
  - cbn [get readlines]. rewrite List.app_nil_r. exact Hno.
Qed.

End Escalation.

(** ** The conversation history *)

Section HistoryFacts.
Import PyStr PyStrFacts.

Lemma lastn_app_short {A} (n : nat) (l1 l2 : list A) :
  (n <= List.length l2)%nat -> lastn n (l1 ++ l2) = lastn n l2.
Proof.
  intros H. unfold lastn. rewrite length_app, skipn_app.
  rewrite (@skipn_all2 A _ l1) by lia.
  replace (List.length l1 + List.length l2 - n - List.length l1)%nat
    with (List.length l2 - n)%nat by lia.
  reflexivity.
Qed.

Lemma lastn_snoc {A} (n : nat) (l : list A) (x : A) :
  lastn (S n) (l ++ [x]) = (lastn n l ++ [x])%list.
Proof.
  unfold lastn. rewrite length_app, skipn_app. cbn [List.length].
  replace (List.length l + 1 - S n)%nat with (List.length l - n)%nat by lia.
  replace (List.length l - n - List.length l)%nat with 0%nat by lia.
  reflexivity.
Qed.

Lemma lastn_not_nil {A} (n : nat) (l : list A) :
  l <> [] -> lastn (S n) l <> [].
Proof.
  intros Hl E. apply (f_equal (@List.length A)) in E.
  unfold lastn in E. rewrite length_skipn in E.
  destruct l; [contradiction|]. cbn [List.length] in E. lia.
Qed.

Lemma concat_snoc (sep : string) (ls : list string) (x : string) :
  exists pre, String.concat sep (ls ++ [x]) = pre ++ x.
Proof.
  induction ls as [|y ls [pre IH]].
  - now exists "".
  - exists (y ++ sep ++ pre). cbn [List.app String.concat].
    destruct (ls ++ [x])%list eqn:E.
    + now destruct ls.
    + rewrite IH, !PyStrFacts.app_assoc. reflexivity.
Qed.

Lemma concat_head (sep x : string) (ls : list string) :
  exists rest, String.concat sep (x :: ls) = x ++ rest.
Proof.
  destruct ls as [|y ls].
  - exists "". cbn. now rewrite app_empty_r.
  - now exists (sep ++ String.concat sep (y :: ls)).
Qed.

Lemma history_text (email : string) (w : World) :
  get_conversation_history email w
  = (Ok (match filter (fun c => String.eqb (customer_email c) email)
                 (load_list (conversation_log w)) with
         | [] => "No previous conversation history."
         | _ :: _ =>
             String.concat NL
               (map history_line
                  (lastn 3 (filter (fun c => String.eqb (customer_email c) email)
                              (load_list (conversation_log w)))))
         end), w).
Proof. reflexivity. Qed.

(** X6.  [get_conversation_history] reads without writing and never returns
    the empty text: with no entry of the customer in the log (or no readable
    log) it returns the sentence "No previous conversation history.", and with
    one it returns a text that starts with "Previous: ". *)
Theorem history_is_never_empty (email : string) (w : World) :
  exists text,
    get_conversation_history email w = (Ok text, w)
    /\ text <> ""
    /\ ((forall c, In c (load_list (conversation_log w)) -> customer_email c <> email) ->
        text = "No previous conversation history.")
    /\ ((exists c, In c (load_list (conversation_log w)) /\ customer_email c = email) ->
        String.prefix "Previous: " text = true).
Proof.
  rewrite history_text. eexists. split; [reflexivity|].
  set (f := fun c => String.eqb (customer_email c) email).
  destruct (filter f (load_list (conversation_log w))) as [|c0 h] eqn:E.
  - split; [discriminate|]. split; [reflexivity|].
    intros [c [Hin Hc]]. exfalso.
    assert (Hf : In c (filter f (load_list (conversation_log w)))).
    { apply filter_In. split; [exact Hin|]. unfold f. now apply String.eqb_eq. }
    rewrite E in Hf. exact Hf.
  - assert (Hne : lastn 3 (c0 :: h) <> []) by (apply lastn_not_nil; discriminate).
    destruct (lastn 3 (c0 :: h)) as [|c1 t]; [contradiction|].
    cbn [map]. destruct (concat_head NL (history_line c1) (map history_line t))
      as [rest ->].
    split; [discriminate|]. split.
    + intros Hnone. exfalso.
      assert (Hf : In c0 (filter f (load_list (conversation_log w))))
        by (rewrite E; now left).
      apply filter_In in Hf as [Hin Hc]. apply (Hnone c0 Hin).
      unfold f in Hc. now apply String.eqb_eq.
    + intros _. unfold history_line. rewrite PyStrFacts.app_assoc.
      apply prefix_app.
Qed.

(** X7.  Only the last three entries of the customer count: entries of
    other customers, and entries of the customer older than the last three,
    can be taken out of the log without changing the history text. *)
Theorem history_is_a_window (email : string) (w : World) (older recent : list ConvEntry) :
  conversation_log w = Some (older ++ recent)%list ->
  (3 <= List.length (filter (fun c => String.eqb (customer_email c) email) recent))%nat ->
  fst (get_conversation_history email w)
  = fst (get_conversation_history email
           (set_conversation_log
              (Some (filter (fun c => String.eqb (customer_email c) email) recent)) w)).
Proof.
  intros Hlog Hlen. rewrite !history_text. cbn [fst].
  cbn [conversation_log set_conversation_log load_list]. rewrite Hlog.
  cbn [load_list].
  set (f := fun c => String.eqb (customer_email c) email) in *.
  assert (Hff : filter f (filter f recent) = filter f recent).
  { apply forallb_filter_id. apply forallb_forall. intros c Hc.
    now apply filter_In in Hc. }
  rewrite Hff, filter_app.
  destruct (filter f recent) as [|c1 t] eqn:E; [cbn in Hlen; lia|].
  rewrite lastn_app_short by exact Hlen.
  destruct (filter f older); reflexivity.
Qed.

(** X8.  What [log_conversation] writes is what [get_conversation_history]
    reads last: after an exchange with a customer has been logged, the
    customer's history ends with the line of that exchange, the response
    written as [None] when there was none. *)
Theorem logged_exchange_ends_history (env : Env) (email name msg : string)
  (response : option string) (flag : bool) (reason : option string) (w : World) :
  exists text before,
    get_conversation_history email
      (snd (log_conversation env email name msg response flag reason w))
    = (Ok text, snd (log_conversation env email name msg response flag reason w))
    /\ text = before ++ "Previous: " ++ msg ++ " | Response: " ++ fmt response.
Proof.
  rewrite history_text.
  cbn [log_conversation bind load_json_file gets datetime_now save_json_file
       modify snd conversation_log set_conversation_log set_tick load_list].
  set (f := fun c => String.eqb (customer_email c) email).
  set (entry := mkConvEntry (clock env (tick w)) email name msg response flag reason).
  assert (Hf : f entry = true) by apply String.eqb_refl.
  rewrite filter_app. cbn [filter]. rewrite Hf.
  destruct (filter f (load_list (conversation_log w)) ++ [entry])%list eqn:E.
  - destruct (filter f (load_list (conversation_log w))); discriminate.
  - rewrite <- E, lastn_snoc, map_app. cbn [map].
    destruct (concat_snoc NL
                (map history_line (lastn 2 (filter f (load_list (conversation_log w)))))
                (history_line entry)) as [pre Hpre].
    eexists. exists pre. split; [reflexivity|]. exact Hpre.
Qed.

End HistoryFacts.

(** ** More on the search predicate *)

Section OrQueryMore.
Import PyStr PyStrFacts Discovery.

Lemma str_in_widen (x s a b : string) :
  str_in x s = true -> str_in x (a ++ s ++ b) = true.
Proof.
  intros H. apply str_in_split in H as [p [q ->]].
  replace (a ++ (p ++ x ++ q) ++ b) with ((a ++ p) ++ x ++ (q ++ b))
    by (now rewrite !PyStrFacts.app_assoc).
  apply str_in_app.
Qed.

Lemma str_in_refl (x : string) : str_in x x = true.
Proof.
  apply str_in_prefix. pose proof (prefix_app x "") as H.
  now rewrite app_empty_r in H.
Qed.

Lemma str_in_end (x a : string) : str_in x (a ++ x) = true.
Proof.
  pose proof (str_in_app x a "") as H. now rewrite app_empty_r in H.
Qed.

(** X9.  No address is lost on the way: the text returned by
    [build_or_query] for a list holds the key FROM "a" of each of its
    addresses [a]. *)
Theorem or_query_names_every_address (emails : list string) (a : string) :
  In a emails ->
  exists q, build_or_query emails = Some q /\ str_in (from_key a) q = true.
Proof.
  remember (List.length emails) as n eqn:Hn. revert emails Hn a.
  induction n as [n IH] using lt_wf_ind. intros emails Hn a Hin.
  destruct emails as [|x [|y [|z l]]].
  - contradiction.
  - destruct Hin as [->|[]]. simp build_or_query. eexists. split; [reflexivity|].
    apply str_in_refl.
  - simp build_or_query. eexists. split; [reflexivity|].
    destruct Hin as [->|[->|[]]].
    + apply (str_in_app (from_key a) "OR " (" " ++ from_key y)).
    + replace ("OR " ++ from_key x ++ " " ++ from_key a)
        with (("OR " ++ from_key x ++ " ") ++ from_key a)
        by (now rewrite !PyStrFacts.app_assoc).
      apply str_in_end.
  - set (emails := x :: y :: z :: l) in *.
    destruct (halves_lengths emails) as [[H1 H2] [H3 H4]]; [cbn; lia|].
    rewrite <- (firstn_skipn (List.length emails / 2) emails) in Hin.
    subst emails. simp build_or_query. cbn zeta.
    set (emails := x :: y :: z :: l) in *.
    apply in_app_or in Hin as [Hin|Hin].
    + destruct (IH _ ltac:(subst n; exact H2) _ eq_refl a Hin) as [q1 [E1 S1]].
      rewrite E1. eexists. split; [reflexivity|]. cbn [fmt get].
      apply (str_in_widen _ q1 "OR (" _ S1).
    + destruct (IH _ ltac:(subst n; exact H4) _ eq_refl a Hin) as [q2 [E2 S2]].
      rewrite E2. eexists. split; [reflexivity|]. cbn [fmt get].
      match goal with
      | |- str_in _ ("OR (" ++ ?p ++ ") (" ++ q2 ++ ")") = true =>
          replace ("OR (" ++ p ++ ") (" ++ q2 ++ ")")
            with (("OR (" ++ p ++ ") (") ++ q2 ++ ")")
            by (now rewrite !PyStrFacts.app_assoc)
      end.
      now apply str_in_widen.
Qed.

(** The tree of a list with an address: its addresses and its depth. *)
Lemma or_tree_layout (emails : list string) :
  emails <> [] ->
  exists t,
    or_tree emails = Some t
    /\ addresses t = emails
    /\ ((2 <= List.length emails)%nat ->
        (2 ^ or_depth t <= 2 * List.length emails - 2)%nat).
Proof.
  remember (List.length emails) as n eqn:Hn. revert emails Hn.
  induction n as [n IH] using lt_wf_ind. intros emails Hn Hne. subst n.
  destruct emails as [|x [|y [|z l]]].
  - contradiction.
  - exists (Direct x). simp or_tree. repeat split. intros H. cbn in H. lia.
  - exists (Pairwise x y). simp or_tree. repeat split. intros _. apply Nat.le_refl.
  - set (emails := x :: y :: z :: l) in *.
    destruct (halves_lengths emails) as [[H1 H2] [H3 H4]]; [cbn; lia|].
    destruct (IH _ H2 (firstn (List.length emails / 2) emails) eq_refl)
      as [t1 [E1 [A1 D1]]].
    { intros E. rewrite E in H1. cbn in H1. lia. }
    destruct (IH _ H4 (skipn (List.length emails / 2) emails) eq_refl)
      as [t2 [E2 [A2 D2]]].
    { intros E. rewrite E in H3. cbn in H3. lia. }
    exists (Halves t1 t2). split; [|split].
    + subst emails. simp or_tree. cbn zeta. now rewrite E1, E2.
    + cbn [addresses]. rewrite A1, A2. apply firstn_skipn.
    + intros _. cbn [or_depth]. rewrite Nat.pow_succ_r'.
      specialize (D2 H3).
      assert (Hsum : (List.length (firstn (List.length emails / 2) emails)
                      + List.length (skipn (List.length emails / 2) emails)
                      = List.length emails)%nat)
        by (rewrite <- length_app, firstn_skipn; reflexivity).
      assert (Hle : (List.length (firstn (List.length emails / 2) emails)
                     <= List.length (skipn (List.length emails / 2) emails)
                     <= List.length (firstn (List.length emails / 2) emails) + 1)%nat).
      { rewrite length_firstn, length_skipn.
        pose proof (Nat.div_mod_eq (List.length emails) 2).
        pose proof (Nat.mod_upper_bound (List.length emails) 2). lia. }
      assert (D1' : (2 ^ or_depth t1
                     <= 2 * List.length (skipn (List.length emails / 2) emails) - 2)%nat).
      { destruct (Nat.le_gt_cases 2 (List.length (firstn (List.length emails / 2) emails)))
          as [Hbig|Hsmall].
        - specialize (D1 Hbig). lia.
        - assert (Hone : List.length (firstn (List.length emails / 2) emails) = 1%nat) by lia.
          destruct (firstn (List.length emails / 2) emails) as [|u [|v r]] eqn:Ef;
            try (cbn in Hone; lia).
          rewrite or_tree_equation_2 in E1. injection E1 as <-.
          cbn [or_depth Nat.pow]. lia. }
      destruct (Nat.max_spec (or_depth t1) (or_depth t2)) as [[_ ->]|[_ ->]]; lia.
Qed.

(** X10.  The text returned by [build_or_query] for a list with an address
    is the rendering of an OR-tree whose addresses, read left to right, are
    the list itself: every address once, in the order given, whatever the
    points at which the list was split. *)
Theorem or_query_keeps_addresses (emails : list string) :
  emails <> [] ->
  exists t,
    or_tree emails = Some t
    /\ build_or_query emails = Some (render t)
    /\ addresses t = emails.
Proof.
  intros Hne.
  destruct (or_tree_layout emails Hne) as [t [E [A _]]].
  destruct (or_tree_correct emails Hne) as [t' [E' [B _]]].
  rewrite E in E'. injection E' as <-. now exists t.
Qed.

(** X11.  Splitting in halves keeps the nesting shallow: for a list of
    [n >= 2] addresses the ORs of the text returned by [build_or_query] are
    nested [d] deep with [2 ^ d <= 2 * n - 2]. *)
Theorem or_query_depth_is_logarithmic (emails : list string) :
  (2 <= List.length emails)%nat ->
  exists t,
    or_tree emails = Some t
    /\ build_or_query emails = Some (render t)
    /\ (2 ^ or_depth t <= 2 * List.length emails - 2)%nat.
Proof.
  intros Hlen.
  assert (Hne : emails <> []) by (intros ->; cbn in Hlen; lia).
  destruct (or_tree_layout emails Hne) as [t [E [_ D]]].
  destruct (or_tree_correct emails Hne) as [t' [E' [B _]]].
  rewrite E in E'. injection E' as <-. exists t. auto.
Qed.

End OrQueryMore.

(** ** The send ledger *)

Example ledger_entry_sent :
  ledger_entry Datetime.sample_time "sent" "Ann" "Ann@X.com" "Email sent" "Hi"
  = "[2024-01-15 10:30:00] SENT | Name: Ann | Email: Ann@X.com | Reason: Email sent | Subject: Hi".
Proof. vm_compute. reflexivity. Qed.

Example ledger_entry_failed :
  ledger_entry Datetime.sample_time "failed" "Ann" "ann@x.com" "Send error: x" "Hi"
  = "[2024-01-15 10:30:00] FAILED | Name: Ann | Email: ann@x.com | Reason: Send error: x".
Proof. vm_compute. reflexivity. Qed.

Example load_sent_emails_sample :
  load_sent_emails
    (Some ("[2024-01-15 10:30:00] SENT | Name: Ann | Email: Ann@X.com | Reason: Email sent" ++ NL
           ++ "[2024-01-15 10:30:01] FAILED | Name: Bob | Email: bob@x.com | Reason: Send error: x" ++ NL
           ++ "[2024-01-15 10:30:02] SENT | Name: Cy | Email: cy@x.com" ++ NL
           ++ "[2024-01-15 10:30:03] SENT | Name: Ann | Email: ann@x.com | Reason: Email sent" ++ NL))
  = ["ann@x.com"; "cy@x.com"].
Proof. vm_compute. reflexivity. Qed.

Section SplitFacts.
Import PyStr PyStrFacts.

Lemma split_go_scan (sep : string) (c : ascii) (cur s : string) :
  split_go sep 0 cur (String c s)
  = if String.prefix sep (String c s)
    then rev_string "" cur :: split_go sep (String.length sep - 1) "" s
    else split_go sep 0 (String c cur) s.
Proof. reflexivity. Qed.

Lemma split_go_skip (sep a cur rest : string) :
  no_hit sep a rest = true ->
  split_go sep 0 cur (a ++ rest) = split_go sep 0 (rev_string cur a) rest.
Proof.
  revert cur. induction a as [|c a IH]; intros cur H; [reflexivity|].
  cbn [no_hit] in H. apply andb_prop in H as [H1 H2].
  apply negb_true_iff in H1.
  change (String c a ++ rest) with (String c (a ++ rest)) in *.
  rewrite split_go_scan, H1. now apply IH.
Qed.

Lemma split_go_drop (sep a cur rest : string) :
  split_go sep (String.length a) cur (a ++ rest) = split_go sep 0 cur rest.
Proof. induction a as [|c a IH]; [reflexivity|exact IH]. Qed.

Lemma split_go_hit (sep cur rest : string) :
  sep <> "" ->
  split_go sep 0 cur (sep ++ rest) = rev_string "" cur :: split_go sep 0 "" rest.
Proof.
  intros Hne. destruct sep as [|c sep']; [contradiction|].
  change (String c sep' ++ rest) with (String c (sep' ++ rest)).
  rewrite split_go_scan.
  change (String c (sep' ++ rest)) with (String c sep' ++ rest).
  rewrite prefix_app.
  replace (String.length (String c sep') - 1)%nat with (String.length sep')
    by (cbn [String.length]; lia).
  now rewrite split_go_drop.
Qed.

Lemma split_go_skip_not_nil (sep : string) (k : nat) (cur s : string) :
  split_go sep k cur s <> [].
Proof.
  revert k cur. induction s as [|c s IH]; intros k cur; [discriminate|].
  destruct k as [|k]; [|apply IH].
  rewrite split_go_scan. destruct (String.prefix sep (String c s));
    [discriminate|apply IH].
Qed.

Lemma hd_split_go_any (sep cur s : string) :
  exists z, hd "" (split_go sep 0 cur s) = rev_string "" cur ++ z.
Proof.
  revert cur. induction s as [|c s IH]; intros cur.
  - exists "". cbn. now rewrite app_empty_r.
  - rewrite split_go_scan. destruct (String.prefix sep (String c s)).
    + exists "". cbn. now rewrite app_empty_r.
    + destruct (IH (String c cur)) as [z Hz]. exists (String c z).
      rewrite Hz. cbn. rewrite (rev_string_app (String c "")), PyStrFacts.app_assoc.
      reflexivity.
Qed.

(** The field after the first separator starts with any text in which no
    separator begins. *)
Lemma split_second_field_any (sep pre a rest : string) :
  sep <> "" ->
  no_hit sep pre (sep ++ a ++ rest) = true ->
  no_hit sep a rest = true ->
  exists z, nth_error (split sep (pre ++ sep ++ a ++ rest)) 1 = Some (a ++ z).
Proof.
  intros Hne Hpre Ha. unfold split.
  rewrite (split_go_skip _ _ _ _ Hpre), (split_go_hit _ _ _ Hne).
  cbn [nth_error]. rewrite (split_go_skip _ _ _ _ Ha).
  destruct (hd_split_go_any sep (rev_string "" a) rest) as [z Hz].
  rewrite rev_string_involutive in Hz. exists z.
  destruct (split_go sep 0 (rev_string "" a) rest) eqn:E.
  - now apply split_go_skip_not_nil in E.
  - cbn in *. now rewrite Hz.
Qed.

Lemma split_second_field_last (sep pre a : string) :
  sep <> "" ->
  no_hit sep pre (sep ++ a) = true ->
  no_hit sep a "" = true ->
  nth_error (split sep (pre ++ sep ++ a)) 1 = Some a.
Proof.
  intros Hne Hpre Ha. unfold split.
  rewrite (split_go_skip _ _ _ _ Hpre), (split_go_hit _ _ _ Hne).
  cbn [nth_error]. rewrite <- (app_empty_r a) at 1.
  rewrite (split_go_skip _ _ _ _ Ha). cbn.
  now rewrite rev_string_involutive.
Qed.

Lemma split_no_separator (c : ascii) (a : string) :
  free_of c a = true -> hd "" (split (String c "") a) = a.
Proof.
  intros H. unfold split. rewrite <- (app_empty_r a) at 1.
  rewrite split_go_free by exact H. cbn. apply rev_string_involutive.
Qed.

Lemma no_hit_app (sep a b rest : string) :
  no_hit sep (a ++ b) rest = no_hit sep a (b ++ rest) && no_hit sep b rest.
Proof.
  induction a as [|c a IH]; [reflexivity|].
  cbn [append no_hit]. rewrite IH, PyStrFacts.app_assoc, andb_assoc. reflexivity.
Qed.

(** A text without the first character of the separator holds no
    beginning of it. *)
Lemma no_hit_first (e : ascii) (sep' a rest : string) :
  free_of e a = true -> no_hit (String e sep') a rest = true.
Proof.
  induction a as [|c a IH]; intros H; [reflexivity|].
  cbn [free_of] in H. apply andb_prop in H as [H1 H2].
  cbn [no_hit append String.prefix]. rewrite (IH H2).
  destruct (ascii_dec e c) as [->|_]; [now rewrite Ascii.eqb_refl in H1|reflexivity].
Qed.

Lemma prefix_cut (c : ascii) (sep x t : string) :
  free_of c sep = true -> sep <> "" ->
  String.prefix sep (x ++ String c t) = String.prefix sep x.
Proof.
  revert x. induction sep as [|s sep IH]; intros x Hf Hne; [contradiction|].
  cbn [free_of] in Hf. apply andb_prop in Hf as [Hs Hf].
  destruct x as [|y x].
  - cbn. destruct (ascii_dec s c) as [->|_]; [now rewrite Ascii.eqb_refl in Hs|reflexivity].
  - cbn [append String.prefix]. destruct (ascii_dec s y); [|reflexivity].
    destruct sep as [|s' sep'].
    + destruct (x ++ String c t); destruct x; reflexivity.
    + apply IH; [exact Hf|discriminate].
Qed.

Lemma str_in_cons_false (x : string) (c : ascii) (s : string) :
  str_in x (String c s) = false ->
  String.prefix x (String c s) = false /\ str_in x s = false.
Proof.
  intros H. change (str_in x (String c s))
    with (if String.prefix x (String c s) then true else str_in x s) in H.
  destruct (String.prefix x (String c s)); [discriminate|now split].
Qed.

(** A text that does not contain the separator, followed by a character
    foreign to the separator, holds no beginning of it. *)
Lemma no_hit_absent (c : ascii) (sep a t : string) :
  free_of c sep = true -> sep <> "" ->
  str_in sep a = false -> no_hit sep a (String c t) = true.
Proof.
  intros Hf Hne. induction a as [|y a IH]; intros H; [reflexivity|].
  apply str_in_cons_false in H as [H1 H2].
  cbn [no_hit]. rewrite (prefix_cut c sep (String y a) t Hf Hne), H1, (IH H2).
  reflexivity.
Qed.

Lemma lstrip_snoc (s : string) (c : ascii) :
  is_space c = true ->
  lstrip (s ++ String c "")
  = match lstrip s with
    | EmptyString => EmptyString
    | String _ _ => lstrip s ++ String c ""
    end.
Proof.
  intros Hc. induction s as [|d s IH].
  - cbn. now rewrite Hc.
  - cbn [append lstrip]. destruct (is_space d); [exact IH|reflexivity].
Qed.

Lemma strip_trailing (s : string) (c : ascii) :
  is_space c = true -> strip (s ++ String c "") = strip s.
Proof.
  intros Hc. unfold strip. rewrite (lstrip_snoc s c Hc).
  destruct (lstrip s) as [|d x] eqn:E; [reflexivity|].
  rewrite rev_string_push. cbn [rev_string lstrip]. now rewrite Hc.
Qed.

Lemma strip_leading (s : string) (c : ascii) :
  is_space c = true -> strip (String c s) = strip s.
Proof. intros Hc. unfold strip. cbn [lstrip]. now rewrite Hc. Qed.

End SplitFacts.

Section LedgerFacts.
Import PyStr PyStrFacts Datetime DatetimeFacts.
Variable env : Env.

Lemma to_lower_idem (c : ascii) : to_lower (to_lower c) = to_lower c.
Proof. destruct c as [[] [] [] [] [] [] [] []]; reflexivity. Qed.

Lemma lower_idem (s : string) : lower (lower s) = lower s.
Proof.
  induction s as [|c s IH]; [reflexivity|].
  cbn [lower]. now rewrite to_lower_idem, IH.
Qed.

Lemma load_sent_emails_fold (content : string) :
  load_sent_emails (Some content) = fold_left ledger_step (readlines content) [].
Proof. reflexivity. Qed.

Lemma set_insert_in (x : string) (s : list string) : In x (set_insert x s).
Proof.
  unfold set_insert. destruct (in_dec string_dec x s); [assumption|].
  apply in_or_app. right. now left.
Qed.

Lemma set_insert_keeps (x y : string) (s : list string) :
  In y s -> In y (set_insert x s).
Proof.
  intros H. unfold set_insert. destruct (in_dec string_dec x s); [assumption|].
  apply in_or_app. now left.
Qed.

Lemma set_insert_inv (x y : string) (s : list string) :
  In y (set_insert x s) -> y = x \/ In y s.
Proof.
  unfold set_insert. destruct (in_dec string_dec x s); [now right|].
  intros H. apply in_app_or in H as [H|[->|[]]]; auto.
Qed.

(** The loop of [load_sent_emails] only adds addresses in lower case. *)
Lemma fold_ledger_lower (ls : list string) (acc : list string) :
  (forall x, In x acc -> lower x = x) ->
  forall x, In x (fold_left ledger_step ls acc) -> lower x = x.
Proof.
  revert acc. induction ls as [|l ls IH]; intros acc Hacc; [exact Hacc|].
  cbn [fold_left]. apply IH. intros x Hx. unfold ledger_step in Hx.
  destruct (ledger_address l) as [e|] eqn:E; [|now apply Hacc].
  apply set_insert_inv in Hx as [->|Hx]; [|now apply Hacc].
  unfold ledger_address in E.
  destruct (_ && _); [|discriminate].
  destruct (nth_error _ 1); [|discriminate].
  injection E as <-. apply lower_idem.
Qed.

(** X13.  Every address of the set [load_sent_emails] returns is in lower
    case, whatever the ledger holds; a ledger that does not exist gives the
    empty set. *)
Theorem contacted_addresses_are_lower_case (ledger : option string) (a : string) :
  In a (load_sent_emails ledger) -> lower a = a.
Proof.
  destruct ledger as [content|]; [|contradiction].
  rewrite load_sent_emails_fold.
  apply fold_ledger_lower. intros x [].
Qed.

Lemma free_of_single (c : ascii) (s : string) :
  str_in (String c "") s = false -> free_of c s = true.
Proof.
  induction s as [|d s IH]; intros H; [reflexivity|].
  apply str_in_cons_false in H as [H1 H2].
  cbn [free_of]. rewrite (IH H2), andb_true_r.
  cbn in H1. destruct (ascii_dec c d) as [->|n].
  - now destruct s.
  - apply negb_true_iff, Ascii.eqb_neq. congruence.
Qed.

(** The line of a send, seen from its address field. *)
Lemma ledger_entry_sent_shape (t : Z) (name email reason subject : string) :
  exists tail,
    ledger_entry t "sent" name email reason subject
    = ("[" ++ strftime t ++ "] SENT | Name: " ++ name ++ " | ")
      ++ "Email:" ++ " " ++ email ++ tail
    /\ (tail = "" \/ exists z, tail = " |" ++ z)
    /\ single_line tail = single_line reason && single_line subject.
Proof.
  unfold ledger_entry.
  change (upper "sent") with "SENT". change (lower "sent" =? "sent")%string with true.
  rewrite andb_true_r.
  destruct reason as [|r0 r], subject as [|s0 s]; cbn [nonempty].
  - exists "". rewrite !PyStrFacts.app_assoc, app_empty_r. repeat split. now left.
  - exists (" | Subject: " ++ String s0 s). rewrite !PyStrFacts.app_assoc.
    repeat split. right. now eexists.
  - exists (" | Reason: " ++ String r0 r). rewrite !PyStrFacts.app_assoc.
    repeat split.
    + right. now eexists.
    + rewrite single_line_app, andb_true_r. reflexivity.
  - exists (" | Reason: " ++ String r0 r ++ " | Subject: " ++ String s0 s).
    rewrite !PyStrFacts.app_assoc. repeat split.
    + right. now eexists.
    + rewrite !single_line_app. cbn [single_line]. now rewrite ?andb_true_r.
Qed.

Lemma ledger_head_clean (t : Z) (name rest : string) :
  str_in "Email:" name = false ->
  no_hit "Email:" ("[" ++ strftime t ++ "] SENT | Name: " ++ name ++ " | ") rest = true.
Proof.
  intros Hname.
  rewrite !no_hit_app.
  rewrite (no_hit_first "E" "mail:" (strftime t))
    by (apply strftime_free_of; try discriminate; right; vm_compute; lia).
  assert (Hn : no_hit "Email:" name (" | " ++ rest) = true)
    by (apply (no_hit_absent " " "Email:" name ("| " ++ rest)); auto; discriminate).
  rewrite Hn. reflexivity.
Qed.

Lemma ledger_address_of_sent (t : Z) (name email reason subject : string) :
  str_in "Email:" name = false ->
  str_in "Email:" email = false ->
  free_of "|" email = true ->
  ledger_address (ledger_entry t "sent" name email reason subject ++ NL)
  = Some (lower (strip email)).
Proof.
  intros Hname Hemail Hbar.
  destruct (ledger_entry_sent_shape t name email reason subject)
    as [tail [Hshape [Htail _]]].
  rewrite Hshape. unfold ledger_address.
  set (pre := "[" ++ strftime t ++ "] SENT | Name: " ++ name ++ " | ").
  assert (H1 : str_in "SENT |" ((pre ++ "Email:" ++ " " ++ email ++ tail) ++ NL) = true).
  { unfold pre.
    replace (("[" ++ strftime t ++ "] SENT | Name: " ++ name ++ " | ")
             ++ "Email:" ++ " " ++ email ++ tail)
      with (("[" ++ strftime t ++ "] ") ++ "SENT |"
            ++ (" Name: " ++ name ++ " | " ++ "Email:" ++ " " ++ email ++ tail))
      by (now rewrite !PyStrFacts.app_assoc).
    rewrite PyStrFacts.app_assoc.
    apply (str_in_app "SENT |" ("[" ++ strftime t ++ "] ")). }
  assert (H2 : str_in "Email:" ((pre ++ "Email:" ++ " " ++ email ++ tail) ++ NL) = true).
  { rewrite !PyStrFacts.app_assoc. apply str_in_app. }
  rewrite H1, H2. cbn [andb].
  destruct Htail as [->|[z ->]].
  - (* the address ends the line *)
    replace ((pre ++ "Email:" ++ " " ++ email ++ "") ++ NL)
      with (pre ++ "Email:" ++ (" " ++ email ++ NL))
      by (rewrite !PyStrFacts.app_assoc; reflexivity).
    rewrite (split_second_field_last "Email:" pre (" " ++ email ++ NL)).
    + rewrite split_no_separator.
      * change (" " ++ email ++ NL) with (String " " (email ++ NL)).
        rewrite strip_leading by reflexivity.
        unfold NL. now rewrite strip_trailing by reflexivity.
      * rewrite !free_of_app, Hbar. reflexivity.
    + discriminate.
    + apply ledger_head_clean, Hname.
    + rewrite !no_hit_app. change (NL ++ "") with (String LF "").
      rewrite (no_hit_absent LF "Email:" email "" eq_refl) by (auto; discriminate).
      reflexivity.
  - (* other fields follow the address *)
    replace ((pre ++ "Email:" ++ " " ++ email ++ " |" ++ z) ++ NL)
      with (pre ++ "Email:" ++ (" " ++ email ++ " |") ++ (z ++ NL))
      by (now rewrite !PyStrFacts.app_assoc).
    destruct (split_second_field_any "Email:" pre (" " ++ email ++ " |") (z ++ NL))
      as [z' Hz'].
    + discriminate.
    + apply ledger_head_clean, Hname.
    + rewrite !no_hit_app.
      change (" |" ++ z ++ NL) with (String " " ("|" ++ z ++ NL)).
      rewrite (no_hit_absent " " "Email:" email ("|" ++ z ++ NL) eq_refl)
        by (auto; discriminate).
      reflexivity.
    + rewrite Hz'.
      replace ((" " ++ email ++ " |") ++ z')
        with ((" " ++ email ++ " ") ++ String "|" z')
        by (now rewrite !PyStrFacts.app_assoc).
      rewrite split_first_field by (rewrite !free_of_app, Hbar; reflexivity).
      change (" " ++ email ++ " ") with (String " " (email ++ " ")).
      rewrite strip_leading by reflexivity.
      now rewrite strip_trailing by reflexivity.
Qed.

Lemma fold_ledger_keeps (ls : list string) (acc : list string) (a : string) :
  In a acc -> In a (fold_left ledger_step ls acc).
Proof.
  revert acc. induction ls as [|l ls IH]; intros acc H; [exact H|].
  cbn [fold_left]. apply IH. unfold ledger_step.
  destruct (ledger_address l); [now apply set_insert_keeps|exact H].
Qed.

Lemma single_line_entry (t : Z) (name email reason subject : string) :
  single_line name = true -> single_line email = true ->
  single_line reason = true -> single_line subject = true ->
  single_line (ledger_entry t "sent" name email reason subject) = true.
Proof.
  intros Hn He Hr Hs.
  destruct (ledger_entry_sent_shape t name email reason subject)
    as [tail [-> [_ Ht]]].
  rewrite !single_line_app, strftime_single_line, Hn, He, Ht, Hr, Hs. reflexivity.
Qed.

(** Appending the line of a send to a ledger puts the address in the
    contacted set. *)
Lemma sent_line_contacted (ledger : option string) (t : Z)
  (name email reason subject : string) :
  line_terminated (get ledger "") = true ->
  single_line name = true -> single_line email = true ->
  single_line reason = true -> single_line subject = true ->
  str_in "Email:" name = false ->
  str_in "Email:" email = false ->
  free_of "|" email = true ->
  In (lower (strip email))
     (load_sent_emails
        (append_text ledger (ledger_entry t "sent" name email reason subject ++ NL))).
Proof.
  intros Hterm Hn He Hr Hs Hname Hemail Hbar.
  unfold append_text.
  rewrite load_sent_emails_fold, (readlines_app _ _ Hterm).
  unfold NL. rewrite readlines_single by now apply single_line_entry.
  rewrite fold_left_app. cbn [fold_left]. unfold ledger_step at 1.
  fold NL. rewrite (ledger_address_of_sent _ _ _ _ _ Hname Hemail Hbar).
  apply set_insert_in.
Qed.

(** What a ledger that ends at a line boundary holds, it still holds after
    more is appended. *)
Lemma contacted_mono (ledger : option string) (text a : string) :
  line_terminated (get ledger "") = true ->
  In a (load_sent_emails ledger) ->
  In a (load_sent_emails (append_text ledger text)).
Proof.
  intros Hterm Hin. destruct ledger as [content|]; [|destruct Hin].
  unfold append_text. cbn [get] in *.
  rewrite load_sent_emails_fold in *. rewrite (readlines_app _ _ Hterm), fold_left_app.
  now apply fold_ledger_keeps.
Qed.

(** X12.  What [log_result] records as sent, [load_sent_emails] finds: after
    [log_result("sent", name, email, reason, subject)] the contacted set
    holds the address, stripped and in lower case.  Assumed: the ledger ended
    at a line boundary, the four texts hold no line break, neither the name
    nor the address contains "Email:", and the address contains no "|". *)
Theorem sent_address_is_contacted (name email reason subject : string) (site : Site) :
  line_terminated (get (email_logs site) "") = true ->
  single_line name = true -> single_line email = true ->
  single_line reason = true -> single_line subject = true ->
  str_in "Email:" name = false ->
  str_in "Email:" email = false ->
  free_of "|" email = true ->
  In (lower (strip email))
     (load_sent_emails
        (email_logs (snd (log_result env "sent" name email reason subject site)))).
Proof.
  intros Hterm Hn He Hr Hs Hname Hemail Hbar.
  cbn [log_result bind on_files datetime_now modify snd email_logs set_email_logs
       set_files files fst].
  now apply sent_line_contacted.
Qed.

End LedgerFacts.

(** ** Address validation *)

Module RegexFacts.
Import Regex.

Lemma app_nil_inv (x y : string) : x ++ y = "" -> x = "" /\ y = "".
Proof. destruct x; [auto | discriminate]. Qed.

Lemma lang_cat_iff (r q : regex) (s : string) :
  lang (Cat r q) s <-> exists x y, s = x ++ y /\ lang r x /\ lang q y.
Proof.
  split.
  - intros H. remember (Cat r q) as p eqn:Ep.
    destruct H as [| |r' s' x y Hx Hy| | | |]; try discriminate Ep.
    injection Ep as -> ->. eauto.
  - intros (x & y & -> & Hx & Hy). now constructor.
Qed.

Lemma nullable_lang (r : regex) : nullable r = true <-> lang r "".
Proof.
  induction r as [| |p|r IHr s IHs|r IHr s IHs|r IHr]; cbn [nullable].
  - split; [discriminate | intros H; inversion H].
  - split; [constructor | reflexivity].
  - split; [discriminate | intros H; inversion H].
  - rewrite andb_true_iff, IHr, IHs. split.
    + intros [H1 H2]. exact (lang_cat _ _ "" "" H1 H2).
    + intros H. remember "" as w eqn:Ew. remember (Cat r s) as q eqn:Eq.
      destruct H as [| |r' s' x y Hx Hy| | | |]; try discriminate Eq.
      injection Eq as -> ->.
      apply app_nil_inv in Ew as [-> ->]. now split.
  - rewrite orb_true_iff, IHr, IHs. split.
    + intros [H|H]; [now apply lang_alt_l | now apply lang_alt_r].
    + intros H. inversion H; subst; auto.
  - split; [constructor | reflexivity].
Qed.

(** A non-empty text of a starred pattern starts with a non-empty text of
    the pattern. *)
Lemma lang_star_cons_inv (r : regex) (w : string) :
  lang (Star r) w ->
  forall c s, w = String c s ->
  exists x y, s = x ++ y /\ lang r (String c x) /\ lang (Star r) y.
Proof.
  intros H. remember (Star r) as q eqn:Eq.
  induction H as [| | | | | r' | r' x y Hx _ Hy IHy]; try discriminate Eq.
  - intros c s E. discriminate E.
  - injection Eq as ->. intros c s E.
    destruct x as [|d x].
    + apply (IHy eq_refl c s). exact E.
    + cbn in E. injection E as -> <-. exists x, y. auto.
Qed.

Lemma deriv_lang (c : ascii) (r : regex) (s : string) :
  lang (deriv c r) s <-> lang r (String c s).
Proof.
  revert s.
  induction r as [| |p|r IHr q IHq|r IHr q IHq|r IHr]; intros s; cbn [deriv].
  - split; intros H; inversion H.
  - split; intros H; inversion H.
  - split.
    + destruct (p c) eqn:E; intros H; inversion H; subst. now constructor.
    + intros H. inversion H; subst.
      match goal with E : p c = true |- _ => rewrite E end. constructor.
  - assert (Hcat : lang (Cat (deriv c r) q) s ->
                   lang (Cat r q) (String c s)).
    { intros H. apply lang_cat_iff in H as (x & y & -> & Hx & Hy).
      apply IHr in Hx. exact (lang_cat _ _ (String c x) y Hx Hy). }
    assert (Hinv : lang (Cat r q) (String c s) ->
                   lang (Cat (deriv c r) q) s
                   \/ (lang r "" /\ lang q (String c s))).
    { intros H. apply lang_cat_iff in H as (x & y & E & Hx & Hy).
      destruct x as [|d x].
      - right. cbn in E. rewrite <- E in Hy. auto.
      - left. cbn in E. injection E as -> ->. apply IHr in Hx.
        now constructor. }
    destruct (nullable r) eqn:En.
    + split.
      * intros H. inversion H; subst; [now apply Hcat|].
        match goal with H' : lang (deriv c q) s |- _ => apply IHq in H' ;
          exact (lang_cat _ _ "" (String c s) (proj1 (nullable_lang r) En) H') end.
      * intros H. destruct (Hinv H) as [H'|[_ H']].
        -- now apply lang_alt_l.
        -- apply lang_alt_r. now apply IHq.
    + split; [exact Hcat|].
      intros H. destruct (Hinv H) as [H'|[H' _]]; [exact H'|].
      apply nullable_lang in H'. congruence.
  - split; intros H; inversion H; subst.
    + apply lang_alt_l. now apply IHr.
    + apply lang_alt_r. now apply IHq.
    + apply lang_alt_l. now apply IHr.
    + apply lang_alt_r. now apply IHq.
  - split.
    + intros H. apply lang_cat_iff in H as (x & y & -> & Hx & Hy).
      apply IHr in Hx. exact (lang_star_cons _ (String c x) y Hx Hy).
    + intros H.
      destruct (lang_star_cons_inv r _ H c s eq_refl) as (x & y & -> & Hx & Hy).
      constructor; [now apply IHr | exact Hy].
Qed.

(** The matcher decides the language. *)
Lemma fullmatch_lang (r : regex) (s : string) :
  fullmatch r s = true <-> lang r s.
Proof.
  revert r. induction s as [|c s IH]; intros r; cbn [fullmatch].
  - apply nullable_lang.
  - rewrite IH. apply deriv_lang.
Qed.

(** The texts of a starred character class. *)
Lemma lang_star_cls (p : ascii -> bool) (s : string) :
  lang (Star (Cls p)) s <-> all_chars p s = true.
Proof.
  split.
  - intros H. remember (Star (Cls p)) as q eqn:Eq.
    induction H as [| | | | | r' | r' x y Hx _ Hy IHy]; try discriminate Eq.
    + reflexivity.
    + injection Eq as ->. inversion Hx; subst. cbn [append all_chars].
      rewrite (IHy eq_refl). now rewrite andb_true_r.
  - induction s as [|c s IH]; cbn [all_chars]; intros H.
    + constructor.
    + apply andb_prop in H as [Hc Hs].
      exact (lang_star_cons _ (String c "") s (lang_cls p c Hc) (IH Hs)).
Qed.

Lemma lang_plus_cls (p : ascii -> bool) (s : string) :
  lang (Plus (Cls p)) s <-> s <> "" /\ all_chars p s = true.
Proof.
  unfold Plus. split.
  - intros H. apply lang_cat_iff in H as (x & y & -> & Hx & Hy).
    inversion Hx; subst. apply lang_star_cls in Hy.
    split; [discriminate|]. cbn [append all_chars].
    now rewrite Hy, andb_true_r.
  - intros [Hne H]. destruct s as [|c s]; [now elim Hne|].
    cbn [all_chars] in H. apply andb_prop in H as [Hc Hs].
    exact (lang_cat _ _ (String c "") s (lang_cls p c Hc)
             (proj2 (lang_star_cls p s) Hs)).
Qed.

Lemma lang_one (c : ascii) (s : string) :
  lang (Cls (Ascii.eqb c)) s <-> s = String c "".
Proof.
  split.
  - intros H. inversion H; subst.
    match goal with E : Ascii.eqb _ _ = true |- _ => apply Ascii.eqb_eq in E as -> end.
    reflexivity.
  - intros ->. constructor. apply Ascii.eqb_refl.
Qed.

End RegexFacts.

Section Validity.
Import PyStr PyStrFacts.

Lemma email_pattern_shape (s : string) :
  Regex.fullmatch email_pattern s = true <-> address_shape s.
Proof.
  rewrite RegexFacts.fullmatch_lang. unfold email_pattern, address_shape.
  split.
  - intros H.
    apply RegexFacts.lang_cat_iff in H as (l & r1 & -> & Hl & H).
    apply RegexFacts.lang_cat_iff in H as (a & r2 & -> & Ha & H).
    apply RegexFacts.lang_cat_iff in H as (d & r3 & -> & Hd & H).
    apply RegexFacts.lang_cat_iff in H as (o & t & -> & Ho & Ht).
    apply RegexFacts.lang_one in Ha as ->. apply RegexFacts.lang_one in Ho as ->.
    apply RegexFacts.lang_plus_cls in Hl as [? ?].
    apply RegexFacts.lang_plus_cls in Hd as [? ?].
    apply RegexFacts.lang_plus_cls in Ht as [? ?].
    exists l, d, t. auto 10.
  - intros (l & d & t & -> & Hl & Hd & Ht & Al & Ad & At).
    apply RegexFacts.lang_cat_iff. exists l, ("@" ++ d ++ "." ++ t).
    split; [reflexivity|]. split; [now apply RegexFacts.lang_plus_cls|].
    apply RegexFacts.lang_cat_iff. exists "@", (d ++ "." ++ t).
    split; [reflexivity|]. split; [now apply RegexFacts.lang_one|].
    apply RegexFacts.lang_cat_iff. exists d, ("." ++ t).
    split; [reflexivity|]. split; [now apply RegexFacts.lang_plus_cls|].
    apply RegexFacts.lang_cat_iff. exists ".", t.
    split; [reflexivity|]. split; [now apply RegexFacts.lang_one|].
    now apply RegexFacts.lang_plus_cls.
Qed.

Lemma chomp_spec (s before : string) :
  chomp s = Some before <-> s = before ++ NL.
Proof.
  revert before. induction s as [|c s IH]; intros before.
  - split; [discriminate|]. intros E. destruct before; discriminate E.
  - cbn [chomp]. destruct s as [|c' s'].
    + destruct (Ascii.eqb c LF) eqn:E.
      * apply Ascii.eqb_eq in E as ->. split.
        -- intros [= <-]. reflexivity.
        -- intros E. destruct before as [|b before]; [reflexivity|].
           cbn in E. injection E as _ E. destruct before; discriminate E.
      * split; [discriminate|]. intros E'.
        destruct before as [|b before].
        -- cbn in E'. injection E' as ->. now rewrite Ascii.eqb_refl in E.
        -- cbn in E'. injection E' as _ E'. destruct before; discriminate E'.
    + set (rest := String c' s') in *. split.
      * destruct (chomp rest) as [z|] eqn:Ez; [|discriminate].
        intros [= <-]. cbn. now rewrite (proj1 (IH z) eq_refl).
      * intros E. destruct before as [|b before]; [discriminate E|].
        cbn in E. injection E as -> E. apply IH in E. now rewrite E.
Qed.

End Validity.

Section ValidityClaims.
Import PyStr PyStrFacts.

(** X14.  What [is_valid_email] accepts, for ASCII text: exactly the texts
    made of a non-empty run of letters, digits, "_", "." and "-", an "@",
    another such run, a "." and a non-empty run of letters, digits and "_",
    and those texts followed by one line feed. *)
Theorem valid_email_shape (email : string) :
  ascii_text email = true ->
  (is_valid_email email = true
   <-> address_shape email
       \/ exists before, email = before ++ NL /\ address_shape before).
Proof.
  intros _. unfold is_valid_email. rewrite orb_true_iff, email_pattern_shape.
  split.
  - intros [H|H]; [now left|right].
    destruct (chomp email) as [before|] eqn:E; [|discriminate].
    exists before. split; [now apply chomp_spec | now apply email_pattern_shape].
  - intros [H|(before & E & H)]; [now left|right].
    apply chomp_spec in E. rewrite E. now apply email_pattern_shape.
Qed.

End ValidityClaims.

(** ** White space *)

Section StripFacts.
Import PyStr PyStrFacts.

Lemma lstrip_hd (s : string) : hd_space (lstrip s) = false.
Proof.
  induction s as [|c s IH]; [reflexivity|].
  cbn [lstrip]. destruct (is_space c) eqn:E; [exact IH|].
  cbn [hd_space]. exact E.
Qed.

Lemma lstrip_fixed (s : string) : hd_space s = false -> lstrip s = s.
Proof. destruct s as [|c s]; [reflexivity|]. cbn. now intros ->. Qed.

Lemma lstrip_suffix (s : string) : exists p, s = p ++ lstrip s.
Proof.
  induction s as [|c s [p IH]].
  - now exists "".
  - cbn [lstrip]. destruct (is_space c).
    + exists (String c p). cbn. now rewrite <- IH.
    + now exists "".
Qed.

Lemma hd_space_app (a b : string) : a <> "" -> hd_space (a ++ b) = hd_space a.
Proof. destruct a; [contradiction|reflexivity]. Qed.

Lemma rev_string_cat (a b : string) :
  rev_string "" (a ++ b) = rev_string "" b ++ rev_string "" a.
Proof. now rewrite rev_string_push, rev_string_app. Qed.

Lemma rev_string_not_nil (s : string) : s <> "" -> rev_string "" s <> "".
Proof.
  destruct s as [|c s]; [contradiction|]. intros _.
  cbn [rev_string]. rewrite rev_string_app. now destruct (rev_string "" s).
Qed.

(** [strip] leaves nothing to strip. *)
Lemma strip_idem (s : string) : strip (strip s) = strip s.
Proof.
  unfold strip. set (x := lstrip s).
  set (y := lstrip (rev_string "" x)).
  destruct y as [|c y'] eqn:Ey; [reflexivity|].
  assert (Hx : hd_space x = false) by apply lstrip_hd.
  assert (Hy : hd_space y = false) by apply lstrip_hd.
  destruct (lstrip_suffix (rev_string "" x)) as [p Hp]. fold y in Hp.
  assert (Ex : x = rev_string "" y ++ rev_string "" p).
  { rewrite <- rev_string_cat, <- Hp. symmetry. apply rev_string_involutive. }
  assert (Hne : rev_string "" y <> "")
    by (apply rev_string_not_nil; rewrite Ey; discriminate).
  rewrite Ex, (hd_space_app _ _ Hne) in Hx.
  rewrite <- Ey.
  rewrite (lstrip_fixed _ Hx), rev_string_involutive, (lstrip_fixed _ Hy).
  reflexivity.
Qed.

Lemma all_chars_app (p : ascii -> bool) (a b : string) :
  all_chars p (a ++ b) = all_chars p a && all_chars p b.
Proof.
  induction a as [|c a IH]; [reflexivity|].
  cbn [append all_chars]. now rewrite IH, andb_assoc.
Qed.

Lemma all_chars_weaken (p q : ascii -> bool) (s : string) :
  (forall c, p c = true -> q c = true) ->
  all_chars p s = true -> all_chars q s = true.
Proof.
  intros Hpq. induction s as [|c s IH]; [reflexivity|].
  cbn [all_chars]. intros H. apply andb_prop in H as [Hc Hs].
  now rewrite (Hpq c Hc), (IH Hs).
Qed.

Lemma all_chars_rev (p : ascii -> bool) (s : string) :
  all_chars p (rev_string "" s) = all_chars p s.
Proof.
  induction s as [|c s IH]; [reflexivity|].
  cbn [rev_string all_chars]. rewrite rev_string_app, all_chars_app, IH.
  cbn [all_chars]. rewrite andb_true_r. apply andb_comm.
Qed.

Lemma lstrip_no_space (s : string) :
  all_chars (fun c => negb (is_space c)) s = true -> lstrip s = s.
Proof.
  intros H. apply lstrip_fixed. destruct s as [|c s]; [reflexivity|].
  cbn [all_chars] in H. apply andb_prop in H as [Hc _].
  cbn [hd_space]. now apply negb_true_iff.
Qed.

(** A text without white space is left alone. *)
Lemma strip_no_space (s : string) :
  all_chars (fun c => negb (is_space c)) s = true -> strip s = s.
Proof.
  intros H. unfold strip. rewrite (lstrip_no_space s H).
  rewrite lstrip_no_space by now rewrite all_chars_rev.
  apply rev_string_involutive.
Qed.

Lemma all_chars_free_of (d : ascii) (s : string) :
  all_chars (fun c => negb (Ascii.eqb c d)) s = free_of d s.
Proof. induction s as [|c s IH]; [reflexivity|]. cbn. now rewrite IH. Qed.

Lemma prefix_free_of (c : ascii) (needle hay : string) :
  String.prefix needle hay = true -> free_of c hay = true ->
  free_of c needle = true.
Proof.
  revert hay. induction needle as [|n needle IH]; intros hay Hp Hf; [reflexivity|].
  destruct hay as [|h hay]; [discriminate Hp|].
  cbn [String.prefix] in Hp. destruct (ascii_dec n h) as [->|]; [|discriminate Hp].
  cbn [free_of] in *. apply andb_prop in Hf as [Hh Hf].
  now rewrite Hh, (IH hay Hp Hf).
Qed.

(** A text that lacks a character of the needle does not contain the
    needle. *)
Lemma str_in_free_of (c : ascii) (needle hay : string) :
  free_of c needle = false -> free_of c hay = true ->
  str_in needle hay = false.
Proof.
  intros Hn. induction hay as [|h hay IH]; intros Hf.
  - cbn [str_in]. destruct needle; [discriminate Hn|reflexivity].
  - cbn [str_in].
    destruct (String.prefix needle (String h hay)) eqn:Ep.
    + rewrite (prefix_free_of c _ _ Ep Hf) in Hn. discriminate Hn.
    + cbn [free_of] in Hf. apply andb_prop in Hf as [_ Hf]. now apply IH.
Qed.

Lemma is_local_plain (c : ascii) :
  is_local c = true \/ c = "@"%char ->
  is_space c = false /\ c <> "|"%char /\ c <> ":"%char /\ c <> LF /\ c <> CR.
Proof.
  intros H.
  assert (Hb : (is_local c || Ascii.eqb c "@") = true).
  { destruct H as [->| ->]; [reflexivity|]. apply orb_true_r. }
  clear H. destruct c as [[] [] [] [] [] [] [] []]; vm_compute in Hb;
    try discriminate Hb; repeat split; try reflexivity; discriminate.
Qed.

(** The characters of a text of the shape of an address. *)
Lemma address_shape_chars (s : string) :
  address_shape s ->
  all_chars (fun c => is_local c || Ascii.eqb c "@") s = true.
Proof.
  intros (l & d & t & -> & _ & _ & _ & Hl & Hd & Ht).
  rewrite !all_chars_app.
  rewrite (all_chars_weaken is_local _ l), (all_chars_weaken is_local _ d),
    (all_chars_weaken is_word _ t); auto.
  - intros c H. unfold is_local. now rewrite H.
  - intros c H. now rewrite H.
  - intros c H. now rewrite H.
Qed.

Lemma address_shape_clean (s : string) :
  address_shape s ->
  strip s = s /\ single_line s = true /\ free_of "|" s = true
  /\ str_in "Email:" s = false.
Proof.
  intros H. apply address_shape_chars in H.
  assert (Hc : forall c, (is_local c || Ascii.eqb c "@") = true ->
               is_space c = false /\ c <> "|"%char /\ c <> ":"%char
               /\ c <> LF /\ c <> CR).
  { intros c Hc. apply is_local_plain. apply orb_prop in Hc as [Hc|Hc]; [now left|].
    right. now apply Ascii.eqb_eq in Hc. }
  assert (Hfree : forall d, (forall c, (is_local c || Ascii.eqb c "@") = true -> c <> d) ->
                  free_of d s = true).
  { intros d Hd. rewrite <- all_chars_free_of.
    apply (all_chars_weaken _ _ s) with (2 := H).
    intros c Hlc. apply negb_true_iff, Ascii.eqb_neq. now apply Hd. }
  split; [|split; [|split]].
  - apply strip_no_space. apply (all_chars_weaken _ _ s) with (2 := H).
    intros c Hlc. apply negb_true_iff. now apply Hc.
  - rewrite DatetimeFacts.single_line_free_of.
    rewrite !Hfree; [reflexivity| |]; intros c Hlc; now apply Hc.
  - apply Hfree. intros c Hlc. now apply Hc.
  - apply (str_in_free_of ":"); [reflexivity|].
    apply Hfree. intros c Hlc. now apply Hc.
Qed.

End StripFacts.

(** ** The recipients *)

Section LoaderFacts.
Import PyStr PyStrFacts.

Lemma nonempty_true (s : string) : nonempty s = true <-> s <> "".
Proof.
  destruct s; split; try discriminate; auto.
Qed.

(** X15.  Every recipient [load_recipients_from_csv] returns comes from a
    row of the file, in the order of the file; its address is the stripped
    [email] cell, is not empty and has no white space left at either end,
    and its name is the stripped [name] cell, or "there" when that is empty
    or missing. *)
Theorem loaded_recipients_are_clean (rows : list CsvRow) (r : Recipient) :
  In r (load_recipients_from_csv rows) ->
  exists row,
    In row rows
    /\ r_email r = strip (get (row_email row) "")
    /\ r_email r <> ""
    /\ strip (r_email r) = r_email r
    /\ r_name r <> ""
    /\ (r_name r = strip (get (row_name row) "")
        \/ (strip (get (row_name row) "") = "" /\ r_name r = "there")).
Proof.
  unfold load_recipients_from_csv. rewrite in_flat_map.
  intros (row & Hrow & Hr). exists row. split; [exact Hrow|].
  unfold load_recipient in Hr.
  destruct (nonempty (strip (get (row_email row) ""))) eqn:Ee; [|destruct Hr].
  destruct Hr as [<-|[]]. cbn [r_email r_name].
  split; [reflexivity|]. split; [now apply nonempty_true|].
  split; [apply strip_idem|].
  destruct (nonempty (strip (get (row_name row) ""))) eqn:En.
  - split; [now apply nonempty_true | now left].
  - split; [discriminate|]. right. split; [|reflexivity].
    destruct (strip (get (row_name row) "")); [reflexivity|discriminate En].
Qed.

End LoaderFacts.

(** ** The campaign *)

Section CampaignFacts.
Import PyStr PyStrFacts Campaign.
Variable env : Env.
Variable sender : Sender.
Variable offer product_description from_name : string.

Local Abbreviation visit := (visit env sender offer product_description from_name).
Local Abbreviation for_each_recipient :=
  (for_each_recipient env sender offer product_description from_name).
Local Abbreviation campaign := (campaign env sender offer product_description from_name).
Local Abbreviation visited := (visited env sender offer product_description from_name).

(** The loop body, by symbolic execution. *)
Lemma visit_visited (r : Recipient) (run : Run) :
  exists run', visit r run = (Ok tt, run') /\ visited r run run'.
Proof.
  unfold Campaign.visit.
  destruct (is_valid_email (r_email r)) eqn:Ev; cbn [negb].
  - unfold bind at 1, gets.
    destruct (in_dec string_dec (r_email r) (sent_emails run)) as [Hin|Hin].
    + eexists. split; [reflexivity|].
      apply visit_duplicate; auto; try reflexivity; repeat split.
    + unfold bind at 1, on_office at 1, generate.
      destruct (run_email_agent sender (tick_of (office run)) (r_name r) offer
                  product_description from_name) as [e|subject body] eqn:Eg.
      * eexists. split; [reflexivity|].
        apply (visit_ai_failed _ _ _ _ _ r run _ e); auto; try reflexivity;
          repeat split.
      * unfold bind at 1, on_office at 1, deliver.
        cbn [office set_office next_tick tick_of site set_site files set_files tick
             set_tick].
        destruct (send_email sender (S (tick_of (office run)))
                    (mkOutMail (r_email r) subject body from_name)) as [e|] eqn:Es.
        -- eexists. split; [reflexivity|].
           apply (visit_send_failed _ _ _ _ _ r run _ subject body e); auto;
             try reflexivity; repeat split.
        -- eexists. split; [reflexivity|].
           apply (visit_sent _ _ _ _ _ r run _ subject body); auto;
             try reflexivity; repeat split.
  - eexists. split; [reflexivity|].
    apply visit_invalid; auto; try reflexivity; repeat split.
Qed.

(** What every turn keeps, the loop keeps. *)
Lemma for_each_recipient_keeps (Q : list Recipient -> Run -> Prop)
  (recipients : list Recipient) (run0 : Run) :
  Q [] run0 ->
  (forall done r run run',
     In r recipients -> Q done run -> visited r run run' ->
     Q (done ++ [r])%list run') ->
  exists run',
    for_each_recipient recipients run0 = (Ok tt, run') /\ Q recipients run'.
Proof.
  intros H0 Hstep.
  assert (G : forall rest done run,
             (forall r, In r rest -> In r recipients) -> Q done run ->
             exists run', for_each_recipient rest run = (Ok tt, run')
                          /\ Q (done ++ rest)%list run').
  { induction rest as [|r rest IH]; intros done run Hsub HQ.
    - exists run. rewrite List.app_nil_r. now split.
    - cbn [Campaign.for_each_recipient]. unfold bind.
      destruct (visit_visited r run) as [run1 [E1 V1]]. rewrite E1.
      destruct (IH (done ++ [r])%list run1) as [run' [E' Q']].
      + intros x Hx. apply Hsub. now right.
      + apply (Hstep done r run run1); auto. apply Hsub. now left.
      + exists run'. split; [exact E'|].
        now rewrite <- List.app_assoc in Q'. }
  apply (G recipients [] run0); auto.
Qed.

Lemma campaign_none (rows : list CsvRow) (o : Office) :
  load_recipients_from_csv rows = [] -> campaign rows o = (Ok tt, start o).
Proof. intros E. unfold Campaign.campaign. now rewrite E. Qed.

Lemma campaign_some (rows : list CsvRow) (o : Office) :
  load_recipients_from_csv rows <> [] ->
  campaign rows o
  = for_each_recipient (load_recipients_from_csv rows)
      (start (snd (open_ledger env o))).
Proof.
  intros E. unfold Campaign.campaign.
  destruct (load_recipients_from_csv rows); [now elim E|reflexivity].
Qed.

Lemma delivered_mail_snoc (new : list (OutMail * bool)) (m : OutMail) (ok : bool) :
  delivered_mail (new ++ [(m, ok)])
  = (delivered_mail new ++ if ok then [m] else [])%list.
Proof.
  unfold delivered_mail. rewrite filter_app, map_app. cbn.
  now destruct ok.
Qed.

Lemma refused_mail_snoc (new : list (OutMail * bool)) (m : OutMail) (ok : bool) :
  refused_mail (new ++ [(m, ok)])
  = (refused_mail new ++ if ok then [] else [m])%list.
Proof.
  unfold refused_mail. rewrite filter_app, map_app. cbn.
  now destruct ok.
Qed.

Lemma NoDup_snoc {A} (l : list A) (x : A) :
  NoDup l -> ~ In x l -> NoDup (l ++ [x]).
Proof.
  intros Hl Hx. apply (Permutation_NoDup (Permutation_cons_append l x)).
  now constructor.
Qed.

Lemma books_step (o0 : Office) (done : list Recipient) (r : Recipient)
  (run run' : Run) :
  books from_name o0 done run -> visited r run run' ->
  books from_name o0 (done ++ [r]) run'.
Proof.
  intros (new & Hout & Hs & Hf & Hsum & Hnd & Hset & Hall) V.
  assert (Hold : forall m ok, In (m, ok) new ->
            is_valid_email (mail_to m) = true
            /\ In (mail_to m) (map r_email (done ++ [r]))
            /\ mail_from_name m = from_name).
  { intros m ok Hin. destruct (Hall m ok Hin) as (H1 & H2 & H3).
    split; [exact H1|]. split; [|exact H3].
    rewrite map_app. apply in_or_app. now left. }
  assert (Hlen : List.length (done ++ [r]) = S (List.length done))
    by (rewrite length_app; cbn; lia).
  destruct V as [Hv Hl Ho Hse Hst _ | Hv Hin Hl Ho Hse Hst _
                | e Hv Hin Hg Hl Ho Hse Hst _
                | subject body Hv Hin Hg Hd Hl Ho Hse Hst _
                | subject body e Hv Hin Hg Hd Hl Ho Hse Hst _].
  - exists new. rewrite Ho, Hse, Hst, Hlen. cbn.
    split; [exact Hout|]. split; [exact Hs|]. split; [exact Hf|].
    split; [lia|]. auto.
  - exists new. rewrite Ho, Hse, Hst, Hlen. cbn.
    split; [exact Hout|]. split; [exact Hs|]. split; [exact Hf|].
    split; [lia|]. auto.
  - exists new. rewrite Ho, Hse, Hst, Hlen. cbn.
    split; [exact Hout|]. split; [exact Hs|]. split; [exact Hf|].
    split; [lia|]. auto.
  - exists (new ++ [(mkOutMail (r_email r) subject body from_name, true)])%list.
    rewrite Ho, Hse, Hst, Hlen, Hout, delivered_mail_snoc, refused_mail_snoc.
    cbv iota. rewrite List.app_nil_r, map_app, !length_app. cbn.
    split; [now rewrite List.app_assoc|]. split; [lia|]. split; [exact Hf|].
    split; [lia|]. split; [|split].
    + apply NoDup_snoc; [exact Hnd|]. intros Hx.
      apply in_map_iff in Hx as (m & Em & Hm). apply Hin. rewrite <- Em.
      now apply Hset.
    + intros m Hm. apply in_app_or in Hm as [Hm|[<-|[]]].
      * apply set_insert_keeps. now apply Hset.
      * apply set_insert_in.
    + intros m ok Hm. apply in_app_or in Hm as [Hm|[[= <- <-]|[]]].
      * now apply (Hold m ok).
      * cbn. split; [exact Hv|]. split; [|reflexivity].
        rewrite map_app. apply in_or_app. right. now left.
  - exists (new ++ [(mkOutMail (r_email r) subject body from_name, false)])%list.
    rewrite Ho, Hse, Hst, Hlen, Hout, delivered_mail_snoc, refused_mail_snoc.
    cbv iota. rewrite List.app_nil_r, !length_app. cbn.
    split; [now rewrite List.app_assoc|]. split; [exact Hs|]. split; [lia|].
    split; [lia|]. split; [exact Hnd|]. split; [exact Hset|].
    intros m ok Hm. apply in_app_or in Hm as [Hm|[[= <- <-]|[]]].
    * now apply (Hold m ok).
    * cbn. split; [exact Hv|]. split; [|reflexivity].
      rewrite map_app. apply in_or_app. right. now left.
Qed.

Lemma books_start (o : Office) : books from_name o [] (start o).
Proof.
  exists []. cbn. rewrite List.app_nil_r.
  repeat split; try constructor; intros; contradiction.
Qed.

Lemma books_open (o : Office) :
  books from_name o [] (start (snd (open_ledger env o))).
Proof.
  exists []. cbn. rewrite List.app_nil_r.
  repeat split; try constructor; intros; contradiction.
Qed.

(** The books at the end of a campaign. *)
Lemma campaign_books (rows : list CsvRow) (o : Office) :
  exists run,
    campaign rows o = (Ok tt, run)
    /\ books from_name o (load_recipients_from_csv rows) run.
Proof.
  destruct (load_recipients_from_csv rows) as [|r0 rest] eqn:E.
  - exists (start o). split; [now apply campaign_none | apply books_start].
  - rewrite campaign_some by (rewrite E; discriminate). rewrite E.
    apply for_each_recipient_keeps; [apply books_open|].
    intros done r run run' _. apply books_step.
Qed.

(** X17.  The counters of a campaign: every loaded recipient is counted
    exactly once among sent, skipped, failed and ai_generation_failed; sent
    is the number of messages that went through and failed the number of
    messages SMTP refused, so that no recipient is tried more than once. *)
Theorem campaign_counters (rows : list CsvRow) (o : Office) :
  exists run new,
    campaign rows o = (Ok tt, run)
    /\ outbox (office run) = (outbox o ++ new)%list
    /\ (sent (stats run) + skipped (stats run) + failed (stats run)
        + ai_generation_failed (stats run)
        = List.length (load_recipients_from_csv rows))%nat
    /\ sent (stats run) = List.length (delivered_mail new)
    /\ failed (stats run) = List.length (refused_mail new)
    /\ (List.length new = sent (stats run) + failed (stats run))%nat.
Proof.
  destruct (campaign_books rows o)
    as (run & E & new & Hout & Hs & Hf & Hsum & _).
  exists run, new. repeat (split; [assumption|]).
  rewrite Hs, Hf. unfold delivered_mail, refused_mail. rewrite !length_map.
  clear. induction new as [|[m ok] new IH]; [reflexivity|].
  cbn. destruct ok; cbn; lia.
Qed.

(** X18.  Whatever a campaign hands to SMTP goes to an address that passed
    [is_valid_email] and is the stripped [email] cell of a row of the file,
    under the sender name of the campaign. *)
Theorem campaign_mails_only_valid_rows (rows : list CsvRow) (o : Office) :
  exists run new,
    campaign rows o = (Ok tt, run)
    /\ outbox (office run) = (outbox o ++ new)%list
    /\ forall m ok, In (m, ok) new ->
         is_valid_email (mail_to m) = true
         /\ mail_from_name m = from_name
         /\ exists row, In row rows /\ mail_to m = strip (get (row_email row) "").
Proof.
  destruct (campaign_books rows o)
    as (run & E & new & Hout & _ & _ & _ & _ & _ & Hall).
  exists run, new. split; [exact E|]. split; [exact Hout|].
  intros m ok Hin. destruct (Hall m ok Hin) as (Hv & Hr & Hn).
  split; [exact Hv|]. split; [exact Hn|].
  apply in_map_iff in Hr as (r & Er & Hr).
  unfold load_recipients_from_csv in Hr. apply in_flat_map in Hr as (row & Hrow & Hr).
  exists row. split; [exact Hrow|]. rewrite <- Er.
  unfold load_recipient in Hr.
  destruct (nonempty (strip (get (row_email row) ""))); [|destruct Hr].
  destruct Hr as [<-|[]]. reflexivity.
Qed.

Lemma app_not_self (b x : string) : x <> "" -> b ++ x <> b.
Proof.
  intros Hx. induction b as [|c b IH]; [exact Hx|].
  cbn. intros [= E]. now apply IH.
Qed.

(** A valid address without white space at its ends has the shape of an
    address: no line feed follows it. *)
Lemma valid_stripped_shape (e : string) :
  is_valid_email e = true -> strip e = e -> address_shape e.
Proof.
  unfold is_valid_email. intros H Hs. apply orb_prop in H as [H|H].
  - now apply email_pattern_shape.
  - destruct (chomp e) as [before|] eqn:E; [|discriminate H].
    apply chomp_spec in E. apply email_pattern_shape in H.
    destruct (address_shape_clean before H) as [Hb _].
    rewrite E in Hs. unfold NL in Hs. rewrite strip_trailing in Hs by reflexivity.
    rewrite Hb in Hs. symmetry in Hs. now apply app_not_self in Hs.
Qed.

Lemma line_terminated_append (ledger : option string) (line : string) :
  line_terminated (get (append_text ledger (line ++ NL)) "") = true.
Proof.
  unfold append_text. cbn [get]. rewrite <- PyStrFacts.app_assoc.
  apply line_terminated_app.
Qed.

Section Posting.
Hypothesis subjects_single_line :
  forall n name subject body,
    run_email_agent sender n name offer product_description from_name
    = GenEmail subject body ->
    single_line subject = true.

Lemma posted_step (o0 : Office) (r : Recipient) (run run' : Run) :
  single_line (r_name r) = true ->
  str_in "Email:" (r_name r) = false ->
  strip (r_email r) = r_email r ->
  posted o0 run -> visited r run run' -> posted o0 run'.
Proof.
  intros Hn1 Hn2 Hstrip (Hterm & new & Hout & Hin) V.
  assert (Hkeep : forall k status reason subject,
            logs env k status reason subject r run run' ->
            line_terminated (get (ledger_of run') "") = true
            /\ forall m, In m (delivered_mail new) ->
                 In (lower (mail_to m)) (load_sent_emails (ledger_of run'))).
  { intros k status reason subject Hl. unfold logs in Hl. rewrite Hl.
    split; [apply line_terminated_append|].
    intros m Hm. apply contacted_mono; auto. }
  destruct V as [Hv Hl Ho Hse Hst _ | Hv Hdup Hl Ho Hse Hst _
                | e Hv Hdup Hg Hl Ho Hse Hst _
                | subject body Hv Hdup Hg Hd Hl Ho Hse Hst _
                | subject body e Hv Hdup Hg Hd Hl Ho Hse Hst _].
  - destruct (Hkeep _ _ _ _ Hl) as [H1 H2].
    split; [exact H1|]. exists new. rewrite Ho. auto.
  - destruct (Hkeep _ _ _ _ Hl) as [H1 H2].
    split; [exact H1|]. exists new. rewrite Ho. auto.
  - destruct (Hkeep _ _ _ _ Hl) as [H1 H2].
    split; [exact H1|]. exists new. rewrite Ho. auto.
  - destruct (Hkeep _ _ _ _ Hl) as [H1 H2].
    split; [exact H1|].
    exists (new ++ [(mkOutMail (r_email r) subject body from_name, true)])%list.
    rewrite Ho, Hout, List.app_assoc. split; [reflexivity|].
    intros m Hm. rewrite delivered_mail_snoc in Hm.
    apply in_app_or in Hm as [Hm|[<-|[]]]; [now apply H2|].
    cbn [mail_to]. unfold logs in Hl. rewrite Hl.
    destruct (address_shape_clean _ (valid_stripped_shape _ Hv Hstrip))
      as (_ & Hsl & Hbar & Hem).
    rewrite <- Hstrip at 1.
    apply sent_line_contacted; auto.
    now apply (subjects_single_line _ _ _ _ Hg).
  - destruct (Hkeep _ _ _ _ Hl) as [H1 H2].
    split; [exact H1|].
    exists (new ++ [(mkOutMail (r_email r) subject body from_name, false)])%list.
    rewrite Ho, Hout, List.app_assoc. split; [reflexivity|].
    intros m Hm. rewrite delivered_mail_snoc in Hm. cbv iota in Hm.
    rewrite List.app_nil_r in Hm. now apply H2.
Qed.

Lemma banner_ends_line (ledger : option string) (t : Z) :
  line_terminated (get (append_text ledger (banner t)) "") = true.
Proof.
  unfold banner.
  replace (NL ++ repeat_char "=" 80 ++ NL ++ "Email Campaign Started: "
           ++ str_datetime t ++ NL ++ repeat_char "=" 80 ++ NL)
    with ((NL ++ repeat_char "=" 80 ++ NL ++ "Email Campaign Started: "
           ++ str_datetime t ++ NL ++ repeat_char "=" 80) ++ NL)
    by (now rewrite !PyStrFacts.app_assoc).
  apply line_terminated_append.
Qed.

(** The ledger at the end of a campaign. *)
Lemma campaign_posted (rows : list CsvRow) (o : Office) :
  (forall r, In r (load_recipients_from_csv rows) ->
     single_line (r_name r) = true /\ str_in "Email:" (r_name r) = false) ->
  exists run new,
    campaign rows o = (Ok tt, run)
    /\ outbox (office run) = (outbox o ++ new)%list
    /\ forall m, In m (delivered_mail new) ->
         In (lower (mail_to m))
            (load_sent_emails (email_logs (site (office run)))).
Proof.
  intros Hrows.
  destruct (load_recipients_from_csv rows) as [|r0 rest] eqn:E.
  - exists (start o), []. rewrite campaign_none by exact E.
    split; [reflexivity|]. cbn. rewrite List.app_nil_r.
    split; [reflexivity|]. intros m [].
  - rewrite campaign_some by (rewrite E; discriminate). rewrite E.
    destruct (for_each_recipient_keeps
                (fun _ run => posted o run) (r0 :: rest)
                (start (snd (open_ledger env o))))
      as (run & Erun & _ & new & Hout & Hin).
    + split; [apply banner_ends_line|].
      exists []. cbn. rewrite List.app_nil_r. split; [reflexivity|]. intros m [].
    + intros done r run run' Hr HQ V.
      destruct (Hrows r Hr) as (H1 & H2).
      apply (posted_step o r run run'); auto.
      assert (Hr' : In r (load_recipients_from_csv rows)) by now rewrite E.
      unfold load_recipients_from_csv in Hr'.
      apply in_flat_map in Hr' as (row & _ & Hrow).
      unfold load_recipient in Hrow.
      destruct (nonempty (strip (get (row_email row) ""))); [|destruct Hrow].
      destruct Hrow as [<-|[]]. apply strip_idem.
    + exists run, new. auto.
Qed.

(** X19.  The ledger of a campaign feeds the discovery of replies: every
    address a message of the campaign went through to is, in lower case, in
    the contacted set [load_sent_emails] reads from the ledger afterwards.
    Assumed: the loaded names hold no line break and no "Email:", the loaded
    addresses are ASCII text, and the generated subjects hold no line
    break. *)
Theorem campaign_feeds_discovery (rows : list CsvRow) (o : Office) :
  (forall r, In r (load_recipients_from_csv rows) ->
     single_line (r_name r) = true
     /\ str_in "Email:" (r_name r) = false
     /\ ascii_text (r_email r) = true) ->
  exists run new,
    campaign rows o = (Ok tt, run)
    /\ outbox (office run) = (outbox o ++ new)%list
    /\ forall m, In m (delivered_mail new) ->
         In (lower (mail_to m))
            (load_sent_emails (email_logs (site (office run)))).
Proof.
  intros Hrows. apply campaign_posted.
  intros r Hr. destruct (Hrows r Hr) as (H1 & H2 & _). now split.
Qed.

End Posting.

(** A campaign leaves the files of the engine as they are. *)
Lemma campaign_stores (rows : list CsvRow) (o : Office) :
  exists run,
    campaign rows o = (Ok tt, run)
    /\ same_stores (files (site o)) (files (site (office run))).
Proof.
  destruct (load_recipients_from_csv rows) as [|r0 rest] eqn:E.
  - exists (start o). rewrite campaign_none by exact E.
    split; [reflexivity|]. repeat split.
  - rewrite campaign_some by (rewrite E; discriminate). rewrite E.
    apply (for_each_recipient_keeps
             (fun _ run => same_stores (files (site o)) (files (site (office run))))).
    + repeat split.
    + intros done r run run' _ (H1 & H2 & H3) V.
      assert (S' : same_stores (files (site (office run))) (files (site (office run'))))
        by (destruct V; assumption).
      destruct S' as (S1 & S2 & S3). unfold same_stores.
      rewrite S1, S2, S3. auto.
Qed.

End CampaignFacts.

(** ** The campaign as [main] runs it *)

Section RunnerFacts.
Import PyStr PyStrFacts Campaign.
Variable env : Env.
Variable sender : Sender.
Variable default_offer default_description from_name : string.

(** When [main] reaches its loop: the product file is readable and, if a
    recipient was loaded, [./logs] exists. *)
Lemma main_run (rows : list CsvRow) (h : Host) :
  (exists e, product_info h = BadProductFile e
             /\ main env sender default_offer default_description from_name rows h
                = (Raise e, h))
  \/ (exists offer' description' h1,
        read_product_info default_offer default_description h
        = (Ok (offer', description'), h1)
        /\ host_office h1 = host_office h /\ logs_dir h1 = logs_dir h
        /\ ((load_recipients_from_csv rows <> [] /\ logs_dir h = false
             /\ main env sender default_offer default_description from_name rows h
                = (Raise FileNotFoundError, h1))
            \/ ((load_recipients_from_csv rows = [] \/ logs_dir h = true)
                /\ main env sender default_offer default_description from_name rows h
                   = (fst (Campaign.campaign env sender offer' description' from_name
                             rows (host_office h)),
                      set_host_office
                        (office (snd (Campaign.campaign env sender offer' description'
                                        from_name rows (host_office h))))
                        h1)))).
Proof.
  unfold main, bind, read_product_info.
  destruct (product_info h) as [|e|o d] eqn:Ep.
  - right. eexists. eexists. eexists. split; [reflexivity|].
    split; [reflexivity|]. split; [reflexivity|].
    destruct (load_recipients_from_csv rows) as [|r0 rest] eqn:Er.
    + right. split; [now left|]. unfold Campaign.campaign. rewrite Er.
      cbn. unfold set_host_office, set_product_info. cbn. reflexivity.
    + cbn [logs_dir set_product_info]. destruct (logs_dir h) eqn:El.
      * right. split; [now right|].
        destruct (Campaign.campaign _ _ _ _ _ _ _) as [r run]. reflexivity.
      * left. split; [discriminate|]. split; reflexivity.
  - left. exists e. split; reflexivity.
  - right. eexists. eexists. eexists. split; [reflexivity|].
    split; [reflexivity|]. split; [reflexivity|].
    destruct (load_recipients_from_csv rows) as [|r0 rest] eqn:Er.
    + right. split; [now left|]. unfold Campaign.campaign. rewrite Er.
      cbn. unfold set_host_office. now destruct h.
    + destruct (logs_dir h) eqn:El.
      * right. split; [now right|].
        destruct (Campaign.campaign _ _ _ _ _ _ _) as [r run]. reflexivity.
      * left. split; [discriminate|]. split; reflexivity.
Qed.

(** X16.  One run of [main] never mails an address twice: among the messages
    that go through during the run, no two have the same recipient address
    (addresses compared as written).  [main] raises in two cases only, both
    before its loop, and then nothing is mailed: when the product file cannot
    be read (any exception but a missing file), and when recipients were
    loaded and the directory [./logs] is missing. *)
Theorem campaign_never_mails_twice (rows : list CsvRow) (h : Host) :
  exists r h' new,
    main env sender default_offer default_description from_name rows h = (r, h')
    /\ outbox (host_office h') = (outbox (host_office h) ++ new)%list
    /\ NoDup (map mail_to (delivered_mail new))
    /\ (r = Ok tt
        \/ (new = [] /\ exists e, product_info h = BadProductFile e /\ r = Raise e)
        \/ (new = [] /\ logs_dir h = false /\ load_recipients_from_csv rows <> []
            /\ r = Raise FileNotFoundError)).
Proof.
  destruct (main_run rows h)
    as [(e & Ep & E)
       |(offer' & description' & h1 & Er & Ho & Hl & [(Hne & Hd & E)|(_ & E)])].
  - exists (Raise e), h, []. rewrite List.app_nil_r.
    split; [exact E|]. split; [reflexivity|]. split; [constructor|].
    right. left. split; [reflexivity|]. now exists e.
  - exists (Raise FileNotFoundError), h1, []. rewrite List.app_nil_r, Ho.
    split; [exact E|]. split; [reflexivity|]. split; [constructor|].
    right. right. auto.
  - destruct (campaign_books env sender offer' description' from_name rows (host_office h))
      as (run & Ec & new & Hout & _ & _ & _ & Hnd & _).
    rewrite Ec in E. cbn [fst snd] in E.
    exists (Ok tt), (set_host_office (office run) h1), new.
    split; [exact E|]. split; [exact Hout|]. split; [exact Hnd|]. now left.
Qed.

(** X20.  Starting a campaign with [main_runner] wipes what the engine
    remembers and keeps what it still has to do, whether [main] then
    completes or raises: afterwards [was_manually_handled] answers False for
    every customer and every window, [get_conversation_history] finds no
    history for anyone, and the queue of pending replies is the one from
    before.  [clear_logs] has created [./logs], so the run completes unless
    the product file cannot be read. *)
Theorem new_campaign_forgets (rows : list CsvRow) (h : Host)
  (responder : Env) (strptime : string -> option Z) :
  exists r h',
    main_runner env sender default_offer default_description from_name rows h = (r, h')
    /\ ((forall e, product_info h <> BadProductFile e) -> r = Ok tt)
    /\ (forall e hours,
          fst (was_manually_handled responder strptime e hours
                 (files (site (host_office h'))))
          = Ok false)
    /\ (forall e,
          fst (get_conversation_history e (files (site (host_office h'))))
          = Ok "No previous conversation history.")
    /\ replies_json (files (site (host_office h')))
       = replies_json (files (site (host_office h))).
Proof.
  unfold main_runner, bind.
  set (h0 := snd (clear_logs h)).
  change (clear_logs h) with (Ok tt, h0). cbv iota.
  assert (Hwiped : forall o',
            same_stores (files (site (host_office h0))) (files (site o')) ->
            (forall e hours,
               fst (was_manually_handled responder strptime e hours (files (site o')))
               = Ok false)
            /\ (forall e, fst (get_conversation_history e (files (site o')))
                          = Ok "No previous conversation history.")
            /\ replies_json (files (site o'))
               = replies_json (files (site (host_office h)))).
  { intros o' (S1 & S2 & S3). split; [|split].
    - intros e hours.
      rewrite (was_manually_handled_some responder strptime e hours _ "")
        by (rewrite S3; reflexivity).
      unfold handled_within. cbn [PyStr.readlines scan_lines].
      now destruct (_ <? 0).
    - intros e. rewrite history_text, S2. reflexivity.
    - rewrite S1. reflexivity. }
  destruct (main_run rows h0)
    as [(e & Ep & E)
       |(offer' & description' & h1 & Er & Ho & Hl & [(Hne & Hd & E)|(_ & E)])].
  - exists (Raise e), h0. split; [exact E|]. split.
    + intros Hgood. now elim (Hgood e).
    + apply Hwiped. repeat split.
  - discriminate Hd.
  - destruct (campaign_stores env sender offer' description' from_name rows
                (host_office h0)) as (run & Ec & Hs).
    rewrite Ec in E. cbn [fst snd] in E.
    exists (Ok tt), (set_host_office (office run) h1).
    split; [exact E|]. split; [reflexivity|]. now apply Hwiped.
Qed.

End RunnerFacts.

(** ** Discovery *)

Section InboxFacts.
Import PyStr PyStrFacts.
Variable env : Env.
Variable mailbox : Mailbox.

Lemma quiet_refl (o : Office) : quiet o o.
Proof. repeat split. Qed.

Lemma quiet_trans (o1 o2 o3 : Office) : quiet o1 o2 -> quiet o2 o3 -> quiet o1 o3.
Proof.
  intros (A1 & A2 & A3 & A4 & A5 & A6) (B1 & B2 & B3 & B4 & B5 & B6).
  unfold quiet. rewrite B1, B2, B3, B4, B5, B6. auto 10.
Qed.

(** One message: what is found is a record of the message, and something is
    found exactly when the message answers. *)
Lemma read_message_run (contacted : list string) (eid : nat) (o : Office) :
  exists o' found,
    read_message env mailbox contacted eid o = (Ok found, o')
    /\ quiet o o'
    /\ (forall r, In r found ->
          records mailbox eid r /\ answers mailbox contacted eid = true)
    /\ (answers mailbox contacted eid = true -> exists r, found = [r]).
Proof.
  unfold read_message, answers, records.
  destruct (msg_from (fetch mailbox eid)) as [addr|] eqn:Ef.
  2:{ exists o, []. split; [reflexivity|]. split; [apply quiet_refl|].
      split; [intros r []|discriminate]. }
  destruct (in_dec string_dec (lower addr) contacted) as [Hin|Hin].
  2:{ exists o, []. split; [reflexivity|]. split; [apply quiet_refl|].
      split; [intros r []|]. destruct (msg_subject _); discriminate. }
  destruct (msg_in_reply_to (fetch mailbox eid)) eqn:Er.
  2:{ exists o, []. split; [reflexivity|]. split; [apply quiet_refl|].
      split; [intros r []|]. destruct (msg_subject _); discriminate. }
  destruct (msg_subject (fetch mailbox eid)) as [s|] eqn:Es.
  2:{ exists o, []. split; [reflexivity|]. split; [apply quiet_refl|].
      split; [intros r []|discriminate]. }
  eexists. eexists. split; [reflexivity|]. split; [repeat split|].
  split.
  - intros r [<-|[]]. split; [|reflexivity].
    exists addr, s. eexists. auto.
  - intros _. eexists. reflexivity.
Qed.

Lemma read_messages_run (contacted : list string) (email_ids : list nat) (o : Office) :
  exists o' found,
    read_messages env mailbox contacted email_ids o = (Ok found, o')
    /\ quiet o o'
    /\ (forall r, In r found ->
          exists eid, In eid email_ids /\ records mailbox eid r
                      /\ answers mailbox contacted eid = true)
    /\ (forall eid, In eid email_ids -> answers mailbox contacted eid = true ->
          exists r, In r found /\ records mailbox eid r).
Proof.
  revert o. induction email_ids as [|eid rest IH]; intros o.
  - exists o, []. split; [reflexivity|]. split; [apply quiet_refl|].
    split; [intros r []|intros eid []].
  - cbn [read_messages]. unfold bind.
    destruct (read_message_run contacted eid o) as (o1 & f1 & E1 & Q1 & S1 & C1).
    rewrite E1.
    destruct (IH o1) as (o2 & f2 & E2 & Q2 & S2 & C2). rewrite E2.
    exists o2, (f1 ++ f2)%list. split; [reflexivity|].
    split; [exact (quiet_trans _ _ _ Q1 Q2)|]. split.
    + intros r Hr. apply in_app_or in Hr as [Hr|Hr].
      * exists eid. destruct (S1 r Hr). split; [now left|]. now split.
      * destruct (S2 r Hr) as (eid' & H1 & H2). exists eid'. split; [now right|exact H2].
    + intros eid' [<-|Hin] Ha.
      * destruct (C1 Ha) as [r ->]. exists r. split; [now left|].
        apply S1. now left.
      * destruct (C2 eid' Hin Ha) as (r & Hr & Hrec). exists r.
        split; [apply in_or_app; now right|exact Hrec].
Qed.

(** The run as a whole: what it adds to the queue and what it announces. *)
Lemma find_and_save_replies_run (o : Office) :
  exists o' new,
    find_and_save_replies env mailbox o = (Ok tt, o')
    /\ load_list (replies_json (files (site o')))
       = (load_list (replies_json (files (site o))) ++ new)%list
    /\ (new = [] -> quiet o o')
    /\ notices o'
       = (notices o ++ match new with
                       | [] => []
                       | _ :: _ => [(new, notifies mailbox new)]
                       end)%list
    /\ email_logs (site o') = email_logs (site o)
    /\ outbox o' = outbox o
    /\ (load_sent_emails (email_logs (site o)) <> [] ->
        connects mailbox = true ->
        forall email_ids,
          search mailbox
            ("(UNSEEN "
             ++ fmt (Discovery.build_or_query (load_sent_emails (email_logs (site o))))
             ++ ")") = SearchOk email_ids ->
          (forall r, In r new ->
             exists eid, In eid email_ids /\ records mailbox eid r
               /\ answers mailbox (load_sent_emails (email_logs (site o))) eid = true)
          /\ (forall eid, In eid email_ids ->
                answers mailbox (load_sent_emails (email_logs (site o))) eid = true ->
                exists r, In r new /\ records mailbox eid r))
    /\ (forall r, In r new ->
          exists eid,
            records mailbox eid r
            /\ answers mailbox (load_sent_emails (email_logs (site o))) eid = true).
Proof.
  assert (Hnone : exists o' new,
            (Ok tt, o) = (Ok tt, o')
            /\ load_list (replies_json (files (site o')))
               = (load_list (replies_json (files (site o))) ++ new)%list
            /\ (new = [] -> quiet o o')
            /\ notices o'
               = (notices o ++ match new with
                               | [] => []
                               | _ :: _ => [(new, notifies mailbox new)]
                               end)%list
            /\ email_logs (site o') = email_logs (site o)
            /\ outbox o' = outbox o
            /\ (forall r, In r new ->
                  exists eid,
                    records mailbox eid r
                    /\ answers mailbox (load_sent_emails (email_logs (site o))) eid
                       = true)).
  { exists o, []. rewrite !List.app_nil_r.
    repeat split; try reflexivity; intros r []. }
  unfold find_and_save_replies, bind, gets.
  set (contacted := load_sent_emails (email_logs (site o))).
  fold contacted in Hnone.
  destruct contacted as [|c0 crest] eqn:Ec.
  { destruct Hnone as (o' & new & H1 & H2 & H3 & H4 & H5 & H6 & H7).
    exists o', new. repeat (split; [assumption|]). split; [|assumption].
    intros Hne. now elim Hne. }
  rewrite <- Ec in *. clear Ec.
  destruct (connects mailbox) eqn:Econ.
  2:{ destruct Hnone as (o' & new & H1 & H2 & H3 & H4 & H5 & H6 & H7).
      exists o', new. repeat (split; [assumption|]). split; [|assumption].
      intros _ Hc. discriminate Hc. }
  destruct (search mailbox _) as [| |email_ids] eqn:Esearch.
  { destruct Hnone as (o' & new & H1 & H2 & H3 & H4 & H5 & H6 & H7).
    exists o', new. repeat (split; [assumption|]). split; [|assumption].
    intros _ _ ids Hs. discriminate Hs. }
  { destruct Hnone as (o' & new & H1 & H2 & H3 & H4 & H5 & H6 & H7).
    exists o', new. repeat (split; [assumption|]). split; [|assumption].
    intros _ _ ids Hs. discriminate Hs. }
  clear Hnone.
  destruct (read_messages_run contacted email_ids o)
    as (o1 & found & E1 & Q1 & S1 & C1).
  rewrite E1. destruct Q1 as (Q1 & Q2 & Q3 & Q4 & Q5 & Q6).
  destruct found as [|r0 found'] eqn:Efound.
  - exists o1, []. rewrite !List.app_nil_r, Q1, Q4, Q5, Q6.
    split; [reflexivity|]. split; [reflexivity|].
    split; [intros _; unfold quiet; auto 10|].
    split; [reflexivity|]. split; [reflexivity|]. split; [reflexivity|].
    split; [|intros r []].
    intros _ _ ids [= <-]. split; [intros r []|exact C1].
  - rewrite <- Efound in *.
    assert (Hne : found <> []) by (rewrite Efound; discriminate).
    clear Efound.
    eexists. exists found. split; [reflexivity|].
    cbn. rewrite Q1, Q4, Q5, Q6.
    split; [reflexivity|]. split; [intros ->; now elim Hne|].
    split; [destruct found; [now elim Hne|reflexivity]|].
    split; [reflexivity|]. split; [reflexivity|].
    split.
    + intros _ _ ids [= <-]. split; [exact S1|exact C1].
    + intros r Hr. destruct (S1 r Hr) as (eid & _ & H). now exists eid.
Qed.

(** X21.  Discovery only ever adds to the queue of pending replies: the
    replies found are appended after those already waiting, each comes from
    an address of the contacted set (so the engine's lower-casing leaves it
    as it is) and carries all five fields; one summary is sent when
    something was found and none otherwise, and a run that finds nothing
    leaves every file as it was. *)
Theorem discovery_extends_queue (o : Office) :
  exists o' new,
    find_and_save_replies env mailbox o = (Ok tt, o')
    /\ load_list (replies_json (files (site o')))
       = (load_list (replies_json (files (site o))) ++ new)%list
    /\ (forall r, In r new ->
          exists a,
            from_email r = Some a
            /\ In a (load_sent_emails (email_logs (site o)))
            /\ email_of r = a
            /\ subject r <> None /\ body r <> None
            /\ timestamp r <> None /\ gmail_link r <> None)
    /\ notices o'
       = (notices o ++ match new with
                       | [] => []
                       | _ :: _ => [(new, notifies mailbox new)]
                       end)%list
    /\ (new = [] -> quiet o o').
Proof.
  destruct (find_and_save_replies_run o)
    as (o' & new & E & Hq & Hquiet & Hn & _ & _ & _ & Hall).
  exists o', new. split; [exact E|]. split; [exact Hq|].
  split; [|split; [exact Hn|exact Hquiet]].
  intros r Hr. destruct (Hall r Hr) as (eid & (addr & s & t & Hf & Hs & ->) & Ha).
  exists (lower addr). cbn [from_email subject body timestamp gmail_link].
  unfold answers in Ha. rewrite Hf, Hs in Ha.
  destruct (in_dec string_dec (lower addr) _) as [Hin|]; [|discriminate Ha].
  split; [reflexivity|]. split; [exact Hin|].
  split; [unfold email_of; cbn; apply lower_idem|].
  repeat split; discriminate.
Qed.

(** X22.  Discovery misses no answer the search lists: when the server is
    reached and the search succeeds (whatever the text of the query: the
    order in which the contacted set is enumerated is not fixed), every
    listed message that comes from a contacted address (compared in lower
    case), answers another message and has a readable subject is in the queue
    afterwards, with its sender in lower case, its subject, its body and its
    link. *)
Theorem discovery_saves_every_answer (o : Office) (email_ids : list nat)
  (eid : nat) (addr subject_text : string) :
  connects mailbox = true ->
  (forall query, search mailbox query = SearchOk email_ids) ->
  In eid email_ids ->
  msg_from (fetch mailbox eid) = Some addr ->
  In (lower addr) (load_sent_emails (email_logs (site o))) ->
  msg_in_reply_to (fetch mailbox eid) = true ->
  msg_subject (fetch mailbox eid) = Some subject_text ->
  exists r,
    In r (load_list (replies_json (files (site (snd (find_and_save_replies env mailbox o))))))
    /\ from_email r = Some (lower addr)
    /\ subject r = Some subject_text
    /\ body r = Some (msg_body (fetch mailbox eid))
    /\ gmail_link r = Some (msg_link (fetch mailbox eid)).
Proof.
  intros Hcon Hsearch Hid Hfrom Hin Hreply Hsubj.
  destruct (find_and_save_replies_run o)
    as (o' & new & E & Hq & _ & _ & _ & _ & Hfull & _).
  rewrite E. cbn [snd]. rewrite Hq.
  assert (Hne : load_sent_emails (email_logs (site o)) <> [])
    by (intros E0; rewrite E0 in Hin; destruct Hin).
  destruct (Hfull Hne Hcon email_ids (Hsearch _)) as [_ Hcomplete].
  destruct (Hcomplete eid Hid) as (r & Hr & (a & s & t & Hf & Hs & ->)).
  - unfold answers. rewrite Hfrom, Hsubj, Hreply.
    now destruct (in_dec string_dec (lower addr) _).
  - rewrite Hfrom in Hf. rewrite Hsubj in Hs.
    injection Hf as <-. injection Hs as <-.
    eexists. split; [apply in_or_app; right; exact Hr|].
    repeat split.
Qed.

End InboxFacts.

(** ** From a campaign to the queue *)

Section Pipeline.
Import PyStr PyStrFacts Campaign.
Variable env : Env.
Variable sender : Sender.
Variable offer product_description from_name : string.
Variable mailbox : Mailbox.

(** X23.  An answer to a campaign message reaches the queue: if a message of
    the campaign went through to an address and, at the next discovery, the
    search lists a message from that address (upper and lower case aside)
    that answers another message and has a readable subject, then the queue
    holds a reply from that address, in lower case, afterwards.  Assumed:
    the loaded names hold no line break and no "Email:", the loaded
    addresses are ASCII text, the generated subjects hold no line break, the
    server is reached and the search succeeds. *)
Theorem campaign_answer_is_queued (rows : list CsvRow) (o : Office)
  (new : list (OutMail * bool)) (m : OutMail)
  (email_ids : list nat) (eid : nat) (addr subject_text : string) :
  (forall n name subject body,
     run_email_agent sender n name offer product_description from_name
     = GenEmail subject body ->
     single_line subject = true) ->
  (forall r, In r (load_recipients_from_csv rows) ->
     single_line (r_name r) = true
     /\ str_in "Email:" (r_name r) = false
     /\ ascii_text (r_email r) = true) ->
  outbox (office (snd (campaign env sender offer product_description from_name rows o)))
  = (outbox o ++ new)%list ->
  In m (delivered_mail new) ->
  connects mailbox = true ->
  (forall query, search mailbox query = SearchOk email_ids) ->
  In eid email_ids ->
  msg_from (fetch mailbox eid) = Some addr ->
  lower addr = lower (mail_to m) ->
  msg_in_reply_to (fetch mailbox eid) = true ->
  msg_subject (fetch mailbox eid) = Some subject_text ->
  exists r,
    In r (load_list
            (replies_json
               (files (site (snd (find_and_save_replies env mailbox
                    (office (snd (campaign env sender offer product_description
                                    from_name rows o)))))))))
    /\ from_email r = Some (lower (mail_to m))
    /\ subject r = Some subject_text
    /\ body r = Some (msg_body (fetch mailbox eid)).
Proof.
  intros Hsubjects Hrows Hout Hm Hcon Hsearch Hid Hfrom Hsame Hreply Hsubj.
  destruct (campaign_posted env sender offer product_description from_name
              Hsubjects rows o) as (run & new' & E & Hout' & Hposted).
  { intros r Hr. destruct (Hrows r Hr) as (H1 & H2 & _). now split. }
  rewrite E in *. cbn [snd] in *.
  rewrite Hout' in Hout. apply app_inv_head in Hout. subst new'.
  pose proof (Hposted m Hm) as Hin. rewrite <- Hsame in *.
  destruct (find_and_save_replies_run env mailbox (office run))
    as (o' & found & E' & Hq & _ & _ & _ & _ & Hfull & _).
  rewrite E'. cbn [snd]. rewrite Hq.
  assert (Hne : load_sent_emails (email_logs (site (office run))) <> [])
    by (intros E0; rewrite E0 in Hin; destruct Hin).
  destruct (Hfull Hne Hcon email_ids (Hsearch _)) as [_ Hcomplete].
  destruct (Hcomplete eid Hid) as (r & Hr & (a & s & t & Hf & Hs & ->)).
  - unfold answers. rewrite Hfrom, Hsubj, Hreply.
    now destruct (in_dec string_dec (lower addr) _).
  - rewrite Hfrom in Hf. rewrite Hsubj in Hs.
    injection Hf as <-. injection Hs as <-.
    eexists. split; [apply in_or_app; right; exact Hr|].
    repeat split.
Qed.

End Pipeline.

(** ** Instances *)

Example campaign_sample :
  let run := snd (Campaign.campaign Samples.hourly_env Scenes.steady_sender "An offer" ""
                    "The Team" Scenes.contacts Scenes.empty_office) in
  map (fun entry => (mail_to (fst entry), snd entry)) (outbox (Campaign.office run))
  = [("Ann@X.com", true); ("bob@y.org", true)]
  /\ Campaign.stats run = Campaign.mkStats 2 2 0 0
  /\ load_sent_emails (email_logs (site (Campaign.office run)))
     = ["ann@x.com"; "bob@y.org"].
Proof. vm_compute. repeat split. Qed.

(** The duplicate check compares the addresses as written: two spellings of
    one address are both mailed, and count once in the contacted set. *)
Example campaign_case_variants :
  let run := snd (Campaign.campaign Samples.hourly_env Scenes.steady_sender "An offer" ""
                    "The Team" Scenes.case_variants Scenes.empty_office) in
  map (fun entry => (mail_to (fst entry), snd entry)) (outbox (Campaign.office run))
  = [("Ann@X.com", true); ("ann@x.com", true)]
  /\ load_sent_emails (email_logs (site (Campaign.office run))) = ["ann@x.com"].
Proof. vm_compute. repeat split. Qed.

(** An address whose message was refused is not remembered: a later row with
    the same address is tried again. *)
Example campaign_refused_then_retried :
  let run := snd (Campaign.campaign Samples.hourly_env Scenes.recovering_sender
                    "An offer" "" "The Team" Scenes.twice_listed Scenes.empty_office) in
  map (fun entry => (mail_to (fst entry), snd entry)) (outbox (Campaign.office run))
  = [("bob@y.org", false); ("bob@y.org", true)]
  /\ Campaign.stats run = Campaign.mkStats 1 0 1 0.
Proof. vm_compute. repeat split. Qed.

(** [main] on a host without [./logs]: the product file is created, the
    ledger cannot be opened and nothing is mailed; and on a host whose
    product file is not JSON. *)
Example main_raises :
  Campaign.main Samples.hourly_env Scenes.steady_sender "An offer" "" "The Team"
    Scenes.contacts Scenes.bare_host
  = (Raise FileNotFoundError,
     Campaign.mkHost Scenes.empty_office false
       (Campaign.ProductInfo (Some "An offer") (Some "")))
  /\ Campaign.main Samples.hourly_env Scenes.steady_sender "An offer" "" "The Team"
       Scenes.contacts Scenes.broken_host
     = (Raise ValueError, Scenes.broken_host).
Proof. vm_compute. split; reflexivity. Qed.

(** [main_runner] creates the directory first. *)
Example main_runner_sample :
  fst (Campaign.main_runner Samples.hourly_env Scenes.steady_sender "An offer" ""
         "The Team" Scenes.contacts Scenes.bare_host) = Ok tt
  /\ map (fun entry => (mail_to (fst entry), snd entry))
       (outbox (Campaign.host_office
                  (snd (Campaign.main_runner Samples.hourly_env Scenes.steady_sender
                          "An offer" "" "The Team" Scenes.contacts Scenes.bare_host))))
     = [("Ann@X.com", true); ("bob@y.org", true)].
Proof. vm_compute. split; reflexivity. Qed.

Example discovery_sample :
  map from_email
    (load_list (replies_json (files (site (snd
       (find_and_save_replies Samples.hourly_env Scenes.answering_mailbox
          Scenes.office_after_campaign))))))
  = [Some "ann@x.com"].
Proof. vm_compute. reflexivity. Qed.

Example is_valid_email_samples :
  map is_valid_email
    ["a@x.com"; "first.last-name@mail.example.org"; "a@x.com" ++ NL;
     "a@x..com"; ".@..a";
     "a@x"; "a b@x.com"; "@x.com"; "a@x.c-m"; "a@@x.com"; "a@x.com ";
     "a@.com"; "a@x.com" ++ NL ++ NL; NL ++ "a@x.com"]
  = [true; true; true; true; true;
     false; false; false; false; false; false; false; false; false].
Proof. vm_compute. reflexivity. Qed.

(** *** Instances of the properties above *)

Lemma flagged_draft_is_sent_witness :
  draft Scenes.flagging_env Datetime.strptime_fixed Samples.first_reply
    (start_pass Samples.one_reply_world)
  = (Some "It is 20 euros.", Some "Complex query")
  /\ exists st' ok,
       process_reply Scenes.flagging_env Datetime.strptime_fixed Samples.first_reply
         (start_pass Samples.one_reply_world) = (Ok tt, st')
       /\ smtp_trace (world st')
          = (smtp_trace (world (start_pass Samples.one_reply_world))
             ++ [(response_mail Scenes.flagging_env Datetime.strptime_fixed
                    Samples.first_reply (start_pass Samples.one_reply_world), ok)])%list
       /\ notification_log (world st')
          = notification_log (world (start_pass Samples.one_reply_world))
       /\ (ok = true ->
           outcomes st'
           = (outcomes (start_pass Samples.one_reply_world)
              ++ [(Samples.first_reply, AiResponded)])%list
           /\ exists now,
                conversation_log (world st')
                = Some (load_list (conversation_log
                                     (world (start_pass Samples.one_reply_world)))
                        ++ [mkConvEntry now (email_of Samples.first_reply)
                              (name_of Samples.first_reply)
                              (body_of Samples.first_reply)
                              (Some "It is 20 euros.") false None])%list)
       /\ (ok = false ->
           outcomes st'
           = (outcomes (start_pass Samples.one_reply_world)
              ++ [(Samples.first_reply, SendFailed)])%list).
Proof.
  apply (flagged_draft_is_sent Scenes.flagging_env Datetime.strptime_fixed
           Samples.first_reply (start_pass Samples.one_reply_world) "It is 20 euros.").
  - reflexivity.
  - reflexivity.
  - discriminate.
  - reflexivity.
  - reflexivity.
  - left. reflexivity.
Defined.

Lemma escalation_starts_window_witness :
  fst (was_manually_handled Samples.hourly_env Datetime.strptime_fixed
         (email_of Samples.first_reply) 24
         (world (snd (process_reply Samples.hourly_env Datetime.strptime_fixed
                        Samples.first_reply (start_pass Samples.one_reply_world)))))
  = Ok true.
Proof.
  apply (escalation_starts_window Samples.hourly_env Datetime.strptime_fixed
           Samples.first_reply (start_pass Samples.one_reply_world)).
  - reflexivity.
  - reflexivity.
  - reflexivity.
  - reflexivity.
  - vm_compute. intros l [<-|[]]. reflexivity.
  - reflexivity.
  - vm_compute. reflexivity.
  - vm_compute. discriminate.
  - vm_compute. reflexivity.
Defined.

Lemma history_is_a_window_witness :
  fst (get_conversation_history "a@x.com" Scenes.busy_world)
  = fst (get_conversation_history "a@x.com"
           (set_conversation_log
              (Some (filter (fun c => String.eqb (customer_email c) "a@x.com")
                       Scenes.late_exchanges))
              Scenes.busy_world)).
Proof.
  apply (history_is_a_window "a@x.com" Scenes.busy_world Scenes.old_exchanges
           Scenes.late_exchanges).
  - reflexivity.
  - vm_compute. lia.
Defined.

Lemma or_query_names_every_address_witness :
  exists q,
    Discovery.build_or_query ["a@x.com"; "b@x.com"; "c@x.com"] = Some q
    /\ PyStr.str_in (Discovery.from_key "c@x.com") q = true.
Proof.
  apply (or_query_names_every_address ["a@x.com"; "b@x.com"; "c@x.com"] "c@x.com").
  right. right. left. reflexivity.
Defined.

Lemma or_query_keeps_addresses_witness :
  exists t,
    Discovery.or_tree ["a@x.com"; "b@x.com"; "c@x.com"] = Some t
    /\ Discovery.build_or_query ["a@x.com"; "b@x.com"; "c@x.com"]
       = Some (Discovery.render t)
    /\ addresses t = ["a@x.com"; "b@x.com"; "c@x.com"].
Proof.
  apply (or_query_keeps_addresses ["a@x.com"; "b@x.com"; "c@x.com"]).
  discriminate.
Defined.

Lemma or_query_depth_is_logarithmic_witness :
  exists t,
    Discovery.or_tree ["a@x.com"; "b@x.com"; "c@x.com"; "d@x.com"; "e@x.com"] = Some t
    /\ Discovery.build_or_query ["a@x.com"; "b@x.com"; "c@x.com"; "d@x.com"; "e@x.com"]
       = Some (Discovery.render t)
    /\ (2 ^ or_depth t <= 2 * 5 - 2)%nat.
Proof.
  apply (or_query_depth_is_logarithmic
           ["a@x.com"; "b@x.com"; "c@x.com"; "d@x.com"; "e@x.com"]).
  cbn. lia.
Defined.

Lemma sent_address_is_contacted_witness :
  In (PyStr.lower (PyStr.strip "Ann@X.com"))
     (load_sent_emails
        (email_logs
           (snd (log_result Samples.hourly_env "sent" "Ann" "Ann@X.com" "Email sent"
                   "An offer" Scenes.empty_site)))).
Proof.
  apply (sent_address_is_contacted Samples.hourly_env "Ann" "Ann@X.com" "Email sent"
           "An offer" Scenes.empty_site); reflexivity.
Defined.

Lemma contacted_addresses_are_lower_case_witness :
  PyStr.lower "ann@x.com" = "ann@x.com".
Proof.
  apply (contacted_addresses_are_lower_case
           (email_logs (site Scenes.office_after_campaign)) "ann@x.com").
  vm_compute. left. reflexivity.
Defined.

Lemma valid_email_shape_witness :
  is_valid_email "first.last-name@mail.example.org" = true
  <-> address_shape "first.last-name@mail.example.org"
      \/ exists before,
           "first.last-name@mail.example.org" = before ++ NL /\ address_shape before.
Proof.
  apply (valid_email_shape "first.last-name@mail.example.org"). reflexivity.
Defined.

Lemma loaded_recipients_are_clean_witness :
  exists row,
    In row Scenes.contacts
    /\ r_email (mkRecipient "Ann" "Ann@X.com") = PyStr.strip (get (row_email row) "")
    /\ r_email (mkRecipient "Ann" "Ann@X.com") <> ""
    /\ PyStr.strip (r_email (mkRecipient "Ann" "Ann@X.com"))
       = r_email (mkRecipient "Ann" "Ann@X.com")
    /\ r_name (mkRecipient "Ann" "Ann@X.com") <> ""
    /\ (r_name (mkRecipient "Ann" "Ann@X.com") = PyStr.strip (get (row_name row) "")
        \/ (PyStr.strip (get (row_name row) "") = ""
            /\ r_name (mkRecipient "Ann" "Ann@X.com") = "there")).
Proof.
  apply (loaded_recipients_are_clean Scenes.contacts (mkRecipient "Ann" "Ann@X.com")).
  vm_compute. left. reflexivity.
Defined.

Lemma campaign_feeds_discovery_witness :
  exists run new,
    Campaign.campaign Samples.hourly_env Scenes.steady_sender "An offer" "" "The Team"
      Scenes.contacts Scenes.empty_office = (Ok tt, run)
    /\ outbox (Campaign.office run) = (outbox Scenes.empty_office ++ new)%list
    /\ forall m, In m (delivered_mail new) ->
         In (PyStr.lower (mail_to m))
            (load_sent_emails (email_logs (site (Campaign.office run)))).
Proof.
  apply (campaign_feeds_discovery Samples.hourly_env Scenes.steady_sender "An offer" ""
           "The Team").
  - intros n name subject body [= <- _]. reflexivity.
  - vm_compute. intros r [<-|[<-|[<-|[<-|[]]]]]; repeat split.
Defined.

Lemma discovery_saves_every_answer_witness :
  exists r,
    In r (load_list
            (replies_json
               (files (site (snd (find_and_save_replies Samples.hourly_env
                                    Scenes.answering_mailbox
                                    Scenes.office_after_campaign))))))
    /\ from_email r = Some (PyStr.lower "ANN@X.COM")
    /\ subject r = Some "Re: An offer"
    /\ body r = Some (msg_body (fetch Scenes.answering_mailbox 7))
    /\ gmail_link r = Some (msg_link (fetch Scenes.answering_mailbox 7)).
Proof.
  apply (discovery_saves_every_answer Samples.hourly_env Scenes.answering_mailbox
           Scenes.office_after_campaign [7; 8]%nat 7%nat "ANN@X.COM" "Re: An offer").
  - reflexivity.
  - intros query. reflexivity.
  - left. reflexivity.
  - reflexivity.
  - vm_compute. left. reflexivity.
  - reflexivity.
  - reflexivity.
Defined.

Lemma campaign_answer_is_queued_witness :
  exists r,
    In r (load_list
            (replies_json
               (files (site (snd (find_and_save_replies Samples.hourly_env
                    Scenes.answering_mailbox
                    (Campaign.office
                       (snd (Campaign.campaign Samples.hourly_env Scenes.steady_sender
                               "An offer" "" "The Team" Scenes.contacts
                               Scenes.empty_office)))))))))
    /\ from_email r
       = Some (PyStr.lower
                 (mail_to (mkOutMail "Ann@X.com" "An offer" "<html>Hello</html>"
                             "The Team")))
    /\ subject r = Some "Re: An offer"
    /\ body r = Some (msg_body (fetch Scenes.answering_mailbox 7)).
Proof.
  apply (campaign_answer_is_queued Samples.hourly_env Scenes.steady_sender "An offer" ""
           "The Team" Scenes.answering_mailbox Scenes.contacts Scenes.empty_office
           [(mkOutMail "Ann@X.com" "An offer" "<html>Hello</html>" "The Team", true);
            (mkOutMail "bob@y.org" "An offer" "<html>Hello</html>" "The Team", true)]
           (mkOutMail "Ann@X.com" "An offer" "<html>Hello</html>" "The Team")
           [7; 8]%nat 7%nat "ANN@X.COM" "Re: An offer").
  - intros n name subject body [= <- _]. reflexivity.
  - vm_compute. intros r [<-|[<-|[<-|[<-|[]]]]]; repeat split.
  - vm_compute. reflexivity.
  - left. reflexivity.
  - reflexivity.
  - intros query. reflexivity.
  - left. reflexivity.
  - reflexivity.
  - reflexivity.
  - reflexivity.
  - reflexivity.
Defined.
